(** * Quiz video generator (app.py): rendering pipeline

    A shallow embedding of the pure parts of [app.py]: the text wrapping and
    font-size search, the box layout of the two orientations, the chroma-key
    step, the answer-box resolution, the blinking overlay and the clip
    concatenation; then the quiz input and its parser, the fade-in, the clip
    of one question and the final video.

    Conventions of the embedding.
    - Python [int] is [Z]; [//] and [%] are [Z.div] and [Z.modulo] (both
      round towards minus infinity, as Python does).
    - Python [str] is [string]: a sequence of code points below 256.
      [str.isspace] and [str.lower] are the CPython tables cut to that range.
    - Times (seconds) and the channel values of faded frames are exact
      rationals [Q]; [int(x)] on a time truncates towards zero. Where the
      program computes on Python floats and the rounding shows (the frame
      index of the blinking overlay, the running sum of the durations), the
      float is an IEEE 754 binary64 number ([F64]) with its rounded
      operations, next to the exact definition.
    - Standard input is the list of the lines still to be read.
    - A font is identified by its size (every font of the program is loaded
      from the same file); glyph measurement ([font.getbbox]) belongs to
      Pillow and is a parameter of the development.
    - A picture is the list of drawing calls made on a fresh canvas, in
      program order. *)

From Stdlib Require Import ZArith QArith Qround List String Ascii Bool Lia Lqa.
From Stdlib Require Import SpecFloat.
Import ListNotations.

Local Open Scope Z_scope.

(* ================================================================== *)
(** * Part I: the program *)
(* ================================================================== *)

(** ** Python string primitives used by app.py *)

Module PyStr.

(** [bool(s)] for a string: non-empty. *)
Definition truthy (s : string) : bool :=
  match s with EmptyString => false | String _ _ => true end.

(** [str.isspace] on one code point below 256: TAB..CR, FS..US, SPACE,
    NEL (0x85) and NBSP (0xA0). *)
Definition isspace (c : ascii) : bool :=
  let n := Z.of_nat (nat_of_ascii c) in
  ((9 <=? n) && (n <=? 13)) || ((28 <=? n) && (n <=? 32))
  || (n =? 133) || (n =? 160).

(** [str.lower] on one code point below 256: A..Z and the Latin-1 capitals
    0xC0..0xDE (without the multiplication sign 0xD7) move up by 32. *)
Definition lower_char (c : ascii) : ascii :=
  let n := Z.of_nat (nat_of_ascii c) in
  if ((65 <=? n) && (n <=? 90))
     || ((192 <=? n) && (n <=? 222) && negb (n =? 215))
  then ascii_of_nat (Z.to_nat (n + 32)) else c.

Fixpoint lower (s : string) : string :=
  match s with
  | EmptyString => EmptyString
  | String c s' => String (lower_char c) (lower s')
  end.

Fixpoint lstrip (s : string) : string :=
  match s with
  | EmptyString => EmptyString
  | String c s' => if isspace c then lstrip s' else s
  end.

Fixpoint rstrip (s : string) : string :=
  match s with
  | EmptyString => EmptyString
  | String c s' =>
      let r := rstrip s' in
      if negb (truthy r) && isspace c then EmptyString else String c r
  end.

(** [s.strip()] *)
Definition strip (s : string) : string := rstrip (lstrip s).

(** [s.startswith(p)] *)
Definition startswith (s p : string) : bool := prefix p s.

(** [sub in s] *)
Fixpoint contains (sub s : string) : bool :=
  prefix sub s ||
  match s with
  | EmptyString => false
  | String _ s' => contains sub s'
  end.

(** [s[n:]] *)
Fixpoint slice_from (n : nat) (s : string) : string :=
  match n, s with
  | O, _ => s
  | S _, EmptyString => EmptyString
  | S n', String _ s' => slice_from n' s'
  end.

(** [s.split()]: maximal runs of non-whitespace, scanned left to right;
    [cur] is the run being read. *)
Fixpoint split_from (cur s : string) : list string :=
  match s with
  | EmptyString => if truthy cur then [cur] else []
  | String c s' =>
      if isspace c
      then (if truthy cur then cur :: split_from EmptyString s'
            else split_from EmptyString s')
      else split_from (cur ++ String c EmptyString) s'
  end.

Definition split (s : string) : list string := split_from EmptyString s.

(** [sep.join(l)] *)
Fixpoint join (sep : string) (l : list string) : string :=
  match l with
  | [] => EmptyString
  | [x] => x
  | x :: l' => (x ++ sep ++ join sep l')%string
  end.

(** [for char in s] *)
Definition chars (s : string) : list ascii := list_ascii_of_string s.

End PyStr.

(** ** Pictures *)

Definition Region : Type := Z * Z * Z * Z.   (* (x1, y1, x2, y2) *)
Definition BBox : Type := Z * Z * Z * Z.     (* (left, top, right, bottom) *)
Definition RGB : Type := Z * Z * Z.
Definition RGBA : Type := Z * Z * Z * Z.
Definition Font : Type := Z.                 (* the size passed to truetype *)

Definition r_x1 (r : Region) : Z := let '(a, _, _, _) := r in a.
Definition r_y1 (r : Region) : Z := let '(_, b, _, _) := r in b.
Definition r_x2 (r : Region) : Z := let '(_, _, c, _) := r in c.
Definition r_y2 (r : Region) : Z := let '(_, _, _, d) := r in d.

Definition region_eqb (a b : Region) : bool :=
  (r_x1 a =? r_x1 b) && (r_y1 a =? r_y1 b)
  && (r_x2 a =? r_x2 b) && (r_y2 a =? r_y2 b).

(** A Pillow colour: a 3-tuple or a 4-tuple. *)
Inductive Color : Type :=
| Rgb (c : RGB)
| Rgba (c : RGBA).

(** One drawing call on a Pillow [ImageDraw]. *)
Inductive DrawOp : Type :=
| RoundedRectangle (xy : Region) (radius : Z)
    (fill : option Color) (outline : option Color) (width : Z)
| DrawText (xy : Z * Z) (text : string) (font : Font) (fill : Color).

Definition Picture : Type := list DrawOp.

(** ** Text fitting: break_word, draw_centered_wrapped_text, adjust_font_size *)

Section TextFitter.

(** [truetype_getbbox size text] is
    [ImageFont.truetype(font_path, size).getbbox(text)]. *)
Variable truetype_getbbox : Font -> string -> BBox.

(** [font.getbbox(s)[2] - font.getbbox(s)[0]] *)
Definition bbox_width (font : Font) (s : string) : Z :=
  r_x2 (truetype_getbbox font s) - r_x1 (truetype_getbbox font s).

(** [font.getbbox(s)[3] - font.getbbox(s)[1]] *)
Definition bbox_height (font : Font) (s : string) : Z :=
  r_y2 (truetype_getbbox font s) - r_y1 (truetype_getbbox font s).

(** One iteration of the loop of [break_word]; the state is
    [(segments, current_segment)]. *)
Definition break_word_step (font : Font) (max_width : Z)
    (st : list string * string) (char : ascii) : list string * string :=
  let '(segments, current_segment) := st in
  let test_segment := (current_segment ++ String char EmptyString)%string in
  if bbox_width font test_segment <=? max_width
  then (segments, test_segment)
  else ((if PyStr.truthy current_segment
         then segments ++ [current_segment] else segments),
        String char EmptyString).

Definition break_word (word : string) (font : Font) (max_width : Z)
    : list string :=
  let '(segments, current_segment) :=
    fold_left (break_word_step font max_width) (PyStr.chars word)
              ([], EmptyString) in
  if PyStr.truthy current_segment
  then segments ++ [current_segment] else segments.

(** First loop of [draw_centered_wrapped_text]: what one word adds to the
    list [words] ([extend] with its segments, or [append] the word). *)
Definition word_pieces (font : Font) (max_width : Z) (word : string)
    : list string :=
  if bbox_width font word >? max_width
  then break_word word font max_width
  else [word].

Definition wrap_words_step (font : Font) (max_width : Z)
    (words : list string) (word : string) : list string :=
  words ++ word_pieces font max_width word.

Definition wrap_words (text : string) (font : Font) (max_width : Z)
    : list string :=
  fold_left (wrap_words_step font max_width) (PyStr.split text) [].

(** Second loop: the state is [(lines, current_line)]. *)
Definition wrap_lines_step (font : Font) (max_width : Z)
    (st : list string * string) (word : string) : list string * string :=
  let '(lines, current_line) := st in
  let test_line :=
    (current_line
     ++ (if PyStr.truthy current_line then " " else "") ++ word)%string in
  if bbox_width font test_line <=? max_width
  then (lines, test_line)
  else ((if PyStr.truthy current_line
         then lines ++ [current_line] else lines),
        word).

Definition wrap_lines_of (words : list string) (font : Font) (max_width : Z)
    : list string :=
  let '(lines, current_line) :=
    fold_left (wrap_lines_step font max_width) words ([], EmptyString) in
  if PyStr.truthy current_line then lines ++ [current_line] else lines.

(** The list [lines] that [draw_centered_wrapped_text] draws. *)
Definition wrapped_lines (region : Region) (text : string) (font : Font)
    : list string :=
  let max_width := r_x2 region - r_x1 region in
  wrap_lines_of (wrap_words text font max_width) font max_width.

(** Last loop: one [draw_obj.text] per line, [start_y] advancing. *)
Fixpoint draw_lines (x1 max_width : Z) (font : Font) (text_color : Color)
    (line_height spacing : Z) (start_y : Z) (lines : list string)
    : Picture :=
  match lines with
  | [] => []
  | line :: rest =>
      let line_width := bbox_width font line in
      let x_centered := x1 + (max_width - line_width) / 2 in
      DrawText (x_centered, start_y) line font text_color
      :: draw_lines x1 max_width font text_color line_height spacing
           (start_y + (line_height + spacing)) rest
  end.

Definition draw_centered_wrapped_text (region : Region) (text : string)
    (font : Font) (text_color : Color) : Picture :=
  let '(x1, y1, x2, y2) := region in
  let max_width := x2 - x1 in
  let lines := wrapped_lines region text font in
  let line_height := bbox_height font "Ay" in
  let spacing := 5 in
  let total_height :=
    Z.of_nat (List.length lines) * line_height
    + (Z.of_nat (List.length lines) - 1) * spacing in
  let start_y := y1 + ((y2 - y1) - total_height) / 2 in
  draw_lines x1 max_width font text_color line_height spacing start_y lines.

(** The test of [adjust_font_size] at one size. *)
Definition text_fits (text : string) (font_size : Z)
    (region_width region_height : Z) : bool :=
  (bbox_width font_size text <=? region_width)
  && (bbox_height font_size text <=? region_height).

(** The [while font_size > 5] loop; [fuel] bounds the iterations left. *)
Fixpoint adjust_font_size_loop (fuel : nat) (text : string) (font_size : Z)
    (region_width region_height : Z) : Font :=
  match fuel with
  | O => font_size
  | S fuel' =>
      if font_size >? 5
      then if text_fits text font_size region_width region_height
           then font_size
           else adjust_font_size_loop fuel' text (font_size - 1)
                  region_width region_height
      else font_size
  end.

(** The loop runs at most [max_size - 5] times. The size returned stands
    for the font loaded at that size, which Pillow loads for sizes from 1
    on. *)
Definition adjust_font_size (text : string) (max_size : Z)
    (region_width region_height : Z) : Font :=
  adjust_font_size_loop (Z.to_nat (max_size - 5)) text max_size
    region_width region_height.

End TextFitter.

(** ** Layout of make_quiz_clip *)

(** The module-level globals set by the main block. *)
Record Config : Type := mkConfig {
  video_width : Z;
  video_height : Z;
  vertical_layout : bool
}.

(** The two assignments of the main block: choice "2" and any other. *)
Definition tall_config : Config := mkConfig 720 1280 true.
Definition wide_config : Config := mkConfig 1280 720 false.

(** The ratio prompt of the main block: [input().strip()], then "2" selects
    the vertical layout and anything else the default one. *)
Definition main_config (ratio_input : string) : Config :=
  let ratio_choice := PyStr.strip ratio_input in
  if (ratio_choice =? "2")%string then tall_config else wide_config.

Definition timer_height : Z := 100.
Definition timer_top_padding : Z := 20.

(** The locals of the layout branch of [make_quiz_clip]. *)
Record Layout : Type := mkLayout {
  margin : Z;
  box_radius : Z;
  q_box_region : Region;
  opt_height : Z;
  opt_a_box : Region;
  opt_b_box : Region;
  opt_c_box : Region;
  opt_d_box : Region
}.

Definition compute_layout (cfg : Config) : Layout :=
  let video_width := video_width cfg in
  if negb (vertical_layout cfg) then
    let margin := 50 in
    let box_radius := 20 in
    let q_box_top := timer_top_padding + timer_height + 20 in
    let q_box_height := 120 in
    let q_box_region :=
      (margin, q_box_top, video_width - margin, q_box_top + q_box_height) in
    let opt_width := (video_width - (3 * margin)) / 2 in
    let opt_height := 60 in
    let opt_top_row_y := q_box_top + q_box_height + 30 in
    let opt_bottom_row_y := opt_top_row_y + opt_height + 30 in
    let opt_a_box :=
      (margin, opt_top_row_y, margin + opt_width,
       opt_top_row_y + opt_height) in
    let opt_b_box :=
      (video_width - margin - opt_width, opt_top_row_y,
       video_width - margin, opt_top_row_y + opt_height) in
    let opt_c_box :=
      (margin, opt_bottom_row_y, margin + opt_width,
       opt_bottom_row_y + opt_height) in
    let opt_d_box :=
      (video_width - margin - opt_width, opt_bottom_row_y,
       video_width - margin, opt_bottom_row_y + opt_height) in
    mkLayout margin box_radius q_box_region opt_height
             opt_a_box opt_b_box opt_c_box opt_d_box
  else
    let margin := 40 in
    let box_radius := 20 in
    let q_box_top := timer_top_padding + timer_height + 20 in
    let q_box_height := 150 in
    let q_box_region :=
      (margin, q_box_top, video_width - margin, q_box_top + q_box_height) in
    let opt_height := 60 in
    let opt_spacing := 25 in
    let opt_a_box :=
      (margin, q_box_top + q_box_height + 30, video_width - margin,
       q_box_top + q_box_height + 30 + opt_height) in
    let opt_b_box :=
      (margin, r_y2 opt_a_box + opt_spacing, video_width - margin,
       r_y2 opt_a_box + opt_spacing + opt_height) in
    let opt_c_box :=
      (margin, r_y2 opt_b_box + opt_spacing, video_width - margin,
       r_y2 opt_b_box + opt_spacing + opt_height) in
    let opt_d_box :=
      (margin, r_y2 opt_c_box + opt_spacing, video_width - margin,
       r_y2 opt_c_box + opt_spacing + opt_height) in
    mkLayout margin box_radius q_box_region opt_height
             opt_a_box opt_b_box opt_c_box opt_d_box.

(** ** Answer box of make_quiz_clip *)

(** The [if/elif] chain on [answer_lower]; [None] is Python's [None]. *)
Definition find_answer_box (L : Layout) (answer_text : string)
    : option Region :=
  let answer_lower := PyStr.strip (PyStr.lower answer_text) in
  if PyStr.contains "a)" answer_lower || PyStr.startswith answer_lower "a"
  then Some (opt_a_box L)
  else if PyStr.contains "b)" answer_lower
          || PyStr.startswith answer_lower "b"
  then Some (opt_b_box L)
  else if PyStr.contains "c)" answer_lower
          || PyStr.startswith answer_lower "c"
  then Some (opt_c_box L)
  else if PyStr.contains "d)" answer_lower
          || PyStr.startswith answer_lower "d"
  then Some (opt_d_box L)
  else None.

(** [opt[2:] if opt.startswith(marker) else opt] *)
Definition option_text_of (marker opt_text : string) : string :=
  if PyStr.startswith opt_text marker
  then PyStr.slice_from 2 opt_text else opt_text.

(** ** Pictures of make_quiz_clip: background and blinking overlay *)

Definition text_color : Color := Rgb (255, 255, 255).
Definition box_outline_color : Color := Rgb (255, 255, 255).
Definition green_color : Color := Rgba (0, 255, 0, 200).
Definition label_margin : Z := 15.
Definition option_label_font : Font := 30.
Definition question_font_size : Z := 45.
Definition option_font_size : Z := 30.
Definition option_font : Font := option_font_size.

Definition blink_duration : Z := 3.
Definition fps : Z := 24.
Definition blink_frames : Z := blink_duration * fps.
Definition blink_period : Z := 8.

(** [range(n)] *)
Definition range (n : Z) : list Z := map Z.of_nat (seq 0 (Z.to_nat n)).

(** [int(x)] for a number: truncation towards zero. *)
Definition py_int (x : Q) : Z := Z.quot (Qnum x) (Zpos (Qden x)).

(** ** Python floats

    A Python [float], and the [numpy.float64] moviepy passes as a time, is
    an IEEE 754 binary64 number: 53 bits of precision, every operation
    rounded to the nearest number, ties to even. *)

Module F64.

Definition prec : Z := 53.
Definition emax : Z := 1024.

Definition float : Type := spec_float.

(** [float(z)] *)
Definition of_Z (z : Z) : float := binary_normalize prec emax z 0 false.

(** [x + y], [x * y], [x / y] (for [y] other than zero), [x <= y],
    [x == y] *)
Definition add : float -> float -> float := SFadd prec emax.
Definition mul : float -> float -> float := SFmul prec emax.
Definition div : float -> float -> float := SFdiv prec emax.
Definition leb : float -> float -> bool := SFleb.
Definition eqb : float -> float -> bool := SFeqb.

Definition is_finite (x : float) : bool :=
  match x with
  | S754_zero _ | S754_finite _ _ _ => true
  | S754_infinity _ | S754_nan => false
  end.

(** The number a finite float stands for: [(-1)^s * m * 2^e]. *)
Definition to_Q (x : float) : Q :=
  match x with
  | S754_finite s m e =>
      let n := if s then Zneg m else Zpos m in
      match e with
      | Z0 => inject_Z n
      | Zpos p => inject_Z (n * 2 ^ Zpos p)
      | Zneg p => n # (2 ^ p)
      end
  | _ => 0
  end.

(** [int(x)]: truncation towards zero; [None] stands for the error on nan
    (ValueError) and on an infinity (OverflowError). *)
Definition to_int (x : float) : option Z :=
  if is_finite x then Some (py_int (to_Q x)) else None.

End F64.

Section QuizClip.

Variable truetype_getbbox : Font -> string -> BBox.

Variable cfg : Config.
Variables question_text opt_a_text opt_b_text opt_c_text opt_d_text : string.

Let L : Layout := compute_layout cfg.

Definition label_width : Z := bbox_width truetype_getbbox option_label_font "X:".

(** [opt_x_text_region] for a box. *)
Definition text_region_of (box : Region) : Region :=
  (r_x1 box + label_width + 2 * label_margin, r_y1 box,
   r_x2 box - label_margin, r_y2 box).

Definition opt_a_text_region : Region := text_region_of (opt_a_box L).
Definition opt_b_text_region : Region := text_region_of (opt_b_box L).
Definition opt_c_text_region : Region := text_region_of (opt_c_box L).
Definition opt_d_text_region : Region := text_region_of (opt_d_box L).

Definition draw_box (box : Region) : DrawOp :=
  RoundedRectangle box (box_radius L) None (Some box_outline_color) 2.

Definition draw_label (box : Region) (label : string) : DrawOp :=
  DrawText (r_x1 box + label_margin, r_y1 box + (opt_height L - 30) / 2)
           label option_label_font text_color.

Definition question_font : Font :=
  adjust_font_size truetype_getbbox question_text question_font_size
    (r_x2 (q_box_region L) - r_x1 (q_box_region L) - 20)
    (r_y2 (q_box_region L) - r_y1 (q_box_region L) - 20).

Definition question_inner_region : Region :=
  (r_x1 (q_box_region L) + 15, r_y1 (q_box_region L) + 10,
   r_x2 (q_box_region L) - 15, r_y2 (q_box_region L) - 10).

(** Everything drawn on [bg_img], in program order. *)
Definition background_picture : Picture :=
  [ draw_box (q_box_region L);
    draw_box (opt_a_box L); draw_box (opt_b_box L);
    draw_box (opt_c_box L); draw_box (opt_d_box L);
    draw_label (opt_a_box L) "A:"; draw_label (opt_b_box L) "B:";
    draw_label (opt_c_box L) "C:"; draw_label (opt_d_box L) "D:" ]
  ++ draw_centered_wrapped_text truetype_getbbox question_inner_region
       question_text question_font text_color
  ++ draw_centered_wrapped_text truetype_getbbox opt_a_text_region
       (option_text_of "a)" opt_a_text) option_font text_color
  ++ draw_centered_wrapped_text truetype_getbbox opt_b_text_region
       (option_text_of "b)" opt_b_text) option_font text_color
  ++ draw_centered_wrapped_text truetype_getbbox opt_c_text_region
       (option_text_of "c)" opt_c_text) option_font text_color
  ++ draw_centered_wrapped_text truetype_getbbox opt_d_text_region
       (option_text_of "d)" opt_d_text) option_font text_color.

(** The chain [if answer_box == opt_a_box: ... elif ...] for the label. *)
Definition blink_label_text (answer_box : Region) : string :=
  if region_eqb answer_box (opt_a_box L) then "A:"
  else if region_eqb answer_box (opt_b_box L) then "B:"
  else if region_eqb answer_box (opt_c_box L) then "C:"
  else if region_eqb answer_box (opt_d_box L) then "D:"
  else "".

(** The same chain for [(option_text, text_region)]. *)
Definition blink_option_text (answer_box : Region) : string * Region :=
  if region_eqb answer_box (opt_a_box L)
  then (option_text_of "a)" opt_a_text, opt_a_text_region)
  else if region_eqb answer_box (opt_b_box L)
  then (option_text_of "b)" opt_b_text, opt_b_text_region)
  else if region_eqb answer_box (opt_c_box L)
  then (option_text_of "c)" opt_c_text, opt_c_text_region)
  else if region_eqb answer_box (opt_d_box L)
  then (option_text_of "d)" opt_d_text, opt_d_text_region)
  else ("", (0, 0, 0, 0))%string.

(** What an "on" iteration draws on the transparent [blink_img]. *)
Definition highlight_picture (box : Region) : Picture :=
  let label_x := r_x1 box + label_margin in
  let label_y := r_y1 box + (opt_height L - 30) / 2 in
  let '(option_text, text_region) := blink_option_text box in
  [ RoundedRectangle box (box_radius L)
      (Some green_color) (Some green_color) 3;
    DrawText (label_x, label_y) (blink_label_text box)
      option_label_font text_color ]
  ++ draw_centered_wrapped_text truetype_getbbox text_region option_text
       option_font text_color.

(** Body of [for frame_num in range(blink_frames)]: the picture appended to
    [blinking_frames]. The empty picture is the untouched transparent
    canvas. *)
Definition blink_frame (answer_box : option Region) (frame_num : Z)
    : Picture :=
  match answer_box with
  | Some box =>
      if frame_num mod blink_period <? blink_period / 2
      then highlight_picture box
      else []
  | None => []
  end.

Definition blinking_frames (answer_box : option Region) : list Picture :=
  map (blink_frame answer_box) (range blink_frames).

(** [make_blink_frame(t)] in exact arithmetic; [None] stands for an index
    out of range. *)
Definition make_blink_frame (answer_box : option Region) (t : Q)
    : option Picture :=
  let frames := blinking_frames answer_box in
  let frame_idx :=
    py_int (t * inject_Z fps) mod Z.of_nat (List.length frames) in
  nth_error frames (Z.to_nat frame_idx).

(** [make_blink_frame(t)] on the float moviepy passes: [t * fps] is the
    rounded product of [t] and [float(fps)], and [int] truncates it. [None]
    stands for the error of [int] on nan or an infinity. *)
Definition make_blink_frame_f64 (answer_box : option Region) (t : F64.float)
    : option Picture :=
  let frames := blinking_frames answer_box in
  match F64.to_int (F64.mul t (F64.of_Z fps)) with
  | Some n =>
      let frame_idx := n mod Z.of_nat (List.length frames) in
      nth_error frames (Z.to_nat frame_idx)
  | None => None
  end.

(** The overlay of a clip: [answer_box] resolved from [answer_text], then
    the frame list and its sampler. *)
Definition clip_blinking_frames (answer_text : string) : list Picture :=
  blinking_frames (find_answer_box L answer_text).

Definition clip_make_blink_frame (answer_text : string) (t : Q)
    : option Picture :=
  make_blink_frame (find_answer_box L answer_text) t.

End QuizClip.

(** ** Chroma key: remove_green *)

Definition HSV : Type := Z * Z * Z.

Section ChromaKey.

(** OpenCV's [COLOR_RGB2HSV] on one 8-bit pixel. *)
Variable rgb2hsv : RGB -> HSV.

Definition lower_green : HSV := (40, 40, 40).
Definition upper_green : HSV := (90, 255, 255).

(** [cv2.inRange] on one pixel: 255 inside the inclusive box, 0 outside. *)
Definition inRange (p lo hi : HSV) : Z :=
  let '(h, s, v) := p in
  let '(lh, ls, lv) := lo in
  let '(hh, hs, hv) := hi in
  if (lh <=? h) && (h <=? hh) && (ls <=? s) && (s <=? hs)
     && (lv <=? v) && (v <=? hv)
  then 255 else 0.

(** [.astype(np.uint8)] *)
Definition as_uint8 (z : Z) : Z := z mod 256.

(** An H x W array, row by row. *)
Definition Array2 (A : Type) : Type := list (list A).

Definition map2d {A B : Type} (f : A -> B) (a : Array2 A) : Array2 B :=
  map (map f) a.

(** [frame_rgba[:, :, 3] = alpha] *)
Definition set_alpha (frame_rgba : Array2 RGBA) (alpha : Array2 Z)
    : Array2 RGBA :=
  map (fun '(row, arow) =>
         map (fun '((r, g, b, _), a) => (r, g, b, a)) (combine row arow))
      (combine frame_rgba alpha).

Definition remove_green (frame : Array2 RGB) : Array2 RGBA :=
  let hsv := map2d rgb2hsv frame in
  let mask := map2d (fun p => inRange p lower_green upper_green) hsv in
  let alpha :=
    map2d (fun m => as_uint8 (if m =? 255 then 0 else 255)) mask in
  let frame_rgba := map2d (fun '(r, g, b) => (r, g, b, 255)) frame in
  set_alpha frame_rgba alpha.

End ChromaKey.

(** ** Clip concatenation: concatenate_videoclips *)

Inductive Exception : Type :=
| IndexError            (* list index out of range *)
| EmptyInputError       (* named by the design document; app.py never
                           raises it *)
| SystemExit (msg : string).

Inductive result (A : Type) : Type :=
| Ok (a : A)
| Raise (e : Exception).
Arguments Ok {A} a.
Arguments Raise {A} e.

(** A Python number as the loop of [concatenate_videoclips] meets it: the
    [int] 0 it starts from, and the duration of a clip, an [int] or a
    [float]. *)
Inductive PyNum : Type :=
| PyInt (z : Z)
| PyFloat (x : F64.float).

(** [float(n)], as [+] converts an [int] met with a [float] (an [int] too
    large for a float, which Python refuses, becomes an infinity). *)
Definition py_float (n : PyNum) : F64.float :=
  match n with
  | PyInt z => F64.of_Z z
  | PyFloat x => x
  end.

(** [a + b]: exact on two [int]s, the rounded float sum otherwise. *)
Definition py_add (a b : PyNum) : PyNum :=
  match a, b with
  | PyInt x, PyInt y => PyInt (x + y)
  | _, _ => PyFloat (F64.add (py_float a) (py_float b))
  end.

(** The numbers of the loop of [concatenate_videoclips], for clips of the
    given durations; the state is [(start, starts)], the second component
    listing the [start] given to each clip so far. *)
Definition concatenate_times_step (st : PyNum * list PyNum)
    (duration : PyNum) : PyNum * list PyNum :=
  let '(start, starts) := st in
  (py_add start duration, starts ++ [start]).

(** The [start] left by the loop, which becomes the duration of the
    timeline, and the starts of the clips. *)
Definition concatenate_times (durations : list PyNum)
    : PyNum * list PyNum :=
  fold_left concatenate_times_step durations (PyInt 0, []).

Section Clips.

Variable Frame : Type.

(** A moviepy clip: where it starts in its parent, how long it lasts, its
    size and its frame function on local time. *)
Record Clip : Type := mkClip {
  clip_start : Q;
  clip_duration : Q;
  clip_size : Z * Z;
  get_frame : Q -> Frame
}.

Definition with_start (c : Clip) (start : Q) : Clip :=
  mkClip start (clip_duration c) (clip_size c) (get_frame c).

(** [CompositeVideoClip(clips, size=...).with_duration(d)] *)
Record Composite : Type := mkComposite {
  layers : list Clip;
  comp_size : Z * Z;
  comp_duration : Q
}.

(** One iteration of the loop, in exact arithmetic; the state is
    [(start, new_clips)]. *)
Definition concatenate_step (st : Q * list Clip) (clip : Clip)
    : Q * list Clip :=
  let '(start, new_clips) := st in
  (start + clip_duration clip, new_clips ++ [with_start clip start])%Q.

Definition concatenate_videoclips (clips : list Clip) : result Composite :=
  let '(start, new_clips) := fold_left concatenate_step clips (0%Q, []) in
  match clips with
  | [] => Raise IndexError                       (* clips[0] *)
  | clip0 :: _ => Ok (mkComposite new_clips (clip_size clip0) start)
  end.

(** Modelled from the spec: moviepy's compositing is not part of app.py.
    "A layer is active at global time t iff start <= t < start+duration;
    active layers are sampled at local time t-start", in layer order. *)
Definition is_playing (c : Clip) (t : Q) : bool :=
  Qle_bool (clip_start c) t
  && negb (Qle_bool (clip_start c + clip_duration c) t).

(** Modelled from the spec: the layers sampled at global time [t], bottom to
    top, each with its index and its local time. *)
Fixpoint playing_from (k : nat) (ls : list Clip) (t : Q)
    : list (nat * Q) :=
  match ls with
  | [] => []
  | c :: rest =>
      if is_playing c t
      then (k, (t - clip_start c)%Q) :: playing_from (S k) rest t
      else playing_from (S k) rest t
  end.

Definition playing (comp : Composite) (t : Q) : list (nat * Q) :=
  playing_from 0 (layers comp) t.

(** Modelled from the spec: the frames handed to the blender at [t]. *)
Definition sampled_frames (comp : Composite) (t : Q) : list Frame :=
  flat_map (fun '(k, local) =>
              match nth_error (layers comp) k with
              | Some c => [get_frame c local]
              | None => []
              end) (playing comp t).

(** The end of the main block: [sys.exit] on no questions, otherwise one
    clip per question, concatenated. *)
Definition main_final_clip {Question : Type} (make_quiz_clip : Question -> Clip)
    (questions : list Question) : result Composite :=
  match questions with
  | [] => Raise (SystemExit "No valid questions were entered.")
  | _ => concatenate_videoclips (map make_quiz_clip questions)
  end.

End Clips.

Arguments mkClip {Frame} _ _ _ _.
Arguments clip_start {Frame} _.
Arguments clip_duration {Frame} _.
Arguments clip_size {Frame} _.
Arguments get_frame {Frame} _ _.
Arguments with_start {Frame} _ _.
Arguments mkComposite {Frame} _ _ _.
Arguments layers {Frame} _.
Arguments comp_size {Frame} _.
Arguments comp_duration {Frame} _.
Arguments concatenate_step {Frame} _ _.
Arguments concatenate_videoclips {Frame} _.
Arguments is_playing {Frame} _ _.
Arguments playing_from {Frame} _ _ _.
Arguments playing {Frame} _ _.
Arguments sampled_frames {Frame} _ _.
Arguments main_final_clip {Frame Question} _ _.

(** ** Python string primitives of the input functions *)

Module PyText.

Definition LF : ascii := "010"%char.
Definition CR : ascii := "013"%char.

(** ["\n"] *)
Definition newline : string := String LF EmptyString.

(** A line boundary of [str.splitlines] below 256: LF, VT, FF, CR, FS, GS,
    RS and NEL (0x85). *)
Definition is_linebreak (c : ascii) : bool :=
  let n := Z.of_nat (nat_of_ascii c) in
  ((10 <=? n) && (n <=? 13)) || ((28 <=? n) && (n <=? 30)) || (n =? 133).

(** [s.splitlines()]: the text is cut at every line boundary, CR LF counting
    as one; a boundary at the very end opens no further line. [cur] is the
    line being read. *)
Fixpoint splitlines_from (cur s : string) {struct s} : list string :=
  match s with
  | EmptyString => if PyStr.truthy cur then [cur] else []
  | String c s' =>
      if is_linebreak c
      then cur ::
           match s' with
           | String c2 s'' =>
               if Ascii.eqb c CR && Ascii.eqb c2 LF
               then splitlines_from EmptyString s''
               else splitlines_from EmptyString s'
           | EmptyString => splitlines_from EmptyString s'
           end
      else splitlines_from (cur ++ String c EmptyString) s'
  end.

Definition splitlines (s : string) : list string :=
  splitlines_from EmptyString s.

(** [str.upper] on one code point below 256, as code points: a..z and the
    Latin-1 small letters 0xE0..0xFE (without the division sign 0xF7) move
    down by 32; the micro sign becomes U+039C, the sharp s becomes "SS" and
    y with diaeresis becomes U+0178. *)
Definition upper_char (c : ascii) : list Z :=
  let n := Z.of_nat (nat_of_ascii c) in
  if ((97 <=? n) && (n <=? 122))
     || ((224 <=? n) && (n <=? 254) && negb (n =? 247))
  then [n - 32]
  else if n =? 181 then [924]
  else if n =? 223 then [83; 83]
  else if n =? 255 then [376]
  else [n].

Definition upper (s : string) : list Z :=
  flat_map upper_char (PyStr.chars s).

(** The code points of a string. *)
Definition codes (s : string) : list Z :=
  map (fun c => Z.of_nat (nat_of_ascii c)) (PyStr.chars s).

Fixpoint codes_eqb (a b : list Z) : bool :=
  match a, b with
  | [], [] => true
  | x :: a', y :: b' => (x =? y) && codes_eqb a' b'
  | _, _ => false
  end.

End PyText.

(** ** Quiz input: get_quiz_input, parse_quiz_text *)

(** [line.strip().upper() == "DONE"] *)
Definition is_done (line : string) : bool :=
  PyText.codes_eqb (PyText.upper (PyStr.strip line)) (PyText.codes "DONE").

(** The [while True] loop of [get_quiz_input] on the lines still to be read
    from standard input; [None] is the EOFError of [input()] at the end of
    the input. The result carries the lines left unread. *)
Fixpoint read_quiz_lines (stdin : list string) (lines : list string)
    : option (list string * list string) :=
  match stdin with
  | [] => None
  | line :: rest =>
      if is_done line then Some (lines, rest)
      else read_quiz_lines rest (lines ++ [line])
  end.

Definition get_quiz_input (stdin : list string)
    : option (string * list string) :=
  match read_quiz_lines stdin [] with
  | Some (lines, rest) => Some (PyStr.join PyText.newline lines, rest)
  | None => None
  end.

(** The dictionary appended to [questions]; its keys are fixed. *)
Record Question : Type := mkQuestion {
  question : string;
  opt_a : string;
  opt_b : string;
  opt_c : string;
  opt_d : string;
  answer : string
}.

(** [bool(l)] for a list: non-empty. *)
Definition list_truthy {A : Type} (l : list A) : bool :=
  match l with [] => false | _ :: _ => true end.

(** First loop of [parse_quiz_text]; the state is
    [(blocks, current_block)]. *)
Definition block_step (st : list (list string) * list string)
    (raw_line : string) : list (list string) * list string :=
  let '(blocks, current_block) := st in
  let line := PyStr.strip raw_line in
  if (line =? "")%string
  then (if list_truthy current_block
        then (blocks ++ [current_block], [])
        else (blocks, current_block))
  else (blocks, current_block ++ [line]).

(** The list [blocks] after the first loop and the final append. *)
Definition quiz_blocks_of (lines : list string) : list (list string) :=
  let '(blocks, current_block) := fold_left block_step lines ([], []) in
  if list_truthy current_block then blocks ++ [current_block] else blocks.

Definition quiz_blocks (text : string) : list (list string) :=
  quiz_blocks_of (PyText.splitlines text).

(** The answer taken from [block[5]]. *)
Definition answer_of (answer_line : string) : string :=
  if PyStr.startswith (PyStr.lower answer_line) "answer:"
  then PyStr.strip (PyStr.slice_from 7 answer_line)
  else PyStr.strip answer_line.

(** Second loop of [parse_quiz_text]: a block shorter than six lines is
    skipped, lines after the sixth are not read. *)
Definition questions_step (questions : list Question) (block : list string)
    : list Question :=
  if Z.of_nat (List.length block) <? 6 then questions
  else match block with
       | q :: a :: b :: c :: d :: answer_line :: _ =>
           questions ++ [mkQuestion q a b c d (answer_of answer_line)]
       | _ => questions
       end.

Definition parse_quiz_text (text : string) : list Question :=
  fold_left questions_step (quiz_blocks text) [].

(** ** FadeIn *)

(** One pixel of a frame with real-valued channels. *)
Definition QRGB : Type := Q * Q * Q.

(** [self.initial_color] after the first lines of [apply], for a clip that
    is not a mask. *)
Definition FadeIn_initial_color (initial_color : option QRGB) : QRGB :=
  match initial_color with
  | None => (0, 0, 0)%Q
  | Some c => c
  end.

(** [fading * get_frame(t) + (1 - fading) * self.initial_color] on one
    pixel. *)
Definition fade_pixel (fading : Q) (initial_color p : QRGB) : QRGB :=
  let '(r, g, b) := p in
  let '(ir, ig, ib) := initial_color in
  (fading * r + (1 - fading) * ir,
   fading * g + (1 - fading) * ig,
   fading * b + (1 - fading) * ib)%Q.

(** [filter(get_frame, t)] of [FadeIn.apply], in exact arithmetic; [None]
    is the division of [t / self.duration] by zero, which gives no frame of
    numbers (a ZeroDivisionError for a Python float, nan or an infinity in
    every channel for a [numpy.float64]). *)
Definition FadeIn_filter (duration : Q) (initial_color : QRGB)
    (get_frame : Q -> Array2 QRGB) (t : Q) : option (Array2 QRGB) :=
  if Qle_bool duration t then Some (get_frame t)
  else if Qeq_bool duration 0 then None
  else let fading := (t / duration)%Q in
       Some (map2d (fade_pixel fading initial_color) (get_frame t)).

(** ** The clip of one question and the final video *)

(** What a layer of the clip of a question hands to the blender. *)
Inductive QuizLayer : Type :=
| BaseLayer (frame : option (Array2 QRGB))
| TimerLayer (frame : Array2 RGBA)
| BlinkLayer (frame : option Picture).

Section MakeQuizClip.

Variable truetype_getbbox : Font -> string -> BBox.
Variable rgb2hsv : RGB -> HSV.

(** [np.array(bg_img)] for a picture drawn on the blue canvas (Pillow). *)
Variable rasterize : Picture -> Array2 QRGB.

(** [original_timer_clip.get_frame] and its size (moviepy). *)
Variable timer_get_frame : Q -> Array2 RGB.
Variable timer_size : Z * Z.

(** [resized((timer_width, timer_height))] on one frame (moviepy). *)
Variable resized : Array2 RGBA -> Array2 RGBA.

Variable cfg : Config.

Definition quiz_size : Z * Z := (video_width cfg, video_height cfg).

(** [base_clip]: the background image for 13 seconds, faded in over the
    first second. *)
Definition base_clip (q : Question) : Clip QuizLayer :=
  let base_img_np :=
    rasterize (background_picture truetype_getbbox cfg (question q)
                 (opt_a q) (opt_b q) (opt_c q) (opt_d q)) in
  mkClip 0 13 quiz_size
    (fun t => BaseLayer
                (FadeIn_filter 1 (FadeIn_initial_color None)
                   (fun _ => base_img_np) t)).

(** [timer_clip]: the keyed frames of the timer video for 11.56 seconds. *)
Definition timer_clip : Clip QuizLayer :=
  mkClip 0 (1156 # 100) timer_size
    (fun t => TimerLayer (resized (remove_green rgb2hsv (timer_get_frame t)))).

(** [blink_clip]: 3 seconds of the blinking overlay, started at second 10. *)
Definition blink_clip (q : Question) : Clip QuizLayer :=
  with_start
    (mkClip 0 (inject_Z blink_duration) quiz_size
       (fun t => BlinkLayer
                   (clip_make_blink_frame truetype_getbbox cfg
                      (opt_a q) (opt_b q) (opt_c q) (opt_d q) (answer q) t)))
    10.

(** [final_clip] of [make_quiz_clip], called on the fields of a question as
    the main block does. *)
Definition make_quiz_clip (q : Question) : Composite QuizLayer :=
  mkComposite [base_clip q; timer_clip; blink_clip q] quiz_size 13.

(** A composite used as a clip: it starts at 0 and its frame is what its
    playing layers give. *)
Definition composite_clip (comp : Composite QuizLayer)
    : Clip (list QuizLayer) :=
  mkClip 0 (comp_duration comp) (comp_size comp) (sampled_frames comp).

(** The clips of the main block and their concatenation. *)
Definition main_video (questions : list Question)
    : result (Composite (list QuizLayer)) :=
  main_final_clip (fun q => composite_clip (make_quiz_clip q)) questions.

End MakeQuizClip.

(** ** Vocabulary of the properties *)

(** The whitespace-normalized text: [" ".join(text.split())]. *)
Definition normalized_text (text : string) : string :=
  PyStr.join " " (PyStr.split text).

(** The text without its whitespace characters. *)
Fixpoint without_whitespace (s : string) : string :=
  match s with
  | EmptyString => EmptyString
  | String c s' =>
      if PyStr.isspace c then without_whitespace s'
      else String c (without_whitespace s')
  end.

Fixpoint has_whitespace (s : string) : bool :=
  match s with
  | EmptyString => false
  | String c s' => PyStr.isspace c || has_whitespace s'
  end.

(** The strings a picture writes, in drawing order. *)
Definition drawn_texts (p : Picture) : list string :=
  flat_map (fun op => match op with
                      | DrawText _ t _ _ => [t]
                      | RoundedRectangle _ _ _ _ _ => []
                      end) p.

(** A monospaced measure for concrete instances: every character is half
    the font size wide and a line is as tall as the font size. *)
Definition mono_getbbox (size : Font) (s : string) : BBox :=
  (0, 0, size * Z.of_nat (String.length s) / 2, size).

(** A box lies inside the canvas: its corners are pixel positions of the
    [video_width] x [video_height] image and it is not degenerate. *)
Definition inside_canvas (cfg : Config) (r : Region) : Prop :=
  0 <= r_x1 r /\ r_x1 r < r_x2 r /\ r_x2 r < video_width cfg
  /\ 0 <= r_y1 r /\ r_y1 r < r_y2 r /\ r_y2 r < video_height cfg.

(** Two boxes share no pixel, edges included. *)
Definition disjoint (a b : Region) : Prop :=
  r_x2 a < r_x1 b \/ r_x2 b < r_x1 a \/ r_y2 a < r_y1 b \/ r_y2 b < r_y1 a.

Fixpoint pairwise_disjoint (l : list Region) : Prop :=
  match l with
  | [] => True
  | r :: rest => Forall (disjoint r) rest /\ pairwise_disjoint rest
  end.

(** The boxes of a layout: question, then options A to D. *)
Definition layout_boxes (L : Layout) : list Region :=
  [q_box_region L; opt_a_box L; opt_b_box L; opt_c_box L; opt_d_box L].

(** Bottom edge of the timer: its top padding plus its height. *)
Definition timer_bottom : Z := timer_top_padding + timer_height.

(** Every top edge is the bottom edge of the box above plus a gap. In the
    grid the box above B is the question box, above C it is A, above D it is
    B; in the stack each option sits under the previous one. *)
Definition additive_offsets (cfg : Config) (L : Layout) : Prop :=
  r_y1 (q_box_region L) = timer_bottom + 20
  /\ r_y1 (opt_a_box L) = r_y2 (q_box_region L) + 30
  /\ (if vertical_layout cfg
      then r_y1 (opt_b_box L) = r_y2 (opt_a_box L) + 25
           /\ r_y1 (opt_c_box L) = r_y2 (opt_b_box L) + 25
           /\ r_y1 (opt_d_box L) = r_y2 (opt_c_box L) + 25
      else r_y1 (opt_b_box L) = r_y2 (q_box_region L) + 30
           /\ r_y1 (opt_c_box L) = r_y2 (opt_a_box L) + 30
           /\ r_y1 (opt_d_box L) = r_y2 (opt_b_box L) + 30)
  /\ r_y2 (q_box_region L)
     = r_y1 (q_box_region L) + (if vertical_layout cfg then 150 else 120)
  /\ Forall (fun box => r_y2 box = r_y1 box + opt_height L)
            [opt_a_box L; opt_b_box L; opt_c_box L; opt_d_box L].

(** The four option slots, with the box, marker, label and text of each. *)
Inductive Slot : Type := SlotA | SlotB | SlotC | SlotD.

Definition slot_box (L : Layout) (k : Slot) : Region :=
  match k with
  | SlotA => opt_a_box L | SlotB => opt_b_box L
  | SlotC => opt_c_box L | SlotD => opt_d_box L
  end.

Definition slot_letter (k : Slot) : ascii :=
  match k with
  | SlotA => "a" | SlotB => "b" | SlotC => "c" | SlotD => "d"
  end%char.

Definition slot_marker (k : Slot) : string :=
  String (slot_letter k) ")".

Definition slot_label (k : Slot) : string :=
  match k with
  | SlotA => "A:" | SlotB => "B:" | SlotC => "C:" | SlotD => "D:"
  end.

Definition slot_text (a b c d : string) (k : Slot) : string :=
  match k with SlotA => a | SlotB => b | SlotC => c | SlotD => d end.

(** The test of one branch of the answer chain, as a proposition: the
    marker occurs somewhere in the text, or the text begins with the
    letter. *)
Definition marker_hit (letter : ascii) (answer_lower : string) : Prop :=
  (exists pre post : string,
     answer_lower = (pre ++ String letter ")" ++ post)%string)
  \/ (exists rest : string, answer_lower = String letter rest).

(** The rendered option text as the design states it: the first two
    characters are removed exactly when they are the marker. *)
Definition marker_removed (marker opt_text : string) : string :=
  match opt_text with
  | String c1 (String c2 rest) =>
      if (String c1 (String c2 EmptyString) =? marker)%string
      then rest else opt_text
  | _ => opt_text
  end.

(** Nothing was drawn on the (0, 0, 0, 0) canvas. *)
Definition fully_transparent (p : Picture) : Prop := p = [].

(** The numbers of "on" and "off" frames of one blink period. *)
Definition on_frames : Z := blink_period / 2.
Definition off_frames : Z := blink_period - on_frames.

(** The configured ranges: hue 40..90, saturation 40..255, value 40..255. *)
Definition in_green_range (p : HSV) : Prop :=
  let '(h, s, v) := p in
  40 <= h <= 90 /\ 40 <= s <= 255 /\ 40 <= v <= 255.

(** The keyed pixel as the design states it: the colour channels of the
    input, and alpha 0 inside the ranges, 255 outside. *)
Definition key_pixel (rgb2hsv : RGB -> HSV) (p : RGB) : RGBA :=
  let '(r, g, b) := p in
  let '(h, s, v) := rgb2hsv p in
  (r, g, b,
   if (40 <=? h) && (h <=? 90) && (40 <=? s) && (s <=? 255)
      && (40 <=? v) && (v <=? 255)
   then 0 else 255).

(** The pixel of row [i], column [j]. *)
Definition pixel_at {A : Type} (a : list (list A)) (i j : nat) : option A :=
  match nth_error a i with
  | Some row => nth_error row j
  | None => None
  end.

(** Sum of the durations of a list of clips. *)
Fixpoint sum_durations {Frame : Type} (clips : list (Clip Frame)) : Q :=
  match clips with
  | [] => 0
  | c :: rest => clip_duration c + sum_durations rest
  end.

(** The value of the loop variable [start] after the clips, from [start]. *)
Fixpoint end_time {Frame : Type} (start : Q) (clips : list (Clip Frame))
    : Q :=
  match clips with
  | [] => start
  | c :: rest => end_time (start + clip_duration c) rest
  end.

(** The clips placed one after the other, from [start]. *)
Fixpoint laid_out {Frame : Type} (start : Q) (clips : list (Clip Frame))
    : list (Clip Frame) :=
  match clips with
  | [] => []
  | c :: rest => with_start c start :: laid_out (start + clip_duration c) rest
  end.

(** A clip of a given duration whose frame at local time [t] is [t]. *)
Definition probe_clip (duration : Q) : Clip Q :=
  mkClip 0 duration (1280, 720) (fun t => t).

(** The number a Python number stands for (a float being finite). *)
Definition py_value (n : PyNum) : Q :=
  match n with
  | PyInt z => inject_Z z
  | PyFloat x => F64.to_Q x
  end.

(** The sum the loop forms: from [start], left to right, every addition in
    Python's arithmetic. *)
Definition py_sum_from (start : PyNum) (durations : list PyNum) : PyNum :=
  fold_left py_add durations start.

Definition py_sum (durations : list PyNum) : PyNum :=
  py_sum_from (PyInt 0) durations.

(** The starts the loop hands out, from [start]. *)
Fixpoint py_starts (start : PyNum) (durations : list PyNum) : list PyNum :=
  match durations with
  | [] => []
  | d :: rest => start :: py_starts (py_add start d) rest
  end.

(** The durations of the clips are whole numbers of seconds, Python [int]s:
    the listed ones. *)
Definition whole_seconds {Frame : Type} (clips : list (Clip Frame))
    (seconds : list Z) : Prop :=
  Forall2 (fun c z => (clip_duration c == inject_Z z)%Q) clips seconds.

(** The floats written [0.1], [0.16666666666666666] (the float nearest to
    1/6) and [1.0] in Python. *)
Definition f64_tenth : F64.float := S754_finite false 7205759403792794 (-56).
Definition f64_sixth : F64.float := S754_finite false 6004799503160661 (-55).
Definition f64_one : F64.float := S754_finite false 4503599627370496 (-52).

(** Pillow's [ImageDraw.textbbox(xy, text, font)] for the anchor that
    [draw.text(xy, text, font=font)] uses when none is given: the box the
    drawn text covers is [font.getbbox(text)] moved by [xy]. *)
Definition textbbox (getbbox : Font -> string -> BBox) (xy : Z * Z)
    (text : string) (font : Font) : BBox :=
  let '(x, y) := xy in
  let b := getbbox font text in
  (x + r_x1 b, y + r_y1 b, x + r_x2 b, y + r_y2 b).

(** A segment is acceptable when it is not empty and either fits the width
    or is one character long. *)
Definition segment_ok (getbbox : Font -> string -> BBox) (font : Font)
    (max_width : Z) (seg : string) : Prop :=
  seg <> EmptyString
  /\ (bbox_width getbbox font seg <= max_width \/ String.length seg = 1%nat).

(** What a loop with state [(done, pending)] has emitted once the pending
    string is appended, as both wrapping loops do after their last
    iteration. *)
Definition flush (st : list string * string) : list string :=
  if PyStr.truthy (snd st) then fst st ++ [snd st] else fst st.

(** Consecutive segments are greedy: a segment followed by another could
    not take the first character of the next one without exceeding the
    width. *)
Fixpoint greedy_segments (getbbox : Font -> string -> BBox) (font : Font)
    (max_width : Z) (segs : list string) : Prop :=
  match segs with
  | s1 :: ((s2 :: _) as rest) =>
      (exists (c : ascii) (tail : string),
         s2 = String c tail
         /\ bbox_width getbbox font (s1 ++ String c EmptyString)%string
            > max_width)
      /\ greedy_segments getbbox font max_width rest
  | _ => True
  end.

(** A drawn line, unless it is a single character, is not wider than the
    region, and the box it covers stays between the left and right edges of
    the region exactly when its left bearing ([font.getbbox(line)[0]]) is
    not larger than the free width on either side. *)
Definition line_inside (getbbox : Font -> string -> BBox) (x1 x2 : Z)
    (op : DrawOp) : Prop :=
  match op with
  | DrawText (x, y) line font _ =>
      let free := (x2 - x1) - bbox_width getbbox font line in
      let bearing := r_x1 (getbbox font line) in
      let box := textbbox getbbox (x, y) line font in
      String.length line = 1%nat
      \/ (0 <= free
          /\ ((x1 <= r_x1 box /\ r_x2 box <= x2)
              <-> - (free / 2) <= bearing <= free - free / 2))
  | RoundedRectangle _ _ _ _ _ => False
  end.

(** Region [inner] lies within region [outer]. *)
Definition region_within (inner outer : Region) : Prop :=
  r_x1 outer <= r_x1 inner /\ r_x2 inner <= r_x2 outer
  /\ r_y1 outer <= r_y1 inner /\ r_y2 inner <= r_y2 outer.

Fixpoint has_linebreak (s : string) : bool :=
  match s with
  | EmptyString => false
  | String c s' => PyText.is_linebreak c || has_linebreak s'
  end.

(** A line as the parser stores it: not empty, without leading or trailing
    whitespace, without a line boundary inside. *)
Definition clean_line (s : string) : Prop :=
  s <> EmptyString /\ PyStr.strip s = s /\ has_linebreak s = false.

(** The six lines of a question in the input format of the docstring, and
    the text they make. *)
Definition question_lines (q : Question) : list string :=
  [question q; opt_a q; opt_b q; opt_c q; opt_d q;
   ("Answer: " ++ answer q)%string].

Definition format_question (q : Question) : string :=
  PyStr.join PyText.newline (question_lines q).

(** An empty line between two texts. *)
Definition empty_line : string := (PyText.newline ++ PyText.newline)%string.

Definition clean_question (q : Question) : Prop :=
  Forall clean_line
    [question q; opt_a q; opt_b q; opt_c q; opt_d q; answer q].

(** The question of the docstring of app.py. *)
Definition france_question : Question :=
  mkQuestion "1. What is the capital of France?"
    "a) Paris" "b) Berlin" "c) London" "d) Madrid" "d) Madrid".

(** What the parser guarantees about a question it returns. *)
Definition parsed_question_ok (q : Question) : Prop :=
  Forall clean_line [question q; opt_a q; opt_b q; opt_c q; opt_d q]
  /\ PyStr.strip (answer q) = answer q
  /\ has_linebreak (answer q) = false.

(** The lines typed for a list of questions: the six lines of each,
    followed by an empty line. *)
Definition typed_lines (qs : list Question) : list string :=
  flat_map (fun q => question_lines q ++ [EmptyString]) qs.

(** Two pixels with equal channels. *)
Definition qrgb_eq (a b : QRGB) : Prop :=
  let '(ar, ag, ab) := a in
  let '(br, bg, bb) := b in
  (ar == br /\ ag == bg /\ ab == bb)%Q.

(* ================================================================== *)
(** * Part II: properties *)
(* ================================================================== *)

(** ** Strings *)

Local Open Scope string_scope.
Local Open Scope Z_scope.

Lemma str_app_nil_r (s : string) : s ++ "" = s.
Proof. induction s as [|c s IH]; simpl; [reflexivity | now rewrite IH]. Qed.

Lemma str_app_assoc (a b c : string) : (a ++ b) ++ c = a ++ (b ++ c).
Proof. induction a as [|x a IH]; simpl; [reflexivity | now rewrite IH]. Qed.

Lemma truthy_false (s : string) : PyStr.truthy s = false <-> s = "".
Proof. destruct s; simpl; split; intro H; congruence. Qed.

Lemma truthy_true (s : string) : PyStr.truthy s = true <-> s <> "".
Proof. destruct s; simpl; split; intro H; congruence. Qed.

Lemma truthy_app_r (a b : string) :
  PyStr.truthy b = true -> PyStr.truthy (a ++ b) = true.
Proof. destruct a; simpl; auto. Qed.

Lemma join_snoc_nil (sep w : string) : PyStr.join sep ([] ++ [w]) = w.
Proof. reflexivity. Qed.

Lemma join_snoc (sep w : string) (l : list string) :
  l <> [] -> PyStr.join sep (l ++ [w]) = PyStr.join sep l ++ sep ++ w.
Proof.
  induction l as [|x l IH]; [congruence|]. intros _.
  destruct l as [|y l]; [reflexivity|].
  change (PyStr.join sep ((x :: y :: l) ++ [w]))
    with (x ++ sep ++ PyStr.join sep ((y :: l) ++ [w])).
  rewrite IH by discriminate.
  change (PyStr.join sep (x :: y :: l))
    with (x ++ sep ++ PyStr.join sep (y :: l)).
  now rewrite !str_app_assoc.
Qed.

Lemma join_snoc_glue (sep a b : string) (l : list string) :
  PyStr.join sep (l ++ [a ++ sep ++ b])
  = PyStr.join sep (l ++ [a]) ++ sep ++ b.
Proof.
  destruct l as [|x l]; [reflexivity|].
  rewrite !join_snoc by discriminate. now rewrite !str_app_assoc.
Qed.

Lemma join_empty_snoc (w : string) (l : list string) :
  PyStr.join "" (l ++ [w]) = PyStr.join "" l ++ w.
Proof.
  destruct l as [|x l]; [reflexivity|].
  now rewrite join_snoc by discriminate.
Qed.

Lemma join_empty_app (l1 l2 : list string) :
  PyStr.join "" (l1 ++ l2) = PyStr.join "" l1 ++ PyStr.join "" l2.
Proof.
  induction l2 as [|x l2 IH] using rev_ind.
  - now rewrite app_nil_r, str_app_nil_r.
  - now rewrite app_assoc, !join_empty_snoc, IH, str_app_assoc.
Qed.

(** Words returned by [split] are never empty. *)
Lemma split_from_truthy (s cur : string) :
  Forall (fun w => PyStr.truthy w = true) (PyStr.split_from cur s).
Proof.
  revert cur. induction s as [|c s IH]; intro cur; simpl.
  - destruct (PyStr.truthy cur) eqn:E; auto.
  - destruct (PyStr.isspace c); [|apply IH].
    destruct (PyStr.truthy cur) eqn:E; auto.
Qed.

Lemma split_truthy (s : string) :
  Forall (fun w => PyStr.truthy w = true) (PyStr.split s).
Proof. apply split_from_truthy. Qed.

Lemma without_whitespace_clean (s : string) :
  has_whitespace s = false -> without_whitespace s = s.
Proof.
  induction s as [|c s IH]; simpl; [reflexivity|].
  destruct (PyStr.isspace c); simpl; [discriminate|].
  intro H. now rewrite IH.
Qed.

Lemma has_whitespace_snoc (s : string) (c : ascii) :
  has_whitespace (s ++ String c "") = has_whitespace s || PyStr.isspace c.
Proof.
  induction s as [|x s IH]; simpl.
  - now rewrite orb_false_r.
  - now rewrite IH, orb_assoc.
Qed.

(** Words returned by [split] contain no whitespace. *)
Lemma split_from_clean (s cur : string) :
  has_whitespace cur = false ->
  Forall (fun w => has_whitespace w = false) (PyStr.split_from cur s).
Proof.
  revert cur. induction s as [|c s IH]; intros cur Hc; simpl.
  - destruct (PyStr.truthy cur); auto.
  - destruct (PyStr.isspace c) eqn:Ec.
    + destruct (PyStr.truthy cur); auto.
    + apply IH. now rewrite has_whitespace_snoc, Hc, Ec.
Qed.

(** The words of [split], written one after the other, are the text without
    its whitespace: [split] keeps every other character, in order. *)
Lemma split_from_chars (s cur : string) :
  has_whitespace cur = false ->
  PyStr.join "" (PyStr.split_from cur s) = cur ++ without_whitespace s.
Proof.
  revert cur. induction s as [|c s IH]; intros cur Hc; simpl.
  - destruct (PyStr.truthy cur) eqn:E; simpl.
    + now rewrite str_app_nil_r.
    + apply truthy_false in E. now subst.
  - destruct (PyStr.isspace c) eqn:Ec.
    + destruct (PyStr.truthy cur) eqn:E.
      * change (cur :: PyStr.split_from "" s)
          with ([cur] ++ PyStr.split_from "" s)%list.
        rewrite join_empty_app, IH by reflexivity. reflexivity.
      * apply truthy_false in E. subst. now rewrite IH.
    + rewrite IH by (now rewrite has_whitespace_snoc, Hc, Ec).
      now rewrite str_app_assoc.
Qed.

Lemma split_chars (s : string) :
  PyStr.join "" (PyStr.split s) = without_whitespace s.
Proof. apply (split_from_chars s ""). reflexivity. Qed.

Example split_example :
  PyStr.split "  hello   world foo " = ["hello"; "world"; "foo"].
Proof. reflexivity. Qed.

Example strip_lower_example :
  PyStr.strip (PyStr.lower "  D) Madrid ") = "d) madrid".
Proof. reflexivity. Qed.

(** ** Text fitter *)

Section TextFitterFacts.

Variable getbbox : Font -> string -> BBox.
Variable font : Font.
Variable max_width : Z.

Local Abbreviation width := (bbox_width getbbox font).

Local Abbreviation segment_ok := (segment_ok getbbox font max_width).

Lemma break_word_flush (word : string) :
  break_word getbbox word font max_width =
  flush (fold_left (break_word_step getbbox font max_width)
                   (PyStr.chars word) ([], "")).
Proof.
  unfold break_word, flush.
  destruct (fold_left _ _ _) as [segs cur]. reflexivity.
Qed.

Lemma join_flush (st : list string * string) :
  PyStr.join "" (flush st) = PyStr.join "" (fst st) ++ snd st.
Proof.
  unfold flush. destruct st as [segs cur]; simpl.
  destruct (PyStr.truthy cur) eqn:E.
  - apply join_empty_snoc.
  - apply truthy_false in E. subst. now rewrite str_app_nil_r.
Qed.

(** Loop invariant of [break_word], one character at a time: nothing is
    lost, and every segment closed so far is acceptable. *)
Lemma break_word_step_inv (st : list string * string) (c : ascii) :
  let st' := break_word_step getbbox font max_width st c in
  PyStr.join "" (fst st') ++ snd st'
    = (PyStr.join "" (fst st) ++ snd st) ++ String c ""
  /\ (Forall segment_ok (fst st) ->
      snd st = "" \/ segment_ok (snd st) ->
      Forall segment_ok (fst st') /\ segment_ok (snd st')).
Proof.
  destruct st as [segs cur]. unfold break_word_step.
  destruct (width (cur ++ String c "") <=? max_width) eqn:Efit; simpl.
  - split; [now rewrite str_app_assoc|].
    intros Hs _. split; [exact Hs|]. split.
    + destruct cur; discriminate.
    + left. now apply Z.leb_le.
  - split.
    + destruct (PyStr.truthy cur) eqn:E.
      * now rewrite join_empty_snoc.
      * apply truthy_false in E. subst. now rewrite str_app_nil_r.
    + intros Hs Hc. split.
      * destruct (PyStr.truthy cur) eqn:E; [|exact Hs].
        apply Forall_app. split; [exact Hs|]. constructor; [|constructor].
        destruct Hc as [Hc|Hc]; [|exact Hc].
        subst. discriminate.
      * split; [discriminate | now right].
Qed.

Lemma break_word_fold_inv (cs : list ascii) (st : list string * string) :
  let st' := fold_left (break_word_step getbbox font max_width) cs st in
  PyStr.join "" (fst st') ++ snd st'
    = (PyStr.join "" (fst st) ++ snd st) ++ string_of_list_ascii cs
  /\ (Forall segment_ok (fst st) ->
      snd st = "" \/ segment_ok (snd st) ->
      Forall segment_ok (fst st') /\ (snd st' = "" \/ segment_ok (snd st'))).
Proof.
  revert st. induction cs as [|c cs IH]; intro st; simpl.
  - split; [now rewrite str_app_nil_r | auto].
  - destruct (break_word_step_inv st c) as [H1 H2].
    destruct (IH (break_word_step getbbox font max_width st c)) as [H3 H4].
    split.
    + rewrite H3, H1, str_app_assoc. reflexivity.
    + intros Hs Hc. destruct (H2 Hs Hc) as [Hs' Hc']. apply H4; auto.
Qed.

(** [break_word] loses nothing: its segments, written one after the other,
    are the word. *)
Lemma break_word_concat (word : string) :
  PyStr.join "" (break_word getbbox word font max_width) = word.
Proof.
  rewrite break_word_flush, join_flush.
  destruct (break_word_fold_inv (PyStr.chars word) ([], "")) as [H _].
  simpl in H. rewrite H. apply string_of_list_ascii_of_string.
Qed.

(** Every segment of [break_word] is acceptable. *)
Lemma break_word_segments (word : string) :
  Forall segment_ok (break_word getbbox word font max_width).
Proof.
  rewrite break_word_flush.
  destruct (break_word_fold_inv (PyStr.chars word) ([], "")) as [_ H].
  destruct H as [Hs Hc]; [constructor | now left |].
  unfold flush.
  destruct (PyStr.truthy (snd _)) eqn:E; [|exact Hs].
  apply Forall_app. split; [exact Hs|]. constructor; [|constructor].
  destruct Hc as [Hc|Hc]; [|exact Hc].
  rewrite Hc in E. discriminate.
Qed.

(** A one-character word is one segment, whatever its width. *)
Lemma break_word_single (c : ascii) :
  break_word getbbox (String c "") font max_width = [String c ""].
Proof.
  unfold break_word. simpl.
  destruct (width (String c "") <=? max_width); reflexivity.
Qed.

Lemma break_word_nonempty (word : string) :
  word <> "" -> break_word getbbox word font max_width <> [].
Proof.
  intros Hw E. pose proof (break_word_concat word) as H.
  rewrite E in H. simpl in H. congruence.
Qed.

(** The first loop of the wrapping routine concatenates the pieces of the
    words, in order. *)
Lemma wrap_words_fold (ws acc : list string) :
  fold_left (wrap_words_step getbbox font max_width) ws acc
  = (acc ++ flat_map (word_pieces getbbox font max_width) ws)%list.
Proof.
  revert acc. induction ws as [|w ws IH]; intro acc; simpl.
  - now rewrite app_nil_r.
  - rewrite IH. unfold wrap_words_step. now rewrite app_assoc.
Qed.

Lemma wrap_words_flat_map (text : string) :
  wrap_words getbbox text font max_width
  = flat_map (word_pieces getbbox font max_width) (PyStr.split text).
Proof. unfold wrap_words. now rewrite wrap_words_fold. Qed.

Lemma word_pieces_truthy (word : string) :
  PyStr.truthy word = true ->
  Forall (fun w => PyStr.truthy w = true)
         (word_pieces getbbox font max_width word).
Proof.
  intro Hw. unfold word_pieces.
  destruct (width word >? max_width).
  - eapply Forall_impl; [|apply break_word_segments].
    intros seg [Hne _]. now apply truthy_true.
  - constructor; [exact Hw | constructor].
Qed.

Lemma wrap_words_truthy (text : string) :
  Forall (fun w => PyStr.truthy w = true)
         (wrap_words getbbox text font max_width).
Proof.
  rewrite wrap_words_flat_map.
  pose proof (split_truthy text) as H.
  induction H as [|w ws Hw _ IH]; simpl; [constructor|].
  apply Forall_app. split; [now apply word_pieces_truthy | exact IH].
Qed.

Lemma wrap_lines_flush (words : list string) :
  wrap_lines_of getbbox words font max_width =
  flush (fold_left (wrap_lines_step getbbox font max_width) words ([], "")).
Proof.
  unfold wrap_lines_of, flush.
  destruct (fold_left _ _ _) as [lines cur]. reflexivity.
Qed.

Lemma flush_step_not_nil (st : list string * string) (w : string) :
  PyStr.truthy w = true ->
  flush (wrap_lines_step getbbox font max_width st w) <> [].
Proof.
  intro Hw. destruct st as [lines cur]. unfold wrap_lines_step, flush.
  destruct (_ <=? max_width); simpl.
  - rewrite truthy_app_r by (now apply truthy_app_r).
    intro H. now apply app_eq_nil in H.
  - rewrite Hw. intro H. now apply app_eq_nil in H.
Qed.

(** One step of the second loop: the lines emitted so far, joined by single
    spaces, gain exactly the new word. [X] is any list of words with the
    same joined text as the lines before the step. *)
Lemma wrap_lines_step_inv (st : list string * string) (X : list string)
    (w : string) :
  PyStr.truthy w = true ->
  PyStr.join " " (flush st) = PyStr.join " " X ->
  (flush st = [] <-> X = []) ->
  PyStr.join " " (flush (wrap_lines_step getbbox font max_width st w))
  = PyStr.join " " (X ++ [w]).
Proof.
  intros Hw HJ Hnil. destruct st as [lines cur].
  destruct X as [|x X'].
  - (* nothing emitted yet: the word starts the first line *)
    destruct Hnil as [_ Hnil]. specialize (Hnil eq_refl).
    unfold flush in Hnil. simpl in Hnil.
    destruct (PyStr.truthy cur) eqn:Ec.
    + now apply app_eq_nil in Hnil.
    + apply truthy_false in Ec. subst lines cur.
      unfold wrap_lines_step, flush. simpl.
      destruct (_ <=? max_width); simpl; now rewrite Hw.
  - assert (HF : flush (lines, cur) <> []).
    { intro H. apply Hnil in H. discriminate. }
    rewrite (join_snoc " " w (x :: X')) by discriminate.
    rewrite <- HJ.
    unfold wrap_lines_step, flush in *. simpl in *.
    destruct (_ <=? max_width); simpl.
    + rewrite truthy_app_r by (now apply truthy_app_r).
      destruct (PyStr.truthy cur) eqn:Ec.
      * apply join_snoc_glue.
      * apply truthy_false in Ec. subst cur. simpl.
        now apply join_snoc.
    + rewrite Hw. now apply join_snoc.
Qed.

Lemma wrap_lines_fold_inv (ws : list string) :
  Forall (fun w => PyStr.truthy w = true) ws ->
  forall (st : list string * string) (X : list string),
  PyStr.join " " (flush st) = PyStr.join " " X ->
  (flush st = [] <-> X = []) ->
  PyStr.join " "
    (flush (fold_left (wrap_lines_step getbbox font max_width) ws st))
  = PyStr.join " " (X ++ ws).
Proof.
  induction 1 as [|w ws Hw _ IH]; intros st X HJ Hnil; simpl.
  - now rewrite app_nil_r.
  - change (w :: ws) with ([w] ++ ws)%list. rewrite app_assoc.
    apply IH.
    + now apply wrap_lines_step_inv.
    + split; intro H.
      * now apply flush_step_not_nil in H.
      * now apply app_eq_nil in H.
Qed.

(** The second loop neither drops nor repeats a word: its lines joined by
    single spaces are its words joined by single spaces. *)
Lemma wrap_lines_join (words : list string) :
  Forall (fun w => PyStr.truthy w = true) words ->
  PyStr.join " " (wrap_lines_of getbbox words font max_width)
  = PyStr.join " " words.
Proof.
  intro H. rewrite wrap_lines_flush.
  apply (wrap_lines_fold_inv words H ([], "") []); [reflexivity|].
  split; reflexivity.
Qed.

End TextFitterFacts.

(** The wrapping routine writes its lines, one call per line, top down. *)
Lemma draw_lines_texts (getbbox : Font -> string -> BBox)
    (x1 mw : Z) (font : Font) (col : Color) (lh sp y : Z)
    (lines : list string) :
  drawn_texts (draw_lines getbbox x1 mw font col lh sp y lines) = lines.
Proof.
  revert y. induction lines as [|l lines IH]; intro y; simpl.
  - reflexivity.
  - now rewrite IH.
Qed.

Lemma draw_centered_wrapped_text_lines (getbbox : Font -> string -> BBox)
    (region : Region) (text : string) (font : Font) (col : Color) :
  drawn_texts (draw_centered_wrapped_text getbbox region text font col)
  = wrapped_lines getbbox region text font.
Proof.
  destruct region as [[[x1 y1] x2] y2]. unfold draw_centered_wrapped_text.
  apply draw_lines_texts.
Qed.

Lemma word_pieces_fit (getbbox : Font -> string -> BBox) (font : Font)
    (max_width : Z) (ws : list string) :
  Forall (fun w => bbox_width getbbox font w <= max_width) ws ->
  flat_map (word_pieces getbbox font max_width) ws = ws.
Proof.
  induction 1 as [|w ws Hw _ IH]; simpl; [reflexivity|].
  unfold word_pieces at 1.
  destruct (Z.gtb_spec (bbox_width getbbox font w) max_width); [lia|].
  simpl. now rewrite IH.
Qed.

(** A run with the monospaced measure at size 10 (5 pixels a character) in
    a region 50 pixels wide: the 26-letter word is broken into runs of 10,
    10 and 6 characters, and the last run shares its line with "foo". *)
Example wrapped_lines_example :
  wrapped_lines mono_getbbox (0, 0, 50, 50)
    "hello   abcdefghijklmnopqrstuvwxyz foo" 10
  = ["hello"; "abcdefghij"; "klmnopqrst"; "uvwxyz foo"].
Proof. reflexivity. Qed.

(** Characters wider than the region: one segment each. *)
Example break_word_oversized_example :
  break_word mono_getbbox "abc" 10 3 = ["a"; "b"; "c"].
Proof. reflexivity. Qed.

(** C1. Word-wrap round trip. For every font measure, region and text, the
    lines drawn by [draw_centered_wrapped_text], re-joined with single
    spaces, are the pieces of the words of the text re-joined with single
    spaces, in the order of the words. A word that fits the region is its
    own single piece; the pieces of a word that does not fit are the
    segments of [break_word], which are never empty, concatenate to the
    word, and each fit or are one character long. When every word fits, the
    re-joined lines are the whitespace-normalized text. A one-character word
    is always one segment, whatever its width. *)
Theorem wrap_round_trip (getbbox : Font -> string -> BBox)
    (region : Region) (text : string) (font : Font) (col : Color) :
  let max_width := r_x2 region - r_x1 region in
  let lines :=
    drawn_texts (draw_centered_wrapped_text getbbox region text font col) in
  let pieces := word_pieces getbbox font max_width in
  PyStr.join " " lines
    = PyStr.join " " (flat_map pieces (PyStr.split text))
  /\ Forall (fun word =>
               PyStr.join "" (pieces word) = word
               /\ pieces word <> []
               /\ Forall (segment_ok getbbox font max_width) (pieces word)
               /\ (pieces word = [word]
                   \/ (bbox_width getbbox font word > max_width
                       /\ pieces word
                          = break_word getbbox word font max_width)))
            (PyStr.split text)
  /\ (Forall (fun word => bbox_width getbbox font word <= max_width)
             (PyStr.split text) ->
      PyStr.join " " lines = normalized_text text)
  /\ (forall c : ascii,
        break_word getbbox (String c "") font max_width = [String c ""]).
Proof.
  intros max_width lines pieces.
  assert (HL : PyStr.join " " lines
               = PyStr.join " " (flat_map pieces (PyStr.split text))).
  { unfold lines. rewrite draw_centered_wrapped_text_lines.
    unfold wrapped_lines. fold max_width.
    rewrite wrap_lines_join by apply wrap_words_truthy.
    now rewrite wrap_words_flat_map. }
  split; [exact HL|]. split; [|split].
  - eapply Forall_impl; [|apply split_truthy].
    intros word Hw. unfold pieces, word_pieces.
    destruct (Z.gtb_spec (bbox_width getbbox font word) max_width) as [Hgt|Hle].
    + split; [apply break_word_concat|]. split.
      * apply break_word_nonempty. now apply truthy_true.
      * split; [apply break_word_segments|]. right. split; [lia|reflexivity].
    + split; [reflexivity|]. split; [discriminate|]. split.
      * constructor; [|constructor]. split; [now apply truthy_true | now left].
      * now left.
  - intro Hfit. rewrite HL. unfold pieces.
    now rewrite word_pieces_fit.
  - intro c. apply break_word_single.
Qed.

(** ** Font-size search *)

Section FontSearchFacts.

Variable getbbox : Font -> string -> BBox.
Variable text : string.
Variables region_width region_height : Z.

Local Abbreviation fits :=
  (fun size => text_fits getbbox text size region_width region_height).
Local Abbreviation loop :=
  (fun fuel size =>
     adjust_font_size_loop getbbox fuel text size region_width region_height).

(** The loop with enough fuel, started at a size of at least 5: it stops at
    the first fitting size on the way down, or at 5. *)
Lemma adjust_font_size_loop_spec (fuel : nat) (size : Z) :
  (Z.to_nat (size - 5) <= fuel)%nat ->
  5 <= size ->
  5 <= loop fuel size <= size
  /\ (loop fuel size = 5 \/ fits (loop fuel size) = true)
  /\ (forall k, loop fuel size < k <= size -> fits k = false).
Proof.
  revert size. induction fuel as [|fuel IH]; intros size Hfuel Hsize; simpl.
  - assert (size = 5) by lia. subst.
    repeat split; try lia; now left.
  - destruct (Z.gtb_spec size 5) as [Hgt|Hle].
    + destruct (text_fits getbbox text size region_width region_height) eqn:Ef.
      * repeat split; try lia; now right.
      * destruct (IH (size - 1)) as (H1 & H2 & H3); [lia | lia |].
        repeat split; try lia; [exact H2|].
        intros k Hk. destruct (Z.eq_dec k size) as [->|Hne]; [exact Ef|].
        apply H3. lia.
    + assert (size = 5) by lia. subst.
      repeat split; try lia; now left.
Qed.

End FontSearchFacts.

(** C5. Font-size search. With [max_size] at least the floor 5, the search
    returns a size [s] with [5 <= s <= max_size]; every size above [s] up to
    [max_size] was tried and does not fit (width and height of the
    single-line box of the unwrapped text against the region); [s] fits or
    is the floor 5; when some size in (5, max_size] fits, [s] fits and is
    the largest fitting size up to [max_size]; when none fits, [s] is the
    floor 5. The function is total: it always returns a size. *)
Theorem adjust_font_size_spec (getbbox : Font -> string -> BBox)
    (text : string) (max_size region_width region_height : Z) :
  5 <= max_size ->
  let fits := fun size =>
    text_fits getbbox text size region_width region_height in
  let s := adjust_font_size getbbox text max_size region_width region_height in
  5 <= s <= max_size
  /\ (forall k, s < k <= max_size -> fits k = false)
  /\ (s = 5 \/ fits s = true)
  /\ ((exists k, 5 < k <= max_size /\ fits k = true) ->
      fits s = true /\ 5 < s
      /\ forall k, k <= max_size -> fits k = true -> k <= s)
  /\ ((forall k, 5 < k <= max_size -> fits k = false) -> s = 5).
Proof.
  intros Hmax fits s. subst fits. cbv beta.
  destruct (adjust_font_size_loop_spec getbbox text region_width region_height
              (Z.to_nat (max_size - 5)) max_size) as (H1 & H2 & H3);
    [lia | exact Hmax |].
  cbv beta in H1, H2, H3.
  fold (adjust_font_size getbbox text max_size region_width region_height)
    in H1, H2, H3.
  fold s in H1, H2, H3.
  split; [exact H1|]. split; [exact H3|]. split; [exact H2|]. split.
  - intros (k & Hk & Hfit).
    assert (Hks : k <= s).
    { destruct (Z.le_gt_cases k s) as [Hle|Hgt]; [exact Hle|].
      rewrite (H3 k) in Hfit by lia. discriminate. }
    split; [|split].
    + destruct H2 as [H2|H2]; [lia | exact H2].
    + lia.
    + intros k' Hk' Hfit'.
      destruct (Z.le_gt_cases k' s) as [Hle|Hgt]; [exact Hle|].
      rewrite (H3 k') in Hfit' by lia. discriminate.
  - intro Hnone. destruct H2 as [H2|H2]; [exact H2|].
    destruct (Z.eq_dec s 5) as [E|E]; [exact E|].
    rewrite (Hnone s) in H2 by lia. discriminate.
Qed.

(** The search on "hello" in a 100 x 100 region from size 45, with the
    monospaced measure: size 40 is the first whose 5 glyphs fit. *)
Lemma adjust_font_size_spec_witness :
  5 <= 45
  /\ 5 <= adjust_font_size mono_getbbox "hello" 45 100 100 <= 45
  /\ adjust_font_size mono_getbbox "hello" 45 100 100 = 40.
Proof.
  split; [lia|]. split.
  - apply (adjust_font_size_spec mono_getbbox "hello" 45 100 100). lia.
  - reflexivity.
Defined.

(** ** Layout *)

(** Unfold the layout to arithmetic on its constants, leaving the
    operations of [Z] folded. *)
Ltac layout_unfold :=
  cbv beta iota zeta delta
    [compute_layout layout_boxes pairwise_disjoint disjoint inside_canvas
     additive_offsets timer_bottom timer_top_padding timer_height
     wide_config tall_config negb
     video_width video_height vertical_layout
     margin box_radius q_box_region opt_height
     opt_a_box opt_b_box opt_c_box opt_d_box
     r_x1 r_y1 r_x2 r_y2].

Ltac layout_split :=
  repeat match goal with
         | |- _ /\ _ => split
         | |- Forall _ _ => constructor
         | |- True => exact I
         end.

(** The five boxes never share a pixel, whatever the canvas size: rows are
    separated by the gaps and the two columns of the grid by the rounding of
    the option width. *)
Lemma layout_disjoint (cfg : Config) :
  pairwise_disjoint (layout_boxes (compute_layout cfg)).
Proof.
  destruct cfg as [w h v]. destruct v; layout_unfold; layout_split;
    layout_unfold; try lia.
  all: pose proof (Z.mul_div_le (w - 3 * 50) 2 ltac:(lia)); lia.
Qed.

(** The vertical positions are chained, whatever the canvas size. *)
Lemma layout_additive (cfg : Config) :
  additive_offsets cfg (compute_layout cfg).
Proof.
  destruct cfg as [w h v]. destruct v; layout_unfold; layout_split; lia.
Qed.

Lemma main_config_cases (ratio_input : string) :
  main_config ratio_input = wide_config
  \/ main_config ratio_input = tall_config.
Proof.
  unfold main_config. destruct (_ =? _)%string; auto.
Qed.

Example wide_layout_example :
  compute_layout wide_config
  = mkLayout 50 20 (50, 140, 1230, 260) 60
      (50, 290, 615, 350) (665, 290, 1230, 350)
      (50, 380, 615, 440) (665, 380, 1230, 440).
Proof. reflexivity. Qed.

Example tall_layout_example :
  compute_layout tall_config
  = mkLayout 40 20 (40, 140, 680, 290) 60
      (40, 320, 680, 380) (40, 405, 680, 465)
      (40, 490, 680, 550) (40, 575, 680, 635).
Proof. reflexivity. Qed.

(** C7. Layout invariant. Whatever is typed at the ratio prompt, the canvas
    is the wide 1280 x 720 one or the tall 720 x 1280 one; for it the
    question box and the four option boxes lie inside the canvas, no two of
    the five share a pixel, and every top edge below the timer is the bottom
    edge of the box above plus a constant gap. *)
Theorem layout_invariant (ratio_input : string) :
  let cfg := main_config ratio_input in
  let L := compute_layout cfg in
  ((video_width cfg, video_height cfg) = (1280, 720)
   \/ (video_width cfg, video_height cfg) = (720, 1280))
  /\ Forall (inside_canvas cfg) (layout_boxes L)
  /\ pairwise_disjoint (layout_boxes L)
  /\ additive_offsets cfg L.
Proof.
  intros cfg L. split; [|split; [|split]].
  - unfold cfg. destruct (main_config_cases ratio_input) as [-> | ->]; auto.
  - unfold L, cfg.
    destruct (main_config_cases ratio_input) as [-> | ->];
      layout_unfold; layout_split; layout_unfold;
      repeat match goal with |- context [?a / ?b] =>
               let q := eval vm_compute in (a / b) in
               change (a / b) with q
             end; lia.
  - apply layout_disjoint.
  - apply layout_additive.
Qed.

(** ** Answer box *)

Lemma prefix_spec (p s : string) :
  prefix p s = true <-> exists rest, s = p ++ rest.
Proof.
  revert s. induction p as [|a p IH]; intro s; simpl.
  - destruct s; split; eauto.
  - destruct s as [|b s]; simpl.
    + split; [discriminate | intros [r H]; discriminate].
    + destruct (ascii_dec a b) as [->|Hne].
      * rewrite IH. split; intros [r H]; exists r; [now subst | now inversion H].
      * split; [discriminate | intros [r H]; inversion H; congruence].
Qed.

Lemma contains_spec (sub s : string) :
  PyStr.contains sub s = true <-> exists pre post, s = pre ++ sub ++ post.
Proof.
  induction s as [|c s IH]; cbn [PyStr.contains].
  - rewrite orb_false_r, prefix_spec. split.
    + intros [r H]. now exists "", r.
    + intros (pre & post & H). destruct pre; [|discriminate].
      now exists post.
  - rewrite orb_true_iff, IH, prefix_spec. split.
    + intros [[r H] | (pre & post & H)].
      * now exists "", r.
      * exists (String c pre), post. simpl. now rewrite H.
    + intros (pre & post & H). destruct pre as [|x pre].
      * left. now exists post.
      * right. inversion H. now exists pre, post.
Qed.

Lemma startswith_letter (s : string) (letter : ascii) :
  PyStr.startswith s (String letter "") = true
  <-> exists rest, s = String letter rest.
Proof. unfold PyStr.startswith. now rewrite prefix_spec. Qed.

(** One branch test of the chain is the proposition [marker_hit]. *)
Lemma branch_test_spec (letter : ascii) (al : string) :
  PyStr.contains (String letter ")") al
  || PyStr.startswith al (String letter "") = true
  <-> marker_hit letter al.
Proof.
  unfold marker_hit.
  now rewrite orb_true_iff, contains_spec, startswith_letter.
Qed.

Lemma branch_test_false (letter : ascii) (al : string) :
  PyStr.contains (String letter ")") al
  || PyStr.startswith al (String letter "") = false
  <-> ~ marker_hit letter al.
Proof.
  rewrite <- branch_test_spec. now destruct (_ || _).
Qed.

(** A text that begins with a non-blank character keeps it through
    [strip]. *)
Lemma strip_keeps_head (c : ascii) (s : string) :
  PyStr.isspace c = false ->
  exists rest, PyStr.strip (String c s) = String c rest.
Proof.
  intro Hc. unfold PyStr.strip. simpl. rewrite Hc. simpl.
  rewrite Hc, andb_false_r. eauto.
Qed.

Example answer_d_example :
  find_answer_box (compute_layout wide_config) "d) Madrid"
  = Some (opt_d_box (compute_layout wide_config)).
Proof. reflexivity. Qed.

(** The marker of an earlier option inside the text wins: "a)" occurs in
    "b) canada)". *)
Example answer_inner_marker_example :
  find_answer_box (compute_layout wide_config) "b) Canada)"
  = Some (opt_a_box (compute_layout wide_config)).
Proof. reflexivity. Qed.

(** C9. Answer-box resolution. On [answer_lower], the lowercased and
    stripped answer text, the options are tried in the order A, B, C, D;
    the test of an option holds when its marker "x)" occurs anywhere in
    [answer_lower] or [answer_lower] begins with its letter; the box of the
    first option whose test holds is selected. No box is selected exactly
    when the four tests fail. Every answer text that begins with the letter
    "a" selects the box of option A, whatever follows. *)
Theorem answer_box_resolution (L : Layout) (answer_text : string) :
  let answer_lower := PyStr.strip (PyStr.lower answer_text) in
  let hit := fun k => marker_hit (slot_letter k) answer_lower in
  let box := find_answer_box L answer_text in
  ((hit SlotA /\ box = Some (opt_a_box L))
   \/ (~ hit SlotA /\ hit SlotB /\ box = Some (opt_b_box L))
   \/ (~ hit SlotA /\ ~ hit SlotB /\ hit SlotC /\ box = Some (opt_c_box L))
   \/ (~ hit SlotA /\ ~ hit SlotB /\ ~ hit SlotC /\ hit SlotD
       /\ box = Some (opt_d_box L))
   \/ (~ hit SlotA /\ ~ hit SlotB /\ ~ hit SlotC /\ ~ hit SlotD
       /\ box = None))
  /\ (box = None
      <-> ~ hit SlotA /\ ~ hit SlotB /\ ~ hit SlotC /\ ~ hit SlotD)
  /\ (forall rest : string,
        find_answer_box L (String "a" rest) = Some (opt_a_box L)).
Proof.
  intros al hit box.
  assert (Hcases :
    (hit SlotA /\ box = Some (opt_a_box L))
    \/ (~ hit SlotA /\ hit SlotB /\ box = Some (opt_b_box L))
    \/ (~ hit SlotA /\ ~ hit SlotB /\ hit SlotC /\ box = Some (opt_c_box L))
    \/ (~ hit SlotA /\ ~ hit SlotB /\ ~ hit SlotC /\ hit SlotD
        /\ box = Some (opt_d_box L))
    \/ (~ hit SlotA /\ ~ hit SlotB /\ ~ hit SlotC /\ ~ hit SlotD
        /\ box = None)).
  { unfold box, find_answer_box. fold al. unfold hit. simpl slot_letter.
    destruct (PyStr.contains "a)" al || PyStr.startswith al "a") eqn:Ea;
      [apply branch_test_spec in Ea; left; now split
      | apply branch_test_false in Ea; right].
    destruct (PyStr.contains "b)" al || PyStr.startswith al "b") eqn:Eb;
      [apply branch_test_spec in Eb; left; now repeat split
      | apply branch_test_false in Eb; right].
    destruct (PyStr.contains "c)" al || PyStr.startswith al "c") eqn:Ec;
      [apply branch_test_spec in Ec; left; now repeat split
      | apply branch_test_false in Ec; right].
    destruct (PyStr.contains "d)" al || PyStr.startswith al "d") eqn:Ed;
      [apply branch_test_spec in Ed; left; now repeat split
      | apply branch_test_false in Ed; right].
    now repeat split. }
  split; [exact Hcases|]. split.
  - split.
    + intro Hnone.
      destruct Hcases as [[_ H]|[(_ & _ & H)|[(_ & _ & _ & H)|
                          [(_ & _ & _ & _ & H)|(Ha & Hb & Hc & Hd & _)]]]];
        try congruence. auto.
    + intros (Ha & Hb & Hc & Hd).
      destruct Hcases as [[H _]|[(_ & H & _)|[(_ & _ & H & _)|
                          [(_ & _ & _ & H & _)|(_ & _ & _ & _ & H)]]]];
        try contradiction. exact H.
  - intro rest. unfold find_answer_box.
    destruct (strip_keeps_head "a" (PyStr.lower rest) eq_refl) as [r Hr].
    change (PyStr.lower (String "a" rest))
      with (String "a" (PyStr.lower rest)).
    rewrite Hr.
    assert (Hs : PyStr.startswith (String "a" r) "a" = true)
      by (apply startswith_letter; eauto).
    now rewrite Hs, orb_true_r.
Qed.

(** ** Option text *)

(** The slicing of [make_quiz_clip] is the removal of a two-character
    marker. *)
Lemma option_text_of_marker_removed (m1 m2 : ascii) (opt_text : string) :
  option_text_of (String m1 (String m2 "")) opt_text
  = marker_removed (String m1 (String m2 "")) opt_text.
Proof.
  unfold option_text_of, marker_removed, PyStr.startswith.
  destruct opt_text as [|c1 [|c2 rest]]; simpl.
  - reflexivity.
  - destruct (ascii_dec m1 c1); reflexivity.
  - destruct (ascii_dec m1 c1) as [->|H1].
    + rewrite Ascii.eqb_refl.
      destruct (ascii_dec m2 c2) as [->|H2].
      * rewrite Ascii.eqb_refl. now destruct rest.
      * destruct (Ascii.eqb_spec c2 m2); [congruence | reflexivity].
    + destruct (Ascii.eqb_spec c1 m1); [congruence | reflexivity].
Qed.

Lemma option_text_of_slot (k : Slot) (opt_text : string) :
  option_text_of (slot_marker k) opt_text
  = marker_removed (slot_marker k) opt_text.
Proof. apply option_text_of_marker_removed. Qed.

Lemma marker_removed_hit (k : Slot) (rest : string) :
  marker_removed (slot_marker k) (slot_marker k ++ rest) = rest.
Proof. destruct k; reflexivity. Qed.

Lemma marker_removed_cases (marker opt_text : string) :
  marker_removed marker opt_text = opt_text
  \/ opt_text = marker ++ marker_removed marker opt_text.
Proof.
  unfold marker_removed. destruct opt_text as [|c1 [|c2 rest]]; auto.
  destruct (String.eqb_spec (String c1 (String c2 "")) marker) as [<-|H];
    auto.
Qed.

(** In both orientations the four option boxes are different tuples, so the
    comparisons [answer_box == opt_x_box] identify the slot. *)
Lemma blink_label_text_slot (ratio_input : string) (k : Slot) :
  blink_label_text (main_config ratio_input)
    (slot_box (compute_layout (main_config ratio_input)) k)
  = slot_label k.
Proof.
  destruct (main_config_cases ratio_input) as [-> | ->];
    destruct k; reflexivity.
Qed.

Lemma blink_option_text_slot (getbbox : Font -> string -> BBox)
    (ratio_input a b c d : string) (k : Slot) :
  blink_option_text getbbox (main_config ratio_input) a b c d
    (slot_box (compute_layout (main_config ratio_input)) k)
  = (option_text_of (slot_marker k) (slot_text a b c d k),
     text_region_of getbbox
       (slot_box (compute_layout (main_config ratio_input)) k)).
Proof.
  destruct (main_config_cases ratio_input) as [-> | ->];
    destruct k; reflexivity.
Qed.

Lemma highlight_picture_slot (getbbox : Font -> string -> BBox)
    (ratio_input a b c d : string) (k : Slot) :
  highlight_picture getbbox (main_config ratio_input) a b c d
    (slot_box (compute_layout (main_config ratio_input)) k)
  = ([ RoundedRectangle
         (slot_box (compute_layout (main_config ratio_input)) k)
         (box_radius (compute_layout (main_config ratio_input)))
         (Some green_color) (Some green_color) 3;
       DrawText
         (r_x1 (slot_box (compute_layout (main_config ratio_input)) k)
            + label_margin,
          r_y1 (slot_box (compute_layout (main_config ratio_input)) k)
            + (opt_height (compute_layout (main_config ratio_input)) - 30)
              / 2)
         (slot_label k) option_label_font text_color ]
     ++ draw_centered_wrapped_text getbbox
          (text_region_of getbbox
             (slot_box (compute_layout (main_config ratio_input)) k))
          (marker_removed (slot_marker k) (slot_text a b c d k))
          option_font text_color)%list.
Proof.
  unfold highlight_picture.
  rewrite blink_option_text_slot, blink_label_text_slot, option_text_of_slot.
  reflexivity.
Qed.

(** C10. Option-label prefix stripping. In both orientations, for each
    option slot the text handed to the wrapping routine is the option
    string without its first two characters exactly when these are the
    slot's lowercase marker ("a)", "b)", "c)", "d)"), and the unchanged
    option string otherwise: on the background image, after the boxes, the
    labels and the question, and in the highlighted overlay of the slot,
    after the green fill and the label. A string that begins with the marker
    loses it; any other string, for instance one with an uppercase marker,
    is rendered as it is. *)
Theorem option_prefix_stripping (getbbox : Font -> string -> BBox)
    (ratio_input question_text a b c d : string) :
  let cfg := main_config ratio_input in
  let L := compute_layout cfg in
  let rendered := fun k =>
    marker_removed (slot_marker k) (slot_text a b c d k) in
  let wrapped := fun k =>
    draw_centered_wrapped_text getbbox
      (text_region_of getbbox (slot_box L k)) (rendered k)
      option_font text_color in
  background_picture getbbox cfg question_text a b c d
  = ([ draw_box cfg (q_box_region L);
       draw_box cfg (opt_a_box L); draw_box cfg (opt_b_box L);
       draw_box cfg (opt_c_box L); draw_box cfg (opt_d_box L);
       draw_label cfg (opt_a_box L) "A:"; draw_label cfg (opt_b_box L) "B:";
       draw_label cfg (opt_c_box L) "C:"; draw_label cfg (opt_d_box L) "D:" ]
     ++ draw_centered_wrapped_text getbbox (question_inner_region cfg)
          question_text (question_font getbbox cfg question_text) text_color
     ++ wrapped SlotA ++ wrapped SlotB ++ wrapped SlotC ++ wrapped SlotD)%list
  /\ (forall k : Slot,
        highlight_picture getbbox cfg a b c d (slot_box L k)
        = ([ RoundedRectangle (slot_box L k) (box_radius L)
               (Some green_color) (Some green_color) 3;
             DrawText (r_x1 (slot_box L k) + label_margin,
                       r_y1 (slot_box L k) + (opt_height L - 30) / 2)
                      (slot_label k) option_label_font text_color ]
           ++ wrapped k)%list)
  /\ (forall (k : Slot) (rest : string),
        marker_removed (slot_marker k) (slot_marker k ++ rest) = rest)
  /\ (forall (k : Slot) (opt_text : string),
        marker_removed (slot_marker k) opt_text = opt_text
        \/ opt_text
           = slot_marker k ++ marker_removed (slot_marker k) opt_text)
  /\ marker_removed (slot_marker SlotA) "A) Paris" = "A) Paris".
Proof.
  intros cfg L rendered wrapped. split; [|split; [|split; [|split]]].
  - unfold background_picture, wrapped, rendered.
    unfold opt_a_text_region, opt_b_text_region, opt_c_text_region,
      opt_d_text_region.
    change "a)" with (slot_marker SlotA). change "b)" with (slot_marker SlotB).
    change "c)" with (slot_marker SlotC). change "d)" with (slot_marker SlotD).
    rewrite !option_text_of_slot. reflexivity.
  - intro k. apply highlight_picture_slot.
  - apply marker_removed_hit.
  - intros k opt_text. apply marker_removed_cases.
  - reflexivity.
Qed.

(** ** Blinking overlay *)

Lemma length_range (n : Z) : List.length (range n) = Z.to_nat n.
Proof. unfold range. now rewrite length_map, length_seq. Qed.

Lemma nth_error_range (n : Z) (i : nat) :
  (i < Z.to_nat n)%nat -> nth_error (range n) i = Some (Z.of_nat i).
Proof.
  intro Hi. unfold range.
  rewrite nth_error_map, nth_error_seq.
  destruct (Nat.ltb_spec i (Z.to_nat n)); [reflexivity | lia].
Qed.

(** [int] on a rational: the ceiling below zero, the floor from zero on. *)
Lemma py_int_trunc (x : Q) :
  py_int x = if Qnum x <? 0 then Qceiling x else Qfloor x.
Proof.
  destruct x as [n d]. unfold py_int, Qceiling, Qfloor. simpl.
  destruct (Z.ltb_spec n 0) as [Hneg|Hpos].
  - rewrite <- (Z.opp_involutive n) at 1.
    rewrite Z.quot_opp_l by discriminate.
    rewrite Z.quot_div_nonneg by lia. reflexivity.
  - apply Z.quot_div_nonneg; lia.
Qed.

Lemma py_int_floor (x : Q) : (0 <= x)%Q -> py_int x = Qfloor x.
Proof.
  intro H. rewrite py_int_trunc.
  destruct (Z.ltb_spec (Qnum x) 0) as [Hneg|Hpos]; [|reflexivity].
  unfold Qle in H. simpl in H. lia.
Qed.

Lemma py_int_comp (x y : Q) : (x == y)%Q -> py_int x = py_int y.
Proof.
  intro H. rewrite !py_int_trunc.
  assert (Hs : (Qnum x <? 0) = (Qnum y <? 0)).
  { unfold Qeq in H.
    destruct (Z.ltb_spec (Qnum x) 0), (Z.ltb_spec (Qnum y) 0);
      try reflexivity; nia. }
  rewrite Hs. destruct (Qnum y <? 0); now rewrite H.
Qed.

Section BlinkFacts.

Variable getbbox : Font -> string -> BBox.
Variable cfg : Config.
Variables a b c d : string.

Local Abbreviation frame_at := (blink_frame getbbox cfg a b c d).
Local Abbreviation frames_of := (blinking_frames getbbox cfg a b c d).
Local Abbreviation sample := (make_blink_frame getbbox cfg a b c d).

Lemma length_blinking_frames (answer_box : option Region) :
  List.length (frames_of answer_box) = 72%nat.
Proof. unfold blinking_frames. now rewrite length_map, length_range. Qed.

Lemma nth_error_blinking_frames (answer_box : option Region) (i : Z) :
  0 <= i < 72 ->
  nth_error (frames_of answer_box) (Z.to_nat i)
  = Some (frame_at answer_box i).
Proof.
  intro Hi. unfold blinking_frames.
  rewrite nth_error_map, nth_error_range.
  - simpl. now rewrite Z2Nat.id by lia.
  - change (Z.to_nat blink_frames) with 72%nat. lia.
Qed.

(** The sampler never leaves the list: it returns the frame whose number is
    the truncated [t * fps], reduced modulo the length of the list. *)
Lemma make_blink_frame_index (answer_box : option Region) (t : Q) :
  sample answer_box t
  = Some (frame_at answer_box (py_int (t * inject_Z fps) mod 72)).
Proof.
  unfold make_blink_frame. rewrite length_blinking_frames.
  change (Z.of_nat 72) with 72.
  apply nth_error_blinking_frames. apply Z.mod_pos_bound. lia.
Qed.

Lemma highlight_picture_head (box : Region) :
  exists rest,
    highlight_picture getbbox cfg a b c d box
    = RoundedRectangle box (box_radius (compute_layout cfg))
        (Some green_color) (Some green_color) 3 :: rest.
Proof.
  unfold highlight_picture. destruct (blink_option_text _ _ _ _ _ _ _).
  simpl. eauto.
Qed.

Lemma blink_frame_on (box : Region) (i : Z) :
  frame_at (Some box) i
  = if i mod (on_frames + off_frames) <? on_frames
    then highlight_picture getbbox cfg a b c d box else [].
Proof. reflexivity. Qed.

End BlinkFacts.

(** ** Blinking overlay on float times *)

Lemma of_Z_fps : F64.of_Z fps = S754_finite false 6755399441055744 (-48).
Proof. reflexivity. Qed.

(** Rounding keeps the sign. *)
Lemma binary_round_aux_sign (s : bool) (m e : Z) (l : location) :
  match binary_round_aux F64.prec F64.emax s m e l with
  | S754_zero s' | S754_infinity s' | S754_finite s' _ _ => s' = s
  | S754_nan => True
  end.
Proof.
  unfold binary_round_aux.
  destruct (shr_fexp F64.prec F64.emax m e l) as [mrs e'].
  destruct (shr_fexp F64.prec F64.emax _ e' loc_Exact) as [mrs' e''].
  destruct (shr_m mrs'); [reflexivity | | exact I].
  destruct (e'' <=? F64.emax - F64.prec); reflexivity.
Qed.

Lemma to_Q_positive (m : positive) (e : Z) :
  (0 <= F64.to_Q (S754_finite false m e))%Q.
Proof.
  destruct e as [|p|p]; unfold F64.to_Q, Qle; cbn [Qnum Qden inject_Z].
  - lia.
  - pose proof (Z.pow_pos_nonneg 2 (Zpos p)). lia.
  - lia.
Qed.

Lemma to_Q_negative (m : positive) (e : Z) :
  (F64.to_Q (S754_finite true m e) < 0)%Q.
Proof.
  destruct e as [|p|p]; unfold F64.to_Q, Qlt; cbn [Qnum Qden inject_Z].
  - lia.
  - pose proof (Z.pow_pos_nonneg 2 (Zpos p)). nia.
  - lia.
Qed.

(** The product of a time that is not negative and the frame rate is not
    negative. *)
Lemma mul_fps_nonneg (t : F64.float) :
  (0 <= F64.to_Q t)%Q -> (0 <= F64.to_Q (F64.mul t (F64.of_Z fps)))%Q.
Proof.
  intro Ht. rewrite of_Z_fps.
  destruct t as [s|s| |s m e]; try (cbn; discriminate).
  destruct s.
  - pose proof (to_Q_negative m e). lra.
  - unfold F64.mul, SFmul. cbn [xorb].
    pose proof (binary_round_aux_sign false
                  (Zpos (m * 6755399441055744)) (e + -48) loc_Exact) as Hs.
    destruct (binary_round_aux F64.prec F64.emax false _ _ loc_Exact)
      as [s'|s'| |s' m' e']; try (cbn; discriminate).
    subst s'. apply to_Q_positive.
Qed.

Lemma to_int_finite (x : F64.float) :
  F64.is_finite x = true -> F64.to_int x = Some (py_int (F64.to_Q x)).
Proof. intro H. unfold F64.to_int. now rewrite H. Qed.

(** Python's [==] on two floats: the same float, or two zeros. *)
Lemma f64_eqb_spec (x y : F64.float) :
  F64.eqb x y = true ->
  x = y \/ exists s s', x = S754_zero s /\ y = S754_zero s'.
Proof.
  unfold F64.eqb, SFeqb.
  destruct x as [s|s| |s m e], y as [s'|s'| |s' m' e']; cbn [SFcompare];
    try discriminate; try (destruct s; discriminate);
    try (destruct s'; discriminate).
  - intros _. right. eauto.
  - destruct s, s'; try discriminate; intros _; now left.
  - destruct s, s'; try discriminate;
      destruct (Z.compare_spec e e') as [He| |]; try discriminate;
      destruct (Pos.compare_cont Eq m m') eqn:E; try discriminate;
      intros _; left; subst;
      now rewrite (Pos.compare_eq m m' E).
Qed.

Section BlinkFloatFacts.

Variable getbbox : Font -> string -> BBox.
Variable cfg : Config.
Variables a b c d : string.

Local Abbreviation frame_at := (blink_frame getbbox cfg a b c d).
Local Abbreviation sample_f64 := (make_blink_frame_f64 getbbox cfg a b c d).

(** On a float time the sampler fails only with [int], and otherwise
    returns the frame whose number is the truncated float product, reduced
    modulo the length of the list. *)
Lemma make_blink_frame_f64_index (answer_box : option Region)
    (t : F64.float) :
  sample_f64 answer_box t
  = match F64.to_int (F64.mul t (F64.of_Z fps)) with
    | Some n => Some (frame_at answer_box (n mod 72))
    | None => None
    end.
Proof.
  unfold make_blink_frame_f64. rewrite length_blinking_frames.
  change (Z.of_nat 72) with 72.
  destruct (F64.to_int _) as [n|]; [|reflexivity].
  apply nth_error_blinking_frames. apply Z.mod_pos_bound. lia.
Qed.

End BlinkFloatFacts.

(** C2, as the code has it. Blink periodicity and frame selection. Given an
    answer box, with 4 frames on and 4 frames off: frame [i] of the overlay
    is the highlighted picture (which starts with the translucent green fill
    of the box) iff [i mod (on_frames + off_frames) < on_frames], and is
    fully transparent otherwise; frames 0 to 3 are on and 4 to 7 off, and
    the pattern repeats with period 8; the list built for 3 seconds at 24
    frames per second has 72 frames. The sampler is called on a float [t]:
    when [t] is not negative and the float product [t * fps] is finite, it
    returns frame [floor (t * fps) mod 72] of the list, where [t * fps] is
    that rounded product; this is the frame of the exact product whenever
    the float product is exact; it returns a frame whenever the float
    product is finite, and times that are equal as floats give the same
    frame. *)
Theorem blink_periodicity (getbbox : Font -> string -> BBox) (cfg : Config)
    (a b c d : string) (box : Region) :
  let frame_at := blink_frame getbbox cfg a b c d (Some box) in
  let frames := blinking_frames getbbox cfg a b c d (Some box) in
  let sample := make_blink_frame_f64 getbbox cfg a b c d (Some box) in
  let highlighted := highlight_picture getbbox cfg a b c d box in
  let product := fun t : F64.float => F64.mul t (F64.of_Z fps) in
  (on_frames = 4 /\ off_frames = 4)
  /\ (exists rest,
        highlighted
        = RoundedRectangle box (box_radius (compute_layout cfg))
            (Some green_color) (Some green_color) 3 :: rest)
  /\ (forall i : Z,
        (frame_at i = highlighted
         <-> i mod (on_frames + off_frames) < on_frames)
        /\ (fully_transparent (frame_at i)
            <-> on_frames <= i mod (on_frames + off_frames)))
  /\ (forall i : Z, frame_at (i + (on_frames + off_frames)) = frame_at i)
  /\ frames = map frame_at (range (3 * 24))
  /\ List.length frames = 72%nat
  /\ firstn 8 frames
     = [highlighted; highlighted; highlighted; highlighted; []; []; []; []]
  /\ (forall t : F64.float,
        F64.is_finite (product t) = true ->
        (0 <= F64.to_Q t)%Q ->
        sample t
        = nth_error frames
            (Z.to_nat (Qfloor (F64.to_Q (product t))
                       mod Z.of_nat (List.length frames))))
  /\ (forall t : F64.float,
        F64.is_finite (product t) = true ->
        (F64.to_Q (product t) == F64.to_Q t * inject_Z fps)%Q ->
        sample t
        = make_blink_frame getbbox cfg a b c d (Some box) (F64.to_Q t))
  /\ (forall t : F64.float,
        F64.is_finite (product t) = true ->
        exists frame, sample t = Some frame)
  /\ (forall t t' : F64.float,
        F64.eqb t t' = true -> sample t = sample t').
Proof.
  intros frame_at frames sample highlighted product.
  destruct (highlight_picture_head getbbox cfg a b c d box) as [rest Hrest].
  fold highlighted in Hrest.
  split; [split; reflexivity|]. split; [eauto|]. split; [|split].
  - intro i. unfold frame_at. rewrite blink_frame_on. fold highlighted.
    unfold fully_transparent.
    destruct (Z.ltb_spec (i mod (on_frames + off_frames)) on_frames)
      as [Hon|Hoff]; split; split; intro H; try lia; try reflexivity.
    + rewrite Hrest in H. discriminate.
    + rewrite Hrest in H. discriminate.
  - intro i. unfold frame_at. rewrite !blink_frame_on.
    rewrite <- (Z.mul_1_l (on_frames + off_frames)) at 1.
    now rewrite Z.mod_add by discriminate.
  - split; [reflexivity|]. split; [apply length_blinking_frames|].
    split; [reflexivity|]. split; [|split; [|split]].
    + intros t Hfin Ht. unfold sample, make_blink_frame_f64. fold frames.
      fold (product t). rewrite (to_int_finite _ Hfin).
      now rewrite py_int_floor by (apply mul_fps_nonneg; exact Ht).
    + intros t Hfin Hexact. unfold sample, make_blink_frame_f64,
        make_blink_frame. fold (product t). rewrite (to_int_finite _ Hfin).
      now rewrite (py_int_comp _ _ Hexact).
    + intros t Hfin. unfold sample. rewrite make_blink_frame_f64_index.
      fold (product t). rewrite (to_int_finite _ Hfin). eauto.
    + intros t t' Heq. unfold sample.
      destruct (f64_eqb_spec t t' Heq) as [E|(s & s' & E & E')].
      * now rewrite E.
      * subst t t'. rewrite !make_blink_frame_f64_index, of_Z_fps.
        reflexivity.
Qed.

(** At the float 0.1 (frame 2, on) and at the float nearest to 1/6, whose
    product with 24 rounds to 4 (frame 4, off), for the overlay of option A
    in the wide layout. *)
Lemma blink_periodicity_witness :
  F64.is_finite (F64.mul f64_tenth (F64.of_Z fps)) = true
  /\ (0 <= F64.to_Q f64_tenth)%Q
  /\ make_blink_frame_f64 mono_getbbox wide_config
       "a) Paris" "b) Berlin" "c) London" "d) Madrid"
       (Some (50, 290, 615, 350)) f64_tenth
     = Some (highlight_picture mono_getbbox wide_config
               "a) Paris" "b) Berlin" "c) London" "d) Madrid"
               (50, 290, 615, 350))
  /\ make_blink_frame_f64 mono_getbbox wide_config
       "a) Paris" "b) Berlin" "c) London" "d) Madrid"
       (Some (50, 290, 615, 350)) f64_sixth
     = Some [].
Proof.
  split; [reflexivity|]. split; [easy|].
  pose proof (blink_periodicity mono_getbbox wide_config
                "a) Paris" "b) Berlin" "c) London" "d) Madrid"
                (50, 290, 615, 350)) as H.
  cbv zeta in H.
  destruct H as (_ & _ & _ & _ & _ & _ & _ & Hs & _).
  split.
  - etransitivity; [apply (Hs f64_tenth); easy | reflexivity].
  - etransitivity; [apply (Hs f64_sixth); easy | reflexivity].
Defined.

(** Frame selection is not [floor (t * frame_rate) mod sequence_length] of
    the exact product. The time of frame 4, [4 / 24] in floats, is the float
    nearest to 1/6, which is below 1/6: the exact product is below 4 and its
    floor is 3, an "on" frame; the float product is 4, and the sampler
    returns frame 4, an "off" frame. *)
Lemma blink_sampling_counterexample :
  let sample :=
    make_blink_frame_f64 mono_getbbox wide_config
      "a) Paris" "b) Berlin" "c) London" "d) Madrid"
      (Some (50, 290, 615, 350)) in
  let frames :=
    blinking_frames mono_getbbox wide_config
      "a) Paris" "b) Berlin" "c) London" "d) Madrid"
      (Some (50, 290, 615, 350)) in
  let highlighted :=
    highlight_picture mono_getbbox wide_config
      "a) Paris" "b) Berlin" "c) London" "d) Madrid" (50, 290, 615, 350) in
  F64.div (F64.of_Z 4) (F64.of_Z fps) = f64_sixth
  /\ (0 <= F64.to_Q f64_sixth)%Q
  /\ Qfloor (F64.to_Q f64_sixth * inject_Z fps)
     mod Z.of_nat (List.length frames) = 3
  /\ nth_error frames 3 = Some highlighted
  /\ highlighted <> []
  /\ F64.mul f64_sixth (F64.of_Z fps) = F64.of_Z 4
  /\ sample f64_sixth = nth_error frames 4
  /\ sample f64_sixth = Some [].
Proof.
  cbv zeta. split; [reflexivity|].
  split; [easy|]. split; [reflexivity|]. split; [reflexivity|].
  split; [discriminate|]. split; [reflexivity|]. split; reflexivity.
Qed.

(** C8. Blink graceful degradation. When the answer text resolves to no
    box, the overlay still has its 72 frames, every one of them is fully
    transparent, and the sampler returns a fully transparent frame at every
    time: nothing fails. *)
Theorem blink_degrades (getbbox : Font -> string -> BBox) (cfg : Config)
    (a b c d answer_text : string) :
  find_answer_box (compute_layout cfg) answer_text = None ->
  let frames := clip_blinking_frames getbbox cfg a b c d answer_text in
  List.length frames = 72%nat
  /\ Forall fully_transparent frames
  /\ (forall t : Q,
        exists frame,
          clip_make_blink_frame getbbox cfg a b c d answer_text t
          = Some frame
          /\ fully_transparent frame).
Proof.
  intros Hnone frames. unfold frames, clip_blinking_frames,
    clip_make_blink_frame. rewrite Hnone.
  split; [apply length_blinking_frames|]. split.
  - unfold blinking_frames. apply Forall_map, Forall_forall.
    intros i _. reflexivity.
  - intro t. rewrite make_blink_frame_index. eexists. split; reflexivity.
Qed.

(** The answer "Madrid", given without a marker, resolves to no box. *)
Lemma blink_degrades_witness :
  find_answer_box (compute_layout wide_config) "Madrid" = None
  /\ Forall fully_transparent
       (clip_blinking_frames mono_getbbox wide_config
          "a) Paris" "b) Berlin" "c) London" "d) Madrid" "Madrid").
Proof.
  split; [reflexivity|].
  apply (blink_degrades mono_getbbox wide_config
           "a) Paris" "b) Berlin" "c) London" "d) Madrid" "Madrid").
  reflexivity.
Defined.

(** ** Chroma key *)

Lemma combine_map_same {A B C : Type} (f : A -> B) (g : A -> C)
    (l : list A) :
  combine (map f l) (map g l) = map (fun x => (f x, g x)) l.
Proof. induction l as [|x l IH]; simpl; [reflexivity | now rewrite IH]. Qed.

Lemma map2d_map2d {A B C : Type} (f : A -> B) (g : B -> C)
    (a : Array2 A) :
  map2d g (map2d f a) = map2d (fun x => g (f x)) a.
Proof.
  unfold map2d. rewrite map_map. apply map_ext. intro row. apply map_map.
Qed.

(** Writing channel 3 of an array built pixel by pixel from [a] with an
    alpha plane built pixel by pixel from [a] is again pixel by pixel. *)
Lemma set_alpha_map2d {A : Type} (f : A -> RGBA) (g : A -> Z)
    (a : Array2 A) :
  set_alpha (map2d f a) (map2d g a)
  = map2d (fun x => let '(r, gr, b, _) := f x in (r, gr, b, g x)) a.
Proof.
  unfold set_alpha, map2d. rewrite combine_map_same, map_map.
  apply map_ext. intro row.
  rewrite combine_map_same, map_map. reflexivity.
Qed.

Lemma pixel_at_map2d {A B : Type} (f : A -> B) (a : Array2 A) (i j : nat) :
  pixel_at (map2d f a) i j = option_map f (pixel_at a i j).
Proof.
  unfold pixel_at, map2d. rewrite nth_error_map.
  destruct (nth_error a i) as [row|]; simpl; [|reflexivity].
  apply nth_error_map.
Qed.

Lemma key_pixel_alpha (rgb2hsv : RGB -> HSV) (p : RGB) :
  exists alpha,
    key_pixel rgb2hsv p = (fst (fst p), snd (fst p), snd p, alpha)
    /\ ((in_green_range (rgb2hsv p) /\ alpha = 0)
        \/ (~ in_green_range (rgb2hsv p) /\ alpha = 255)).
Proof.
  destruct p as [[r g] b]. unfold key_pixel, in_green_range.
  destruct (rgb2hsv (r, g, b)) as [[h s] v]. simpl.
  eexists. split; [reflexivity|].
  destruct (Z.leb_spec 40 h), (Z.leb_spec h 90), (Z.leb_spec 40 s),
    (Z.leb_spec s 255), (Z.leb_spec 40 v), (Z.leb_spec v 255); simpl;
    first [left; split; [lia | reflexivity]
          | right; split; [lia | reflexivity]].
Qed.

(** C6. Chroma-key extraction. For every conversion to hue, saturation and
    value and every frame, the output is the input frame with [key_pixel]
    applied to each pixel on its own: the pixel of row i and column j of the
    output depends only on the pixel of row i and column j of the input. A
    keyed pixel keeps the three colour channels and has alpha 0 when hue is
    in 40..90, saturation in 40..255 and value in 40..255, and alpha 255
    otherwise. *)
Theorem remove_green_spec (rgb2hsv : RGB -> HSV) (frame : Array2 RGB) :
  let out := remove_green rgb2hsv frame in
  out = map2d (key_pixel rgb2hsv) frame
  /\ (forall i j : nat,
        pixel_at out i j = option_map (key_pixel rgb2hsv) (pixel_at frame i j))
  /\ (forall p : RGB,
        exists alpha,
          key_pixel rgb2hsv p = (fst (fst p), snd (fst p), snd p, alpha)
          /\ ((in_green_range (rgb2hsv p) /\ alpha = 0)
              \/ (~ in_green_range (rgb2hsv p) /\ alpha = 255))).
Proof.
  intro out.
  assert (H : out = map2d (key_pixel rgb2hsv) frame).
  { unfold out, remove_green. rewrite !map2d_map2d, set_alpha_map2d.
    unfold map2d. apply map_ext. intro row. apply map_ext.
    intros [[r g] b]. unfold key_pixel, inRange, lower_green, upper_green.
    destruct (rgb2hsv (r, g, b)) as [[h s] v].
    destruct (_ && _); reflexivity. }
  split; [exact H|]. split.
  - intros i j. rewrite H. apply pixel_at_map2d.
  - apply key_pixel_alpha.
Qed.

(** ** The numbers of the concatenation loop *)

Lemma concatenate_times_fold (durations : list PyNum) (s : PyNum)
    (acc : list PyNum) :
  fold_left concatenate_times_step durations (s, acc)
  = (py_sum_from s durations, (acc ++ py_starts s durations)%list).
Proof.
  revert s acc. induction durations as [|d ds IH]; intros s acc; simpl.
  - now rewrite app_nil_r.
  - rewrite IH, <- app_assoc. reflexivity.
Qed.

Lemma length_py_starts (durations : list PyNum) (s : PyNum) :
  List.length (py_starts s durations) = List.length durations.
Proof.
  revert s. induction durations as [|d ds IH]; intro s; simpl; auto.
Qed.

(** Clip [k] starts at the sum of the durations before it, and ends where
    the next one starts. *)
Lemma nth_error_py_starts (durations : list PyNum) (s : PyNum) (k : nat)
    (d : PyNum) :
  nth_error durations k = Some d ->
  nth_error (py_starts s durations) k
  = Some (py_sum_from s (firstn k durations))
  /\ py_sum_from s (firstn (S k) durations)
     = py_add (py_sum_from s (firstn k durations)) d.
Proof.
  revert s k. induction durations as [|d0 ds IH]; intros s k H.
  - destruct k; discriminate.
  - destruct k as [|k].
    + simpl in H. inversion H. subst. split; reflexivity.
    + simpl in H. destruct (IH (py_add s d0) k H) as [H1 H2].
      split; [exact H1 | exact H2].
Qed.

(** [int]s are added exactly. *)
Lemma py_sum_from_ints (seconds : list Z) (z0 : Z) :
  py_sum_from (PyInt z0) (map PyInt seconds)
  = PyInt (z0 + fold_right Z.add 0 seconds).
Proof.
  unfold py_sum_from. revert z0.
  induction seconds as [|z zs IH]; intro z0; cbn [map fold_left fold_right].
  - now rewrite Z.add_0_r.
  - change (py_add (PyInt z0) (PyInt z)) with (PyInt (z0 + z)).
    rewrite IH. f_equal. lia.
Qed.

(** ** Clip concatenation *)

Section ClipFacts.

Variable Frame : Type.
Implicit Types (clips : list (Clip Frame)) (c : Clip Frame) (s t : Q).

Local Open Scope Q_scope.

Lemma concatenate_fold clips s (acc : list (Clip Frame)) :
  fold_left concatenate_step clips (s, acc)
  = (end_time s clips, (acc ++ laid_out s clips)%list).
Proof.
  revert s acc. induction clips as [|c clips IH]; intros s acc; simpl.
  - now rewrite app_nil_r.
  - rewrite IH, <- app_assoc. reflexivity.
Qed.

Lemma end_time_sum clips s : end_time s clips == s + sum_durations clips.
Proof.
  revert s. induction clips as [|c clips IH]; intro s; simpl.
  - lra.
  - rewrite IH. lra.
Qed.

Lemma end_time_le clips s :
  Forall (fun c => 0 <= clip_duration c) clips -> s <= end_time s clips.
Proof.
  intro H. revert s. induction H as [|c clips Hc _ IH]; intro s; simpl.
  - lra.
  - specialize (IH (s + clip_duration c)). lra.
Qed.

Lemma length_laid_out clips s :
  List.length (laid_out s clips) = List.length clips.
Proof.
  revert s. induction clips as [|c clips IH]; intro s; simpl; auto.
Qed.

(** Layer [k] is clip [k] started where the loop variable stood after the
    clips before it. *)
Lemma nth_error_laid_out clips s (k : nat) c :
  nth_error clips k = Some c ->
  nth_error (laid_out s clips) k
  = Some (with_start c (end_time s (firstn k clips))).
Proof.
  revert s k. induction clips as [|c0 clips IH]; intros s k H.
  - destruct k; discriminate.
  - destruct k as [|k]; simpl in *.
    + now inversion H.
    + now apply IH.
Qed.

Lemma is_playing_spec c t :
  is_playing c t = true
  <-> clip_start c <= t /\ t < clip_start c + clip_duration c.
Proof.
  unfold is_playing. rewrite andb_true_iff, negb_true_iff, Qle_bool_iff.
  split; intros [H1 H2]; (split; [exact H1|]).
  - destruct (Qlt_le_dec t (clip_start c + clip_duration c)) as [Hlt|Hle];
      [exact Hlt|].
    apply Qle_bool_iff in Hle. congruence.
  - destruct (Qle_bool _ t) eqn:E; [|reflexivity].
    apply Qle_bool_iff in E. lra.
Qed.

Lemma is_playing_false c t :
  is_playing c t = false
  <-> t < clip_start c \/ clip_start c + clip_duration c <= t.
Proof.
  destruct (is_playing c t) eqn:E.
  - apply is_playing_spec in E. split; [discriminate | lra].
  - split; [intros _ | reflexivity].
    destruct (Qlt_le_dec t (clip_start c)) as [H|H]; [now left|].
    destruct (Qlt_le_dec t (clip_start c + clip_duration c)) as [H'|H'];
      [|now right].
    assert (is_playing c t = true) by (apply is_playing_spec; lra).
    congruence.
Qed.

(** Before the first start nothing plays. *)
Lemma playing_before clips s t (k0 : nat) :
  Forall (fun c => 0 <= clip_duration c) clips ->
  t < s -> playing_from k0 (laid_out s clips) t = [].
Proof.
  intro H. revert s k0. induction H as [|c clips Hc _ IH]; intros s k0 Ht;
    simpl; [reflexivity|].
  assert (E : is_playing (with_start c s) t = false)
    by (apply is_playing_false; simpl; lra).
  rewrite E. apply IH. lra.
Qed.

(** Inside the laid-out span exactly one clip plays. *)
Lemma playing_dispatch clips s t (k0 : nat) :
  Forall (fun c => 0 <= clip_duration c) clips ->
  s <= t < end_time s clips ->
  exists (k : nat) c,
    nth_error clips k = Some c
    /\ end_time s (firstn k clips) <= t
       < end_time s (firstn k clips) + clip_duration c
    /\ playing_from k0 (laid_out s clips) t
       = [((k0 + k)%nat, t - end_time s (firstn k clips))].
Proof.
  intro H. revert s k0. induction H as [|c clips Hc Hrest IH]; intros s k0 Ht;
    simpl in *; [lra|].
  destruct (Qlt_le_dec t (s + clip_duration c)) as [Hin|Hout].
  - exists 0%nat, c. simpl. split; [reflexivity|]. split; [lra|].
    assert (E : is_playing (with_start c s) t = true)
      by (apply is_playing_spec; simpl; lra).
    rewrite E, Nat.add_0_r, playing_before by assumption. reflexivity.
  - destruct (IH (s + clip_duration c) (S k0)) as (k & c' & H1 & H2 & H3);
      [lra|].
    exists (S k), c'. simpl. split; [exact H1|]. split; [exact H2|].
    assert (E : is_playing (with_start c s) t = false)
      by (apply is_playing_false; simpl; lra).
    rewrite E, H3, Nat.add_succ_r. reflexivity.
Qed.

(** Every playing layer is listed with its index. *)
Lemma playing_from_complete (ls : list (Clip Frame)) t (k0 k : nat) c :
  nth_error ls k = Some c -> is_playing c t = true ->
  In ((k0 + k)%nat, t - clip_start c) (playing_from k0 ls t).
Proof.
  revert k0 k. induction ls as [|l ls IH]; intros k0 k Hk Hp.
  - destruct k; discriminate.
  - destruct k as [|k]; simpl in *.
    + inversion Hk. subst. rewrite Hp, Nat.add_0_r. now left.
    + rewrite Nat.add_succ_r.
      destruct (is_playing l t); [right|]; now apply (IH (S k0) k).
Qed.

(** With durations in whole seconds the exact times are the numbers of the
    loop. *)
Lemma whole_seconds_times clips (seconds : list Z) :
  whole_seconds clips seconds ->
  forall s (z0 : Z),
  s == inject_Z z0 ->
  end_time s clips == py_value (py_sum_from (PyInt z0) (map PyInt seconds))
  /\ Forall2 (fun l n => clip_start l == py_value n)
       (laid_out s clips) (py_starts (PyInt z0) (map PyInt seconds)).
Proof.
  induction 1 as [|c z clips zs Hc _ IH]; intros s z0 Hs; simpl.
  - split; [exact Hs | constructor].
  - destruct (IH (s + clip_duration c) (z0 + z)%Z) as [H1 H2].
    { rewrite inject_Z_plus, Hs, Hc. reflexivity. }
    split; [exact H1|]. constructor; [exact Hs | exact H2].
Qed.

End ClipFacts.

(** C3, as the code has it. Clip concatenation geometry. For a non-empty
    list of clips whose durations are whole numbers of seconds (Python
    [int]s, which the loop adds exactly) the concatenation succeeds; layer k
    of the timeline is clip k with start equal to the sum of the durations
    of clips 0..k-1; the duration of the timeline is the sum of all
    durations; these are the numbers the loop computes. When no duration is
    negative, every time t with 0 <= t < total falls in the interval
    [start, start + duration) of exactly one layer, and sampling at t plays
    that layer alone, at local time t - start. For durations of any kind,
    floats included, the start of clip k is the running sum of the
    durations before it, formed from 0, left to right, in Python's
    arithmetic; clip k ends where clip k+1 starts, and the duration of the
    timeline is the running sum of all durations. *)
Theorem concatenation_geometry (Frame : Type) (clips : list (Clip Frame))
    (seconds : list Z) :
  clips <> [] ->
  whole_seconds clips seconds ->
  (exists timeline : Composite Frame,
    concatenate_videoclips clips = Ok timeline
    /\ List.length (layers timeline) = List.length clips
    /\ (forall (k : nat) (c : Clip Frame),
          nth_error clips k = Some c ->
          exists start : Q,
            nth_error (layers timeline) k = Some (with_start c start)
            /\ (start == sum_durations (firstn k clips))%Q)
    /\ (comp_duration timeline == sum_durations clips)%Q
    /\ fst (concatenate_times (map PyInt seconds))
       = PyInt (fold_right Z.add 0 seconds)
    /\ (comp_duration timeline
        == py_value (fst (concatenate_times (map PyInt seconds))))%Q
    /\ Forall2 (fun l n => (clip_start l == py_value n)%Q)
         (layers timeline) (snd (concatenate_times (map PyInt seconds)))
    /\ (Forall (fun c => (0 <= clip_duration c)%Q) clips ->
        forall t : Q,
          (0 <= t < comp_duration timeline)%Q ->
          exists (k : nat) (c : Clip Frame) (start : Q),
            nth_error clips k = Some c
            /\ nth_error (layers timeline) k = Some (with_start c start)
            /\ (start == sum_durations (firstn k clips))%Q
            /\ (start <= t < start + clip_duration c)%Q
            /\ playing timeline t = [(k, (t - start)%Q)]
            /\ sampled_frames timeline t = [get_frame c (t - start)%Q]
            /\ (forall (k' : nat) (c' : Clip Frame),
                  nth_error (layers timeline) k' = Some c' ->
                  is_playing c' t = true -> k' = k)))
  /\ (forall durations : list PyNum,
        fst (concatenate_times durations) = py_sum durations
        /\ List.length (snd (concatenate_times durations))
           = List.length durations
        /\ (forall (k : nat) (d : PyNum),
              nth_error durations k = Some d ->
              nth_error (snd (concatenate_times durations)) k
              = Some (py_sum (firstn k durations))
              /\ py_sum (firstn (S k) durations)
                 = py_add (py_sum (firstn k durations)) d)).
Proof.
  intros Hne Hwhole. split.
  2:{ intro durations. unfold concatenate_times.
      rewrite concatenate_times_fold. cbn [fst snd app].
      split; [reflexivity|]. split; [apply length_py_starts|].
      intros k d Hk. now apply nth_error_py_starts. }
  destruct clips as [|c0 rest]; [congruence|].
  set (clips := c0 :: rest) in *.
  exists (mkComposite (laid_out 0 clips) (clip_size c0) (end_time 0 clips)).
  split.
  { unfold concatenate_videoclips. fold clips.
    rewrite concatenate_fold. reflexivity. }
  cbn [layers comp_duration].
  unfold concatenate_times. rewrite concatenate_times_fold.
  cbn [fst snd app].
  destruct (whole_seconds_times Frame clips seconds Hwhole 0%Q 0
              ltac:(reflexivity)) as [Hend Hstarts].
  split; [apply length_laid_out|]. split; [|split; [|split; [|split;
    [|split]]]].
  - intros k c Hk. exists (end_time 0 (firstn k clips)).
    split; [now apply nth_error_laid_out|].
    rewrite end_time_sum. lra.
  - rewrite end_time_sum. lra.
  - apply py_sum_from_ints.
  - exact Hend.
  - exact Hstarts.
  - intros Hpos t Ht.
    destruct (playing_dispatch Frame clips 0 t 0 Hpos Ht)
      as (k & c & Hk & Hin & Hplay).
    cbn [Nat.add] in Hplay.
    exists k, c, (end_time 0 (firstn k clips)).
    pose proof (nth_error_laid_out Frame clips 0 k c Hk) as Hlayer.
    split; [exact Hk|]. split; [exact Hlayer|].
    split; [rewrite end_time_sum; lra|]. split; [exact Hin|].
    split; [exact Hplay|]. split.
    + unfold sampled_frames, playing. cbn [layers].
      rewrite Hplay. cbn [flat_map]. rewrite Hlayer. reflexivity.
    + intros k' c' Hk' Hp.
      pose proof (playing_from_complete Frame _ t 0 k' c' Hk' Hp) as Hin'.
      rewrite Hplay in Hin'. simpl in Hin'.
      destruct Hin' as [E|[]]. now inversion E.
Qed.

(** Three clips of 13 seconds: a timeline of 39 seconds, and t = 14.5 plays
    clip 1 alone at local time 1.5. *)
Lemma concatenation_geometry_witness :
  [probe_clip 13; probe_clip 13; probe_clip 13] <> []
  /\ whole_seconds [probe_clip 13; probe_clip 13; probe_clip 13] [13; 13; 13]
  /\ exists timeline : Composite Q,
       concatenate_videoclips [probe_clip 13; probe_clip 13; probe_clip 13]
       = Ok timeline
       /\ (comp_duration timeline == 39)%Q
       /\ exists local : Q,
            playing timeline (29 # 2) = [(1%nat, local)]
            /\ (local == 3 # 2)%Q
            /\ sampled_frames timeline (29 # 2) = [local].
Proof.
  assert (Hw : whole_seconds [probe_clip 13; probe_clip 13; probe_clip 13]
                 [13; 13; 13]).
  { repeat constructor. }
  split; [discriminate|]. split; [exact Hw|].
  destruct (concatenation_geometry Q
              [probe_clip 13; probe_clip 13; probe_clip 13] [13; 13; 13])
    as ((timeline & Hok & _ & _ & Hdur & _) & _); [discriminate | exact Hw |].
  exists timeline. split; [exact Hok|]. split.
  - rewrite Hdur. reflexivity.
  - inversion Hok. eexists. split; [reflexivity|]. split; reflexivity.
Defined.

(** The starts and the total are not the sums of the durations when the
    durations are floats. Three clips of 0.1 s: the loop leaves a total of
    0.30000000000000004, more than the three durations together. Eleven
    clips of 0.1 s: the loop starts clip 10 at 0.9999999999999999, so that
    at t = 1.0 it has started, while the ten durations before it together
    exceed 1. *)
Lemma concatenation_float_counterexample :
  let tenth := PyFloat f64_tenth in
  F64.div (F64.of_Z 1) (F64.of_Z 10) = f64_tenth
  /\ concatenate_times [tenth; tenth; tenth]
  = (PyFloat (S754_finite false 5404319552844596 (-54)),
     [PyInt 0; tenth; PyFloat (S754_finite false 7205759403792794 (-55))])
  /\ (py_value tenth + py_value tenth + py_value tenth
      < py_value (fst (concatenate_times [tenth; tenth; tenth])))%Q
  /\ nth_error (snd (concatenate_times (repeat tenth 11))) 10
     = Some (PyFloat (S754_finite false 9007199254740991 (-53)))
  /\ F64.leb (S754_finite false 9007199254740991 (-53)) f64_one = true
  /\ (F64.to_Q f64_one < inject_Z 10 * py_value tenth)%Q.
Proof.
  cbv zeta. split; [reflexivity|]. split; [reflexivity|].
  split; [reflexivity|]. split; [reflexivity|]. split; reflexivity.
Qed.

(** ** Empty input *)

(** C4, as the code has it. Called with no clip, [concatenate_videoclips]
    fails with Python's IndexError, raised when it reads the size of the
    first clip, and returns no timeline; with at least one clip it returns
    a timeline. The explicit check for empty input is in the main block: it
    exits with a message when no question was parsed, and calls the
    concatenation on one clip per question otherwise. *)
Theorem empty_input_fails (Frame Question : Type)
    (make_quiz_clip : Question -> Clip Frame) :
  concatenate_videoclips (@nil (Clip Frame)) = Raise IndexError
  /\ (forall (c : Clip Frame) (clips : list (Clip Frame)),
        exists timeline, concatenate_videoclips (c :: clips) = Ok timeline)
  /\ main_final_clip make_quiz_clip []
     = Raise (SystemExit "No valid questions were entered.")
  /\ (forall (q : Question) (qs : list Question),
        main_final_clip make_quiz_clip (q :: qs)
        = concatenate_videoclips (map make_quiz_clip (q :: qs))).
Proof.
  split; [reflexivity|]. split; [|split; [reflexivity|]].
  - intros c clips. unfold concatenate_videoclips.
    rewrite concatenate_fold. eauto.
  - intros q qs. reflexivity.
Qed.

(** The error of the empty call is not the EmptyInputError of the design. *)
Lemma empty_input_counterexample :
  concatenate_videoclips (@nil (Clip Q)) = Raise IndexError
  /\ concatenate_videoclips (@nil (Clip Q)) <> Raise EmptyInputError.
Proof. split; [reflexivity | discriminate]. Qed.

(* ================================================================== *)
(** * Part III: further properties of the text fitter *)
(* ================================================================== *)

Section BreakWordGreedy.

Variable getbbox : Font -> string -> BBox.
Variable font : Font.
Variable max_width : Z.

Local Abbreviation width := (bbox_width getbbox font).
Local Abbreviation greedy := (greedy_segments getbbox font max_width).
Local Abbreviation step := (break_word_step getbbox font max_width).

Lemma greedy_grow_last (l : list string) (a b : string) :
  a <> "" -> greedy (l ++ [a]) -> greedy (l ++ [(a ++ b)%string]).
Proof.
  intros Ha. induction l as [|x l IH]; intro H; [exact I|].
  destruct l as [|y l].
  - simpl in *. destruct H as [(c & tl & E & Hw) _]. split; [|exact I].
    subst a. exists c, (tl ++ b)%string. split; [reflexivity | exact Hw].
  - change (greedy (x :: (y :: l) ++ [(a ++ b)%string])).
    change (greedy (x :: (y :: l) ++ [a])) in H.
    simpl in H. destruct H as [H1 H2]. simpl. split; [exact H1|].
    apply IH. exact H2.
Qed.

Lemma greedy_snoc (l : list string) (a : string) (c : ascii) :
  greedy (l ++ [a]) -> width (a ++ String c "") > max_width ->
  greedy ((l ++ [a]) ++ [String c ""]).
Proof.
  intros H Hw. induction l as [|x l IH].
  - simpl. split; [|exact I]. exists c, "". split; [reflexivity | exact Hw].
  - destruct l as [|y l].
    + simpl in *. destruct H as [H1 _]. split; [exact H1|]. split; [|exact I].
      exists c, "". split; [reflexivity | exact Hw].
    + change (greedy (x :: ((y :: l) ++ [a]) ++ [String c ""])).
      change (greedy (x :: (y :: l) ++ [a])) in H.
      simpl in H. destruct H as [H1 H2]. simpl. split; [exact H1|].
      apply IH. exact H2.
Qed.

(** Loop invariant: the pending segment is empty only before the first
    character, and the segments with the pending one are greedy. *)
Lemma break_word_step_greedy (st : list string * string) (c : ascii) :
  (snd st = "" -> fst st = []) ->
  greedy (flush st) ->
  snd (step st c) <> "" /\ greedy (flush (step st c)).
Proof.
  destruct st as [segs cur]. unfold break_word_step, flush. simpl.
  intros Hempty Hg.
  destruct (width (cur ++ String c "") <=? max_width) eqn:Efit; simpl.
  - split; [destruct cur; discriminate|].
    rewrite truthy_app_r by reflexivity.
    destruct (PyStr.truthy cur) eqn:Ec.
    + apply greedy_grow_last; [now apply truthy_true | exact Hg].
    + apply truthy_false in Ec. subst cur. rewrite (Hempty eq_refl). exact I.
  - split; [discriminate|].
    destruct (PyStr.truthy cur) eqn:Ec.
    + apply greedy_snoc; [exact Hg|]. apply Z.leb_gt in Efit. lia.
    + apply truthy_false in Ec. subst cur. rewrite (Hempty eq_refl). exact I.
Qed.

Lemma break_word_fold_greedy (cs : list ascii) (st : list string * string) :
  (snd st = "" -> fst st = []) ->
  greedy (flush st) ->
  greedy (flush (fold_left step cs st)).
Proof.
  revert st. induction cs as [|c cs IH]; intros st He Hg; simpl; [exact Hg|].
  destruct (break_word_step_greedy st c He Hg) as [Hne Hg'].
  apply IH; [|exact Hg']. intro E. contradiction.
Qed.

End BreakWordGreedy.

(** X1. The segments of [break_word] are the longest runs that fit, taken
    greedily from the left: whenever a segment is followed by another, the
    segment extended by the first character of the next one is wider than
    [max_width]. *)
Theorem break_word_greedy (getbbox : Font -> string -> BBox) (word : string)
    (font : Font) (max_width : Z) :
  greedy_segments getbbox font max_width
    (break_word getbbox word font max_width).
Proof.
  rewrite break_word_flush. apply break_word_fold_greedy.
  - reflexivity.
  - exact I.
Qed.

Section WrapFit.

Variable getbbox : Font -> string -> BBox.
Variable font : Font.
Variable max_width : Z.

Local Abbreviation ok := (segment_ok getbbox font max_width).

Lemma word_pieces_ok (word : string) :
  PyStr.truthy word = true ->
  Forall ok (word_pieces getbbox font max_width word).
Proof.
  intro Hw. unfold word_pieces.
  destruct (Z.gtb_spec (bbox_width getbbox font word) max_width) as [Hgt|Hle].
  - apply break_word_segments.
  - constructor; [|constructor]. split; [now apply truthy_true | now left].
Qed.

Lemma wrap_words_ok (text : string) :
  Forall ok (wrap_words getbbox text font max_width).
Proof.
  rewrite wrap_words_flat_map.
  pose proof (split_truthy text) as H.
  induction H as [|w ws Hw _ IH]; simpl; [constructor|].
  apply Forall_app. split; [now apply word_pieces_ok | exact IH].
Qed.

Lemma wrap_lines_step_ok (st : list string * string) (w : string) :
  ok w -> Forall ok (fst st) -> (snd st = "" \/ ok (snd st)) ->
  Forall ok (fst (wrap_lines_step getbbox font max_width st w))
  /\ ok (snd (wrap_lines_step getbbox font max_width st w)).
Proof.
  intros Hw Hl Hc. destruct st as [lines cur]. unfold wrap_lines_step.
  simpl in *.
  destruct (_ <=? max_width) eqn:Efit; simpl.
  - split; [exact Hl|]. split.
    + destruct Hw as [Hne _]. intro E.
      destruct cur; simpl in E; [contradiction | discriminate].
    + left. now apply Z.leb_le.
  - split; [|exact Hw].
    destruct (PyStr.truthy cur) eqn:Ec; [|exact Hl].
    apply Forall_app. split; [exact Hl|]. constructor; [|constructor].
    destruct Hc as [Hc|Hc]; [|exact Hc]. subst. discriminate.
Qed.

Lemma wrap_lines_fold_ok (ws : list string) :
  Forall ok ws ->
  forall st : list string * string,
  Forall ok (fst st) -> (snd st = "" \/ ok (snd st)) ->
  Forall ok (flush (fold_left (wrap_lines_step getbbox font max_width) ws st)).
Proof.
  induction 1 as [|w ws Hw _ IH]; intros st Hl Hc; simpl.
  - unfold flush. destruct (PyStr.truthy (snd st)) eqn:E; [|exact Hl].
    apply Forall_app. split; [exact Hl|]. constructor; [|constructor].
    destruct Hc as [Hc|Hc]; [|exact Hc]. rewrite Hc in E. discriminate.
  - destruct (wrap_lines_step_ok st w Hw Hl Hc) as [Hl' Hc'].
    apply IH; [exact Hl' | now right].
Qed.

End WrapFit.

Lemma wrapped_lines_ok (getbbox : Font -> string -> BBox)
    (region : Region) (text : string) (font : Font) :
  Forall (segment_ok getbbox font (r_x2 region - r_x1 region))
    (wrapped_lines getbbox region text font).
Proof.
  unfold wrapped_lines.
  rewrite wrap_lines_flush. apply wrap_lines_fold_ok.
  - apply wrap_words_ok.
  - constructor.
  - now left.
Qed.

(** X2. No overflow. Every line drawn by [draw_centered_wrapped_text] is
    non-empty and either fits the width of the region or is a single
    character (a glyph wider than the region). *)
Theorem wrapped_lines_fit (getbbox : Font -> string -> BBox)
    (region : Region) (text : string) (font : Font) (col : Color) :
  Forall (segment_ok getbbox font (r_x2 region - r_x1 region))
    (drawn_texts (draw_centered_wrapped_text getbbox region text font col)).
Proof.
  rewrite draw_centered_wrapped_text_lines. apply wrapped_lines_ok.
Qed.

Lemma split_nil_iff (text : string) :
  PyStr.split text = [] <-> without_whitespace text = "".
Proof.
  rewrite <- split_chars. split; [now intros ->|].
  pose proof (split_truthy text) as H.
  destruct (PyStr.split text) as [|w ws]; [reflexivity|].
  inversion H as [|? ? Hw _]; subst. intro E. exfalso.
  destruct w; [discriminate|].
  destruct ws; simpl in E; discriminate.
Qed.

Lemma wrap_lines_of_nil (getbbox : Font -> string -> BBox) (font : Font)
    (max_width : Z) (words : list string) :
  Forall (fun w => PyStr.truthy w = true) words ->
  (wrap_lines_of getbbox words font max_width = [] <-> words = []).
Proof.
  intro H. split; [|now intros ->].
  rewrite wrap_lines_flush.
  destruct words as [|w ws] using rev_ind; [reflexivity|].
  intro E. exfalso. rewrite fold_left_app in E. simpl in E.
  apply Forall_app in H. destruct H as [_ H]. inversion H; subst.
  now apply flush_step_not_nil in E.
Qed.

(** X3. Blank text. [draw_centered_wrapped_text] draws nothing exactly when
    the text has no character other than whitespace (the empty text
    included); any other text gives at least one line. *)
Theorem blank_text_draws_nothing (getbbox : Font -> string -> BBox)
    (region : Region) (text : string) (font : Font) (col : Color) :
  draw_centered_wrapped_text getbbox region text font col = []
  <-> without_whitespace text = "".
Proof.
  rewrite <- split_nil_iff.
  assert (Hd : draw_centered_wrapped_text getbbox region text font col = []
               <-> wrapped_lines getbbox region text font = []).
  { split; intro E.
    - rewrite <- (draw_centered_wrapped_text_lines getbbox region text font
                    col), E. reflexivity.
    - destruct region as [[[x1 y1] x2] y2].
      unfold draw_centered_wrapped_text. rewrite E. reflexivity. }
  rewrite Hd. unfold wrapped_lines.
  rewrite wrap_lines_of_nil by apply wrap_words_truthy.
  rewrite wrap_words_flat_map.
  split; [|now intros ->].
  pose proof (split_truthy text) as H.
  destruct (PyStr.split text) as [|w ws]; [reflexivity|].
  inversion H as [|? ? Hw _]; subst. simpl. intro E. exfalso.
  apply app_eq_nil in E. destruct E as [E _].
  unfold word_pieces in E.
  destruct (_ >? _); [|discriminate].
  apply break_word_nonempty in E; [exact E | now apply truthy_true].
Qed.

Lemma has_whitespace_app (a b : string) :
  has_whitespace (a ++ b) = has_whitespace a || has_whitespace b.
Proof.
  induction a as [|c a IH]; simpl; [reflexivity|].
  now rewrite IH, orb_assoc.
Qed.

Lemma split_from_app_clean (w cur rest : string) :
  has_whitespace w = false ->
  PyStr.split_from cur (w ++ rest) = PyStr.split_from (cur ++ w) rest.
Proof.
  revert cur. induction w as [|c w IH]; intros cur Hw; simpl.
  - now rewrite str_app_nil_r.
  - simpl in Hw. apply orb_false_iff in Hw. destruct Hw as [Hc Hw].
    rewrite Hc, IH by exact Hw. now rewrite str_app_assoc.
Qed.

(** Splitting clean words joined by single spaces gives the words back. *)
Lemma split_join (ws : list string) :
  Forall (fun w => PyStr.truthy w = true) ws ->
  Forall (fun w => has_whitespace w = false) ws ->
  PyStr.split (PyStr.join " " ws) = ws.
Proof.
  intros Ht Hc. unfold PyStr.split.
  induction ws as [|w ws IH]; [reflexivity|].
  inversion Ht as [|? ? Htw Ht']; inversion Hc as [|? ? Hcw Hc']; subst.
  destruct ws as [|w2 ws].
  - simpl PyStr.join. rewrite <- (str_app_nil_r w) at 1.
    rewrite split_from_app_clean by exact Hcw. simpl. now rewrite Htw.
  - change (PyStr.join " " (w :: w2 :: ws))
      with (w ++ " " ++ PyStr.join " " (w2 :: ws)).
    rewrite split_from_app_clean by exact Hcw. simpl.
    rewrite Htw. f_equal. apply IH; assumption.
Qed.

Lemma split_normalized (text : string) :
  PyStr.split (normalized_text text) = PyStr.split text.
Proof.
  apply split_join; [apply split_truthy|].
  apply split_from_clean. reflexivity.
Qed.

(** X4. Whitespace does not matter. Drawing a text and drawing its
    whitespace-normalized form (words separated by single spaces, no
    leading or trailing blank) give the same picture: runs of blanks, tabs
    and line breaks in the quiz text never change the rendering. *)
Theorem wrapping_ignores_whitespace (getbbox : Font -> string -> BBox)
    (region : Region) (text : string) (font : Font) (col : Color) :
  draw_centered_wrapped_text getbbox region (normalized_text text) font col
  = draw_centered_wrapped_text getbbox region text font col.
Proof.
  destruct region as [[[x1 y1] x2] y2].
  unfold draw_centered_wrapped_text, wrapped_lines, wrap_words.
  now rewrite split_normalized.
Qed.

Lemma nth_error_draw_lines (getbbox : Font -> string -> BBox)
    (x1 mw : Z) (font : Font) (col : Color) (lh sp : Z)
    (lines : list string) :
  forall (y : Z) (k : nat) (line : string),
  nth_error lines k = Some line ->
  nth_error (draw_lines getbbox x1 mw font col lh sp y lines) k
  = Some (DrawText (x1 + (mw - bbox_width getbbox font line) / 2,
                    y + Z.of_nat k * (lh + sp)) line font col).
Proof.
  induction lines as [|l lines IH]; intros y k line Hk.
  - destruct k; discriminate.
  - destruct k as [|k].
    + simpl in Hk. inversion Hk. subst. simpl.
      now rewrite Z.add_0_r.
    + simpl in Hk. cbn [draw_lines nth_error].
      rewrite (IH _ _ _ Hk). do 3 f_equal. lia.
Qed.

(** X5. Where the text lands. Line number k is drawn with its anchor at
    [x = x1 + (max_width - line_width) // 2] and
    [y = top + k * (line_height + 5)], where
    [top = y1 + ((y2 - y1) - total_height) // 2]. The widths and heights are
    measured without the offsets of [font.getbbox], which the anchor does
    not take back; so for the box the drawn text covers, with
    [(l, t, r, b) = font.getbbox(line)]: the free space right of the line
    minus the free space left of it is [-2 * l] or [1 - 2 * l] (the line is
    centred to within one pixel when [l] is 0, and is shifted right by [l]
    otherwise); and the free space
    below the last line minus the free space above the first is
    [line_height - b_last - t_first] or one more. *)
Theorem wrapped_text_placement (getbbox : Font -> string -> BBox)
    (x1 y1 x2 y2 : Z) (text : string) (font : Font) (col : Color) :
  let region := (x1, y1, x2, y2) in
  let lines := wrapped_lines getbbox region text font in
  let line_height := bbox_height getbbox font "Ay" in
  let n := Z.of_nat (List.length lines) in
  let total_height := n * line_height + (n - 1) * 5 in
  let top := y1 + ((y2 - y1) - total_height) / 2 in
  let anchor := fun (k : nat) (line : string) =>
    (x1 + ((x2 - x1) - bbox_width getbbox font line) / 2,
     top + Z.of_nat k * (line_height + 5)) in
  let covered := fun (k : nat) (line : string) =>
    textbbox getbbox (anchor k line) line font in
  (forall (k : nat) (line : string),
     nth_error lines k = Some line ->
     nth_error (draw_centered_wrapped_text getbbox region text font col) k
     = Some (DrawText (anchor k line) line font col)
     /\ 0 <= (x2 - r_x2 (covered k line)) - (r_x1 (covered k line) - x1)
             + 2 * r_x1 (getbbox font line) <= 1)
  /\ (forall (first last : string),
        nth_error lines 0 = Some first ->
        nth_error lines (List.length lines - 1)%nat = Some last ->
        0 <= (y2 - r_y2 (covered (List.length lines - 1)%nat last))
             - (r_y1 (covered 0%nat first) - y1)
             - (line_height - r_y2 (getbbox font last)
                - r_y1 (getbbox font first)) <= 1).
Proof.
  intros region lines line_height n total_height top anchor covered. split.
  - intros k line Hk. split.
    + unfold draw_centered_wrapped_text, region.
      fold region. fold lines. fold line_height.
      apply nth_error_draw_lines. exact Hk.
    + unfold covered, anchor, textbbox, bbox_width.
      destruct (getbbox font line) as [[[bl bt] br] bb].
      cbn [r_x1 r_x2 fst snd].
      pose proof (Z.div_mod (x2 - x1 - (br - bl)) 2 ltac:(lia)).
      pose proof (Z.mod_pos_bound (x2 - x1 - (br - bl)) 2 ltac:(lia)).
      lia.
  - intros first last Hfirst Hlast.
    assert (Hn : (0 < List.length lines)%nat).
    { destruct lines; [discriminate | simpl; lia]. }
    unfold covered, anchor, textbbox.
    destruct (getbbox font first) as [[[fl ft] fr] fb].
    destruct (getbbox font last) as [[[ll lt] lr] lb].
    cbn [r_y1 r_y2 fst snd].
    replace (Z.of_nat (List.length lines - 1)%nat) with (n - 1)
      by (unfold n; lia).
    pose proof (Z.div_mod (y2 - y1 - total_height) 2 ltac:(lia)).
    pose proof (Z.mod_pos_bound (y2 - y1 - total_height) 2 ltac:(lia)).
    unfold top. unfold total_height in *. nia.
Qed.

(** ** Font-size search, continued *)

Lemma adjust_font_size_loop_bounds (getbbox : Font -> string -> BBox)
    (text : string) (rw rh : Z) (fuel : nat) (size : Z) :
  Z.min 5 size <= adjust_font_size_loop getbbox fuel text size rw rh <= size.
Proof.
  revert size. induction fuel as [|fuel IH]; intro size; simpl; [lia|].
  destruct (Z.gtb_spec size 5); [|lia].
  destruct (text_fits getbbox text size rw rh); [lia|].
  specialize (IH (size - 1)). lia.
Qed.

(** X6. The search never leaves the range. For a [max_size] of at least 1
    (a font of size 0 or less cannot be loaded), also below the floor of 5:
    the size returned is at most [max_size] and at least the smaller of 5
    and [max_size]; a [max_size] of 5 or less is returned as it is, without
    any fitting test. *)
Theorem adjust_font_size_range (getbbox : Font -> string -> BBox)
    (text : string) (max_size region_width region_height : Z) :
  1 <= max_size ->
  let s := adjust_font_size getbbox text max_size region_width region_height in
  Z.min 5 max_size <= s <= max_size
  /\ (max_size <= 5 -> s = max_size).
Proof.
  intros _ s. pose proof (adjust_font_size_loop_bounds getbbox text region_width
                         region_height (Z.to_nat (max_size - 5)) max_size) as H.
  fold (adjust_font_size getbbox text max_size region_width region_height) in H.
  fold s in H. split; [exact H | lia].
Qed.

(** A [max_size] of 3, below the floor, and one of 45. *)
Lemma adjust_font_size_range_witness :
  1 <= 3
  /\ adjust_font_size mono_getbbox "hello" 3 100 100 = 3
  /\ 5 <= adjust_font_size mono_getbbox "hello" 45 100 100 <= 45.
Proof.
  split; [lia|]. split.
  - apply (adjust_font_size_range mono_getbbox "hello" 3 100 100); lia.
  - apply (adjust_font_size_range mono_getbbox "hello" 45 100 100). lia.
Defined.

Lemma adjust_font_size_loop_monotone (getbbox : Font -> string -> BBox)
    (textA textB : string) (rwA rhA rwB rhB : Z) :
  (forall k, text_fits getbbox textA k rwA rhA = true ->
             text_fits getbbox textB k rwB rhB = true) ->
  forall (fuel : nat) (size : Z),
  adjust_font_size_loop getbbox fuel textA size rwA rhA
  <= adjust_font_size_loop getbbox fuel textB size rwB rhB.
Proof.
  intros Himp. induction fuel as [|fuel IH]; intro size; simpl; [lia|].
  destruct (Z.gtb_spec size 5); [|lia].
  destruct (text_fits getbbox textA size rwA rhA) eqn:EA.
  - rewrite (Himp size EA). lia.
  - destruct (text_fits getbbox textB size rwB rhB).
    + pose proof (adjust_font_size_loop_bounds getbbox textA rwA rhA fuel
                    (size - 1)). lia.
    + apply IH.
Qed.

(** X7. The search is monotone. If at every size the first text in the
    first region fits only when the second text in the second region fits
    (a larger text, or a smaller region), then the size chosen for the
    first is at most the size chosen for the second. *)
Theorem adjust_font_size_monotone (getbbox : Font -> string -> BBox)
    (textA textB : string) (max_size rwA rhA rwB rhB : Z) :
  (forall k, text_fits getbbox textA k rwA rhA = true ->
             text_fits getbbox textB k rwB rhB = true) ->
  adjust_font_size getbbox textA max_size rwA rhA
  <= adjust_font_size getbbox textB max_size rwB rhB.
Proof.
  intro H. unfold adjust_font_size.
  now apply adjust_font_size_loop_monotone.
Qed.

(** The same text in a 100 x 100 and in a 150 x 150 region. *)
Lemma adjust_font_size_monotone_witness :
  (forall k, text_fits mono_getbbox "hello" k 100 100 = true ->
             text_fits mono_getbbox "hello" k 150 150 = true)
  /\ adjust_font_size mono_getbbox "hello" 45 100 100
     <= adjust_font_size mono_getbbox "hello" 45 150 150.
Proof.
  assert (H : forall k, text_fits mono_getbbox "hello" k 100 100 = true ->
                        text_fits mono_getbbox "hello" k 150 150 = true).
  { intros k. unfold text_fits. rewrite !andb_true_iff, !Z.leb_le. lia. }
  split; [exact H|].
  apply (adjust_font_size_monotone mono_getbbox "hello" "hello" 45
           100 100 150 150 H).
Defined.

(** ** Lines and boxes *)

Lemma draw_lines_inside (getbbox : Font -> string -> BBox)
    (x1 mw : Z) (font : Font) (col : Color) (lh sp : Z)
    (lines : list string) :
  Forall (segment_ok getbbox font mw) lines ->
  forall y : Z,
  Forall (line_inside getbbox x1 (x1 + mw))
    (draw_lines getbbox x1 mw font col lh sp y lines).
Proof.
  induction 1 as [|l lines [_ Hl] _ IH]; intro y; cbn [draw_lines];
    constructor.
  - cbn [line_inside]. destruct Hl as [Hfit|Hone]; [right | now left].
    replace (x1 + mw - x1) with mw by lia.
    unfold textbbox, bbox_width in *.
    destruct (getbbox font l) as [[[bl bt] br] bb].
    cbn [r_x1 r_x2 fst snd] in *.
    set (half := (mw - (br - bl)) / 2).
    split; [lia|]. split; lia.
  - apply IH.
Qed.

(** X8. Horizontal spill. Every line drawn by
    [draw_centered_wrapped_text], unless it is a single character, is at
    most as wide as the region; the box its drawn text covers lies between
    the left and right edges of the region exactly when the left bearing
    [font.getbbox(line)[0]] is at least [- (free // 2)] and at most
    [free - free // 2], [free] being the width of the region minus the
    measured width of the line. With a bearing of 0 the line is inside; a
    larger bearing than the free space on the right makes it spill. *)
Theorem wrapped_lines_inside (getbbox : Font -> string -> BBox)
    (x1 y1 x2 y2 : Z) (text : string) (font : Font) (col : Color) :
  Forall (line_inside getbbox x1 x2)
    (draw_centered_wrapped_text getbbox (x1, y1, x2, y2) text font col).
Proof.
  unfold draw_centered_wrapped_text.
  replace x2 with (x1 + (x2 - x1)) at 1 by lia.
  apply draw_lines_inside.
  apply (wrapped_lines_ok getbbox (x1, y1, x2, y2) text font).
Qed.

Lemma background_has_slot (getbbox : Font -> string -> BBox)
    (cfg : Config) (question_text a b c d : string) (k : Slot) :
  let L := compute_layout cfg in
  let bg := background_picture getbbox cfg question_text a b c d in
  In (draw_box cfg (slot_box L k)) bg
  /\ In (draw_label cfg (slot_box L k) (slot_label k)) bg
  /\ Forall (fun op => In op bg)
       (draw_centered_wrapped_text getbbox
          (text_region_of getbbox (slot_box L k))
          (option_text_of (slot_marker k) (slot_text a b c d k))
          option_font text_color).
Proof.
  intros L bg. unfold bg, background_picture. fold L.
  unfold opt_a_text_region, opt_b_text_region, opt_c_text_region,
    opt_d_text_region. fold L.
  split; [|split].
  - apply in_or_app. left. destruct k; cbn [In slot_box]; auto 10.
  - apply in_or_app. left.
    destruct k; cbn [In slot_box slot_label]; auto 10.
  - apply Forall_forall. intros op Hop.
    apply in_or_app. right. apply in_or_app. right.
    destruct k; cbn [slot_box slot_text] in Hop;
      unfold slot_marker in Hop; cbn [slot_letter] in Hop.
    + apply in_or_app. now left.
    + apply in_or_app. right. apply in_or_app. now left.
    + apply in_or_app. right. apply in_or_app. right.
      apply in_or_app. now left.
    + apply in_or_app. right. apply in_or_app. right.
      apply in_or_app. now right.
Qed.

(** X9. The highlight redraws its box. In both orientations the highlighted
    overlay of a slot is a green fill over exactly the region and corner
    radius of the box outlined on the background, followed only by drawing
    calls that the background also contains (the label of the slot and the
    wrapped option text, at the same positions): the overlay covers the box
    and restores its content, and touches nothing else. *)
Theorem highlight_matches_background (getbbox : Font -> string -> BBox)
    (ratio_input question_text a b c d : string) (k : Slot) :
  let cfg := main_config ratio_input in
  let L := compute_layout cfg in
  let bg := background_picture getbbox cfg question_text a b c d in
  exists rest : Picture,
    highlight_picture getbbox cfg a b c d (slot_box L k)
    = RoundedRectangle (slot_box L k) (box_radius L)
        (Some green_color) (Some green_color) 3 :: rest
    /\ In (RoundedRectangle (slot_box L k) (box_radius L)
             None (Some box_outline_color) 2) bg
    /\ Forall (fun op => In op bg) rest.
Proof.
  intros cfg L bg.
  destruct (background_has_slot getbbox cfg question_text a b c d k)
    as (Hbox & Hlabel & Htext).
  fold L in Hbox, Hlabel, Htext. fold bg in Hbox, Hlabel, Htext.
  unfold cfg, L. rewrite highlight_picture_slot. fold cfg. fold L.
  eexists. split; [reflexivity|]. split; [exact Hbox|].
  constructor; [exact Hlabel|].
  rewrite <- option_text_of_slot. exact Htext.
Qed.

(** X10. Text regions stay in their boxes. In both orientations the inner
    region of the question lies within the question box and is not
    degenerate; when the measured width of the label "X:" is not negative,
    the text region of every option lies within its option box. *)
Theorem text_regions_within_boxes (getbbox : Font -> string -> BBox)
    (ratio_input : string) :
  0 <= label_width getbbox ->
  let cfg := main_config ratio_input in
  let L := compute_layout cfg in
  region_within (question_inner_region cfg) (q_box_region L)
  /\ r_x1 (question_inner_region cfg) < r_x2 (question_inner_region cfg)
  /\ r_y1 (question_inner_region cfg) < r_y2 (question_inner_region cfg)
  /\ forall k : Slot,
       region_within (text_region_of getbbox (slot_box L k)) (slot_box L k).
Proof.
  intros Hlw cfg L. subst L cfg.
  destruct (main_config_cases ratio_input) as [-> | ->].
  - split; [|split; [|split]].
    + layout_unfold. cbv [region_within question_inner_region]. layout_unfold.
      lia.
    + cbv [question_inner_region]. layout_unfold. lia.
    + cbv [question_inner_region]. layout_unfold. lia.
    + intro k. destruct k; cbv [region_within text_region_of slot_box
        label_margin]; layout_unfold; lia.
  - split; [|split; [|split]].
    + layout_unfold. cbv [region_within question_inner_region]. layout_unfold.
      lia.
    + cbv [question_inner_region]. layout_unfold. lia.
    + cbv [question_inner_region]. layout_unfold. lia.
    + intro k. destruct k; cbv [region_within text_region_of slot_box
        label_margin]; layout_unfold; lia.
Qed.

Lemma text_regions_within_boxes_witness :
  0 <= label_width mono_getbbox
  /\ region_within
       (text_region_of mono_getbbox (opt_a_box (compute_layout wide_config)))
       (opt_a_box (compute_layout wide_config)).
Proof.
  assert (H : 0 <= label_width mono_getbbox) by (vm_compute; discriminate).
  split; [exact H|].
  destruct (text_regions_within_boxes mono_getbbox "1" H) as (_ & _ & _ & Hk).
  exact (Hk SlotA).
Defined.

(** ** Answer matching, continued *)

Ltac each_ascii c :=
  destruct c as [[] [] [] [] [] [] [] []]; vm_compute; reflexivity.

Lemma lower_char_idem (c : ascii) :
  PyStr.lower_char (PyStr.lower_char c) = PyStr.lower_char c.
Proof. each_ascii c. Qed.

Lemma isspace_lower_char (c : ascii) :
  PyStr.isspace (PyStr.lower_char c) = PyStr.isspace c.
Proof. each_ascii c. Qed.

Lemma lower_idem (s : string) : PyStr.lower (PyStr.lower s) = PyStr.lower s.
Proof.
  induction s as [|c s IH]; simpl; [reflexivity|].
  now rewrite lower_char_idem, IH.
Qed.

Lemma truthy_lower (s : string) :
  PyStr.truthy (PyStr.lower s) = PyStr.truthy s.
Proof. now destruct s. Qed.

Lemma lstrip_lower (s : string) :
  PyStr.lstrip (PyStr.lower s) = PyStr.lower (PyStr.lstrip s).
Proof.
  induction s as [|c s IH]; simpl; [reflexivity|].
  rewrite isspace_lower_char. now destruct (PyStr.isspace c).
Qed.

Lemma rstrip_lower (s : string) :
  PyStr.rstrip (PyStr.lower s) = PyStr.lower (PyStr.rstrip s).
Proof.
  induction s as [|c s IH]; simpl; [reflexivity|].
  rewrite IH, truthy_lower, isspace_lower_char.
  now destruct (negb (PyStr.truthy (PyStr.rstrip s)) && PyStr.isspace c).
Qed.

Lemma strip_lower (s : string) :
  PyStr.strip (PyStr.lower s) = PyStr.lower (PyStr.strip s).
Proof. unfold PyStr.strip. now rewrite lstrip_lower, rstrip_lower. Qed.

Lemma rstrip_idem (s : string) :
  PyStr.rstrip (PyStr.rstrip s) = PyStr.rstrip s.
Proof.
  induction s as [|c s IH]; simpl; [reflexivity|].
  destruct (negb (PyStr.truthy (PyStr.rstrip s)) && PyStr.isspace c) eqn:E;
    [reflexivity|].
  simpl. now rewrite IH, E.
Qed.

(** A stripped text is empty or begins with a character that is not
    whitespace. *)
Lemma lstrip_head (s : string) :
  match PyStr.lstrip s with
  | EmptyString => True
  | String c _ => PyStr.isspace c = false
  end.
Proof.
  induction s as [|c s IH]; simpl; [exact I|].
  destruct (PyStr.isspace c) eqn:E; [exact IH | exact E].
Qed.

Lemma rstrip_keeps_head (c : ascii) (s : string) :
  PyStr.isspace c = false ->
  PyStr.rstrip (String c s) = String c (PyStr.rstrip s).
Proof. intro H. simpl. now rewrite H, andb_false_r. Qed.

Lemma strip_idem (s : string) : PyStr.strip (PyStr.strip s) = PyStr.strip s.
Proof.
  unfold PyStr.strip. pose proof (lstrip_head s) as H.
  destruct (PyStr.lstrip s) as [|c t]; [reflexivity|].
  rewrite rstrip_keeps_head by exact H.
  cbn [PyStr.lstrip]. rewrite H.
  rewrite (rstrip_keeps_head c (PyStr.rstrip t)) by exact H.
  now rewrite rstrip_idem.
Qed.

(** X11. Answer matching ignores case and surrounding whitespace: the box
    found for an answer text is the box found for its lowercased form and
    for its stripped form. *)
Theorem find_answer_box_insensitive (L : Layout) (answer_text : string) :
  find_answer_box L (PyStr.lower answer_text) = find_answer_box L answer_text
  /\ find_answer_box L (PyStr.strip answer_text)
     = find_answer_box L answer_text.
Proof.
  unfold find_answer_box. split.
  - now rewrite lower_idem.
  - now rewrite <- strip_lower, strip_idem.
Qed.

(* ================================================================== *)
(** * Part IV: the quiz input *)
(* ================================================================== *)

(** Induction on strings two characters at a time. *)
Lemma string_pair_ind (P : string -> Prop) :
  P "" ->
  (forall c, P (String c "")) ->
  (forall c1 c2 s, P s -> P (String c2 s) -> P (String c1 (String c2 s))) ->
  forall s, P s.
Proof.
  intros H0 H1 H2.
  assert (H : forall s, P s /\ forall c, P (String c s)).
  { induction s as [|c s [IHa IHb]]; [split; [exact H0 | exact H1]|].
    split; [apply IHb|]. intro c0. apply H2; [exact IHa | apply IHb]. }
  intro s. apply H.
Qed.

Lemma linebreak_isspace (c : ascii) :
  PyText.is_linebreak c = true -> PyStr.isspace c = true.
Proof.
  destruct c as [[] [] [] [] [] [] [] []]; vm_compute; congruence.
Qed.

Lemma has_linebreak_app (a b : string) :
  has_linebreak (a ++ b) = has_linebreak a || has_linebreak b.
Proof.
  induction a as [|c a IH]; simpl; [reflexivity|].
  now rewrite IH, orb_assoc.
Qed.

Lemma splitlines_from_app_clean (w cur rest : string) :
  has_linebreak w = false ->
  PyText.splitlines_from cur (w ++ rest)
  = PyText.splitlines_from (cur ++ w) rest.
Proof.
  revert cur. induction w as [|c w IH]; intros cur Hw; simpl.
  - now rewrite str_app_nil_r.
  - simpl in Hw. apply orb_false_iff in Hw. destruct Hw as [Hc Hw].
    rewrite Hc, IH by exact Hw. now rewrite str_app_assoc.
Qed.

(** One step of [splitlines] at a line boundary. *)
Lemma splitlines_from_break (cur : string) (c : ascii) (s : string) :
  PyText.is_linebreak c = true ->
  PyText.splitlines_from cur (String c s)
  = cur :: PyText.splitlines_from ""
             (match s with
              | String c2 s' =>
                  if Ascii.eqb c PyText.CR && Ascii.eqb c2 PyText.LF
                  then s' else s
              | EmptyString => s
              end).
Proof.
  intro Hc. cbn [PyText.splitlines_from]. rewrite Hc.
  destruct s as [|c2 s']; [reflexivity|].
  now destruct (Ascii.eqb c PyText.CR && Ascii.eqb c2 PyText.LF).
Qed.

Lemma splitlines_from_newline (cur s : string) :
  PyText.splitlines_from cur (PyText.newline ++ s)
  = cur :: PyText.splitlines_from "" s.
Proof.
  unfold PyText.newline. cbn [append].
  rewrite splitlines_from_break by reflexivity.
  now destruct s.
Qed.

(** Lines of [splitlines] contain no line boundary. *)
Lemma splitlines_from_clean (s : string) :
  forall cur, has_linebreak cur = false ->
  Forall (fun l => has_linebreak l = false) (PyText.splitlines_from cur s).
Proof.
  induction s as [|c|c1 c2 s IHa IHb] using string_pair_ind; intros cur Hc.
  - simpl. destruct (PyStr.truthy cur); auto.
  - cbn [PyText.splitlines_from].
    destruct (PyText.is_linebreak c) eqn:E.
    + constructor; [exact Hc | constructor].
    + simpl. rewrite truthy_app_r by reflexivity.
      constructor; [|constructor].
      now rewrite has_linebreak_app, Hc; simpl; rewrite E.
  - destruct (PyText.is_linebreak c1) eqn:E.
    + rewrite splitlines_from_break by exact E.
      constructor; [exact Hc|].
      destruct (Ascii.eqb c1 PyText.CR && Ascii.eqb c2 PyText.LF);
        [apply IHa | apply IHb]; reflexivity.
    + cbn [PyText.splitlines_from]. rewrite E.
      apply IHb. now rewrite has_linebreak_app, Hc; simpl; rewrite E.
Qed.

(** Two texts separated by an empty line: the lines of the first, one or
    two empty lines, the lines of the second. *)
Lemma splitlines_from_empty_line (t1 t2 : string) :
  forall cur,
  exists blank,
    (blank = [""] \/ blank = [""; ""])
    /\ PyText.splitlines_from cur (t1 ++ empty_line ++ t2)
       = (PyText.splitlines_from cur t1 ++ blank ++ PyText.splitlines t2)%list.
Proof.
  assert (H0 : forall cur,
    exists blank,
      (blank = [""] \/ blank = [""; ""])
      /\ PyText.splitlines_from cur (empty_line ++ t2)
         = (PyText.splitlines_from cur "" ++ blank
            ++ PyText.splitlines t2)%list).
  { intro cur. unfold empty_line. rewrite str_app_assoc.
    rewrite !splitlines_from_newline. simpl.
    destruct (PyStr.truthy cur) eqn:E.
    - exists [""]. split; [now left | reflexivity].
    - apply truthy_false in E. subst.
      exists [""; ""]. split; [now right | reflexivity]. }
  induction t1 as [|c|c1 c2 s IHa IHb] using string_pair_ind; intro cur.
  - apply H0.
  - destruct (PyText.is_linebreak c) eqn:E.
    + change (String c "" ++ empty_line ++ t2)
        with (String c (empty_line ++ t2)).
      rewrite !splitlines_from_break by exact E.
      unfold empty_line at 1. rewrite str_app_assoc.
      unfold PyText.newline at 1. cbn [append].
      destruct (Ascii.eqb c PyText.CR && Ascii.eqb PyText.LF PyText.LF) eqn:Ecr.
      * rewrite splitlines_from_newline. simpl.
        exists [""]. split; [now left | reflexivity].
      * change (String PyText.LF (PyText.newline ++ t2))
          with (empty_line ++ t2).
        destruct (H0 "") as (blank & Hb & Heq). rewrite Heq. simpl.
        exists blank. split; [exact Hb | reflexivity].
    + change (String c "" ++ empty_line ++ t2)
        with (String c (empty_line ++ t2)).
      cbn [PyText.splitlines_from]. rewrite E.
      apply H0.
  - change (String c1 (String c2 s) ++ empty_line ++ t2)
      with (String c1 (String c2 (s ++ empty_line ++ t2))).
    destruct (PyText.is_linebreak c1) eqn:E.
    + rewrite !splitlines_from_break by exact E.
      destruct (Ascii.eqb c1 PyText.CR && Ascii.eqb c2 PyText.LF).
      * destruct (IHa "") as (blank & Hb & Heq). rewrite Heq.
        exists blank. split; [exact Hb | reflexivity].
      * change (String c2 (s ++ empty_line ++ t2))
          with (String c2 s ++ empty_line ++ t2).
        destruct (IHb "") as (blank & Hb & Heq). rewrite Heq.
        exists blank. split; [exact Hb | reflexivity].
    + cbn [PyText.splitlines_from]. rewrite E.
      change (String c2 (s ++ empty_line ++ t2))
        with (String c2 s ++ empty_line ++ t2).
      apply IHb.
Qed.

(** What the first loop of the parser has collected once the pending block
    is appended. *)
Lemma quiz_blocks_of_flush (lines : list string) :
  quiz_blocks_of lines
  = (fst (fold_left block_step lines ([], []))
     ++ (if list_truthy (snd (fold_left block_step lines ([], [])))
         then [snd (fold_left block_step lines ([], []))] else []))%list.
Proof.
  unfold quiz_blocks_of. destruct (fold_left _ _ _) as [bs cur]. simpl.
  destruct (list_truthy cur); [reflexivity | now rewrite app_nil_r].
Qed.

(** The blocks already closed are only carried along. *)
Lemma block_fold_prefix (lines : list string) :
  forall (bs : list (list string)) (cur : list string),
  fold_left block_step lines (bs, cur)
  = ((bs ++ fst (fold_left block_step lines ([], cur)))%list,
     snd (fold_left block_step lines ([], cur))).
Proof.
  induction lines as [|l lines IH]; intros bs cur; simpl.
  - now rewrite app_nil_r.
  - destruct (PyStr.strip l =? "")%string.
    + destruct (list_truthy cur).
      * rewrite IH. rewrite (IH ([] ++ [cur])%list).
        simpl. now rewrite <- app_assoc.
      * apply IH.
    + apply IH.
Qed.

(** An empty line closes the pending block and nothing else. *)
Lemma quiz_blocks_of_empty_line (l1 l2 : list string) :
  quiz_blocks_of (l1 ++ "" :: l2)
  = (quiz_blocks_of l1 ++ quiz_blocks_of l2)%list.
Proof.
  rewrite (quiz_blocks_of_flush (l1 ++ "" :: l2)), fold_left_app.
  rewrite (quiz_blocks_of_flush l1).
  destruct (fold_left block_step l1 ([], [])) as [bs cur]. simpl.
  change (PyStr.strip "" =? "")%string with true. cbv iota.
  destruct (list_truthy cur) eqn:E.
  - rewrite block_fold_prefix. simpl.
    rewrite (quiz_blocks_of_flush l2), <- !app_assoc. reflexivity.
  - destruct cur; [|discriminate].
    rewrite block_fold_prefix. simpl.
    rewrite (quiz_blocks_of_flush l2), app_nil_r, <- !app_assoc. reflexivity.
Qed.

Lemma questions_fold_acc (blocks : list (list string)) :
  forall acc : list Question,
  fold_left questions_step blocks acc
  = (acc ++ fold_left questions_step blocks [])%list.
Proof.
  induction blocks as [|b blocks IH]; intro acc; simpl.
  - now rewrite app_nil_r.
  - rewrite IH, (IH (questions_step [] b)). rewrite app_assoc. f_equal.
    unfold questions_step. destruct (_ <? 6); [now rewrite app_nil_r|].
    destruct b as [|? [|? [|? [|? [|? [|? ?]]]]]];
      now rewrite ?app_nil_r.
Qed.

Lemma parse_quiz_text_blocks_aux (t1 t2 : string) :
  parse_quiz_text (t1 ++ empty_line ++ t2)
  = (parse_quiz_text t1 ++ parse_quiz_text t2)%list.
Proof.
  unfold parse_quiz_text, quiz_blocks, PyText.splitlines.
  destruct (splitlines_from_empty_line t1 t2 "") as (blank & Hb & Heq).
  rewrite Heq.
  assert (Hblocks :
    quiz_blocks_of (PyText.splitlines_from "" t1 ++ blank
                    ++ PyText.splitlines t2)
    = (quiz_blocks_of (PyText.splitlines_from "" t1)
       ++ quiz_blocks_of (PyText.splitlines t2))%list).
  { destruct Hb as [-> | ->]; cbn [app].
    - apply quiz_blocks_of_empty_line.
    - rewrite quiz_blocks_of_empty_line.
      change ("" :: PyText.splitlines t2)
        with ([] ++ "" :: PyText.splitlines t2)%list.
      rewrite (quiz_blocks_of_empty_line [] (PyText.splitlines t2)).
      reflexivity. }
  rewrite Hblocks, fold_left_app, questions_fold_acc. reflexivity.
Qed.

(** X12. Questions are parsed block by block. Two texts separated by an
    empty line parse to the questions of the first followed by the
    questions of the second, whatever the texts are. *)
Theorem parse_quiz_text_blocks (t1 t2 : string) :
  parse_quiz_text (t1 ++ empty_line ++ t2)
  = (parse_quiz_text t1 ++ parse_quiz_text t2)%list.
Proof. apply parse_quiz_text_blocks_aux. Qed.

Lemma splitlines_join_clean (ls : list string) :
  Forall (fun l => l <> "" /\ has_linebreak l = false) ls ->
  PyText.splitlines (PyStr.join PyText.newline ls) = ls.
Proof.
  unfold PyText.splitlines.
  induction 1 as [|l ls [Hne Hc] _ IH]; [reflexivity|].
  destruct ls as [|l2 ls].
  - simpl PyStr.join. rewrite <- (str_app_nil_r l) at 1.
    rewrite splitlines_from_app_clean by exact Hc. simpl.
    apply truthy_true in Hne. now rewrite Hne.
  - change (PyStr.join PyText.newline (l :: l2 :: ls))
      with (l ++ PyText.newline ++ PyStr.join PyText.newline (l2 :: ls)).
    rewrite splitlines_from_app_clean by exact Hc.
    rewrite splitlines_from_newline. simpl append. now rewrite IH.
Qed.

Lemma block_fold_clean (ls : list string) :
  Forall (fun l => l <> "" /\ PyStr.strip l = l) ls ->
  forall (bs : list (list string)) (cur : list string),
  fold_left block_step ls (bs, cur) = (bs, (cur ++ ls)%list).
Proof.
  induction 1 as [|l ls [Hne Hs] _ IH]; intros bs cur; simpl.
  - now rewrite app_nil_r.
  - rewrite Hs. apply String.eqb_neq in Hne. rewrite Hne.
    rewrite IH, <- app_assoc. reflexivity.
Qed.

Lemma strip_head (s : string) (c : ascii) (r : string) :
  PyStr.strip s = String c r -> PyStr.isspace c = false.
Proof.
  unfold PyStr.strip. pose proof (lstrip_head s) as H.
  destruct (PyStr.lstrip s) as [|c' t]; [discriminate|].
  rewrite rstrip_keeps_head by exact H. intro E. now inversion E; subst.
Qed.

(** A non-empty text equal to its stripped form is left alone by both
    one-sided strips. *)
Lemma stripped_parts (s : string) :
  PyStr.strip s = s -> PyStr.lstrip s = s /\ PyStr.rstrip s = s.
Proof.
  intro Hs. split.
  - destruct s as [|c r]; [reflexivity|].
    simpl. now rewrite (strip_head _ _ _ Hs).
  - rewrite <- Hs at 1. unfold PyStr.strip. rewrite rstrip_idem. exact Hs.
Qed.

Lemma rstrip_app_truthy (a b : string) :
  PyStr.truthy (PyStr.rstrip b) = true ->
  PyStr.rstrip (a ++ b) = a ++ PyStr.rstrip b.
Proof.
  intro Hb. induction a as [|c a IH]; [reflexivity|].
  simpl. rewrite IH, truthy_app_r by exact Hb. reflexivity.
Qed.

Lemma answer_line_clean (ans : string) :
  clean_line ans ->
  ("Answer: " ++ ans <> "" /\ PyStr.strip ("Answer: " ++ ans) = "Answer: " ++ ans)
  /\ has_linebreak ("Answer: " ++ ans) = false
  /\ answer_of ("Answer: " ++ ans) = ans.
Proof.
  intros (Hne & Hs & Hlb).
  destruct (stripped_parts ans Hs) as [Hl Hr].
  assert (Ht : PyStr.truthy (PyStr.rstrip ans) = true)
    by (rewrite Hr; now apply truthy_true).
  split; [split; [discriminate|]|split].
  - unfold PyStr.strip. cbn [append PyStr.lstrip].
    change (PyStr.isspace "A") with false. cbv iota.
    change (String "A" (String "n" (String "s" (String "w" (String "e"
              (String "r" (String ":" (String " " ans))))))))
      with ("Answer: " ++ ans).
    now rewrite rstrip_app_truthy, Hr by exact Ht.
  - rewrite has_linebreak_app, Hlb. reflexivity.
  - unfold answer_of.
    assert (Hp : PyStr.startswith (PyStr.lower ("Answer: " ++ ans)) "answer:"
                 = true).
    { unfold PyStr.startswith. apply prefix_spec.
      exists (String " " (PyStr.lower ans)). reflexivity. }
    rewrite Hp. cbn [append PyStr.slice_from].
    unfold PyStr.strip. cbn [PyStr.lstrip].
    change (PyStr.isspace " ") with true. cbv iota.
    now rewrite Hl.
Qed.

Lemma parse_format_question (q : Question) :
  clean_question q -> parse_quiz_text (format_question q) = [q].
Proof.
  intro Hq. unfold clean_question in Hq.
  destruct q as [qq qa qb qc qd qans]. simpl in Hq.
  repeat match goal with
         | H : Forall _ (_ :: _) |- _ =>
             let H1 := fresh "Hc" in
             let H2 := fresh "Hr" in
             inversion H as [|? ? H1 H2]; subst; clear H
         end.
  destruct (answer_line_clean qans ltac:(assumption)) as ((Ha1 & Ha2) & Ha3 & Ha4).
  unfold parse_quiz_text, quiz_blocks, format_question, question_lines.
  cbn [question opt_a opt_b opt_c opt_d answer].
  rewrite splitlines_join_clean.
  - unfold quiz_blocks_of. rewrite block_fold_clean.
    + cbn [app list_truthy fold_left]. unfold questions_step.
      cbn [List.length]. change (Z.of_nat 6 <? 6) with false. cbv iota.
      cbn [app]. now rewrite Ha4.
    + repeat match goal with
             | H : clean_line _ |- _ => destruct H as (? & ? & ?)
             end.
      repeat (constructor; [split; assumption|]). constructor.
  - repeat match goal with
           | H : clean_line _ |- _ => destruct H as (? & ? & ?)
           end.
    repeat (constructor; [split; assumption|]). constructor.
Qed.

(** X13. Round trip of the input format. Questions whose question text,
    four options and answer are clean lines (not empty, no leading or
    trailing whitespace, no line boundary inside), written in the format of
    the docstring, six lines each with the answer after "Answer: ", and
    separated by empty lines, are parsed back to the same questions, in
    order. *)
Theorem parse_format_round_trip (qs : list Question) :
  Forall clean_question qs ->
  parse_quiz_text (PyStr.join empty_line (map format_question qs)) = qs.
Proof.
  induction 1 as [|q qs Hq Hqs IH]; [reflexivity|].
  destruct qs as [|q2 qs].
  - simpl. now apply parse_format_question.
  - change (PyStr.join empty_line (map format_question (q :: q2 :: qs)))
      with (format_question q ++ empty_line
            ++ PyStr.join empty_line (map format_question (q2 :: qs))).
    rewrite parse_quiz_text_blocks_aux, IH.
    now rewrite parse_format_question.
Qed.

Lemma parse_format_round_trip_witness :
  Forall clean_question [france_question; france_question]
  /\ parse_quiz_text
       (PyStr.join empty_line
          (map format_question [france_question; france_question]))
     = [france_question; france_question].
Proof.
  assert (H : Forall clean_question [france_question; france_question]).
  { assert (Hq : clean_question france_question).
    { unfold clean_question, france_question. simpl.
      repeat (constructor;
              [split; [discriminate | split; reflexivity]|]).
      constructor. }
    constructor; [exact Hq|]. constructor; [exact Hq|]. constructor. }
  split; [exact H|].
  apply (parse_format_round_trip [france_question; france_question] H).
Defined.

Lemma has_linebreak_lstrip (s : string) :
  has_linebreak s = false -> has_linebreak (PyStr.lstrip s) = false.
Proof.
  induction s as [|c s IH]; simpl; [reflexivity|].
  intro H. apply orb_false_iff in H. destruct H as [Hc Hs].
  destruct (PyStr.isspace c); [now apply IH|].
  simpl. now rewrite Hc, Hs.
Qed.

Lemma has_linebreak_rstrip (s : string) :
  has_linebreak s = false -> has_linebreak (PyStr.rstrip s) = false.
Proof.
  induction s as [|c s IH]; simpl; [reflexivity|].
  intro H. apply orb_false_iff in H. destruct H as [Hc Hs].
  destruct (negb (PyStr.truthy (PyStr.rstrip s)) && PyStr.isspace c);
    [reflexivity|].
  simpl. now rewrite Hc, IH.
Qed.

Lemma has_linebreak_strip (s : string) :
  has_linebreak s = false -> has_linebreak (PyStr.strip s) = false.
Proof.
  intro H. unfold PyStr.strip.
  now apply has_linebreak_rstrip, has_linebreak_lstrip.
Qed.

Lemma has_linebreak_slice (n : nat) (s : string) :
  has_linebreak s = false -> has_linebreak (PyStr.slice_from n s) = false.
Proof.
  revert s. induction n as [|n IH]; intros s H; [exact H|].
  destruct s as [|c s]; [reflexivity|].
  simpl in *. apply orb_false_iff in H. now apply IH.
Qed.

Lemma block_step_clean (st : list (list string) * list string)
    (raw : string) :
  has_linebreak raw = false ->
  Forall (Forall clean_line) (fst st) -> Forall clean_line (snd st) ->
  Forall (Forall clean_line) (fst (block_step st raw))
  /\ Forall clean_line (snd (block_step st raw)).
Proof.
  intros Hraw Hb Hc. destruct st as [bs cur]. unfold block_step. simpl in *.
  destruct (String.eqb_spec (PyStr.strip raw) "") as [E|E].
  - destruct (list_truthy cur); simpl; [|now split].
    split; [|constructor].
    apply Forall_app. split; [exact Hb | now constructor].
  - simpl. split; [exact Hb|].
    apply Forall_app. split; [exact Hc|]. constructor; [|constructor].
    split; [exact E|]. split; [apply strip_idem|].
    now apply has_linebreak_strip.
Qed.

Lemma quiz_blocks_clean (text : string) :
  Forall (Forall clean_line) (quiz_blocks text).
Proof.
  unfold quiz_blocks.
  pose proof (splitlines_from_clean text "" eq_refl) as Hl.
  fold (PyText.splitlines text) in Hl.
  assert (H : forall ls st,
    Forall (fun l => has_linebreak l = false) ls ->
    Forall (Forall clean_line) (fst st) -> Forall clean_line (snd st) ->
    Forall (Forall clean_line) (fst (fold_left block_step ls st))
    /\ Forall clean_line (snd (fold_left block_step ls st))).
  { induction ls as [|l ls IH]; intros st Hls Hb Hc; simpl; [now split|].
    inversion Hls; subst.
    destruct (block_step_clean st l) as [Hb' Hc']; try assumption.
    now apply IH. }
  destruct (H (PyText.splitlines text) ([], []) Hl) as [Hb Hc];
    [constructor | constructor |].
  rewrite quiz_blocks_of_flush. apply Forall_app. split; [exact Hb|].
  destruct (list_truthy _); [now constructor | constructor].
Qed.

Lemma answer_of_clean (answer_line : string) :
  has_linebreak answer_line = false ->
  PyStr.strip (answer_of answer_line) = answer_of answer_line
  /\ has_linebreak (answer_of answer_line) = false.
Proof.
  intro H. unfold answer_of.
  destruct (PyStr.startswith _ _); split;
    try apply strip_idem; apply has_linebreak_strip;
    [now apply has_linebreak_slice | exact H].
Qed.

(** X14. What the parser returns. In every question returned by
    [parse_quiz_text] the question text and the four options are clean
    lines (not empty, without leading or trailing whitespace, without a
    line boundary); the answer has no leading or trailing whitespace and no
    line boundary, and may be empty. *)
Theorem parse_quiz_text_clean (text : string) :
  Forall parsed_question_ok (parse_quiz_text text).
Proof.
  unfold parse_quiz_text.
  assert (H : forall blocks acc,
    Forall (Forall clean_line) blocks ->
    Forall parsed_question_ok acc ->
    Forall parsed_question_ok (fold_left questions_step blocks acc)).
  { induction blocks as [|b blocks IH]; intros acc Hb Hacc; simpl;
      [exact Hacc|].
    inversion Hb as [|? ? Hb1 Hb2]; subst. apply IH; [exact Hb2|].
    unfold questions_step. destruct (_ <? 6); [exact Hacc|].
    destruct b as [|q [|a [|b [|c [|d [|al rest]]]]]]; try exact Hacc.
    apply Forall_app. split; [exact Hacc|]. constructor; [|constructor].
    repeat match goal with
           | H : Forall clean_line (_ :: _) |- _ =>
               let H1 := fresh "Hl" in
               let H2 := fresh "Hr" in
               inversion H as [|? ? H1 H2]; subst; clear H
           end.
    unfold parsed_question_ok. cbn [question opt_a opt_b opt_c opt_d answer].
    split; [repeat (constructor; [assumption|]); constructor|].
    apply answer_of_clean.
    match goal with H : clean_line al |- _ => apply H end. }
  apply H; [apply quiz_blocks_clean | constructor].
Qed.

(** ** Reading the input *)

Ltac each_ascii_open c :=
  destruct c as [[] [] [] [] [] [] [] []]; reflexivity.

Lemma upper_head_nil (c : ascii) (r : list Z) :
  PyText.codes_eqb (PyText.upper_char c ++ r) [] = false.
Proof. each_ascii_open c. Qed.

Lemma upper_head_D (c : ascii) (r t : list Z) :
  PyText.codes_eqb (PyText.upper_char c ++ r) (68 :: t)
  = Ascii.eqb (PyStr.lower_char c) "d" && PyText.codes_eqb r t.
Proof. each_ascii_open c. Qed.

Lemma upper_head_O (c : ascii) (r t : list Z) :
  PyText.codes_eqb (PyText.upper_char c ++ r) (79 :: t)
  = Ascii.eqb (PyStr.lower_char c) "o" && PyText.codes_eqb r t.
Proof. each_ascii_open c. Qed.

Lemma upper_head_N (c : ascii) (r t : list Z) :
  PyText.codes_eqb (PyText.upper_char c ++ r) (78 :: t)
  = Ascii.eqb (PyStr.lower_char c) "n" && PyText.codes_eqb r t.
Proof. each_ascii_open c. Qed.

Lemma upper_head_E (c : ascii) (r t : list Z) :
  PyText.codes_eqb (PyText.upper_char c ++ r) (69 :: t)
  = Ascii.eqb (PyStr.lower_char c) "e" && PyText.codes_eqb r t.
Proof. each_ascii_open c. Qed.

(** The end marker is the word "done" in any mix of cases, with any
    whitespace around it. *)
Lemma is_done_spec (line : string) :
  is_done line = (PyStr.lower (PyStr.strip line) =? "done")%string.
Proof.
  unfold is_done, PyText.upper, PyStr.chars.
  change (PyText.codes "DONE") with [68; 79; 78; 69].
  destruct (PyStr.strip line) as [|c1 [|c2 [|c3 [|c4 [|c5 s]]]]];
    cbn [list_ascii_of_string flat_map PyStr.lower String.eqb];
    rewrite ?upper_head_D, ?upper_head_O, ?upper_head_N, ?upper_head_E,
      ?upper_head_nil;
    cbn [app PyText.codes_eqb];
    repeat match goal with
           | |- context [Ascii.eqb ?x ?y] => destruct (Ascii.eqb x y)
           end;
    reflexivity.
Qed.

Lemma read_quiz_lines_spec (stdin : list string) :
  forall acc : list string,
  match read_quiz_lines stdin acc with
  | Some (lines, rest) =>
      exists pre d,
        stdin = (pre ++ d :: rest)%list
        /\ Forall (fun l => is_done l = false) pre
        /\ is_done d = true
        /\ lines = (acc ++ pre)%list
  | None => Forall (fun l => is_done l = false) stdin
  end.
Proof.
  induction stdin as [|l stdin IH]; intro acc; simpl; [constructor|].
  destruct (is_done l) eqn:E.
  - exists [], l. rewrite app_nil_r. now repeat split.
  - specialize (IH (acc ++ [l])%list).
    destruct (read_quiz_lines stdin (acc ++ [l])) as [[lines rest]|].
    + destruct IH as (pre & d & H1 & H2 & H3 & H4).
      exists (l :: pre), d. subst. rewrite <- app_assoc.
      repeat split; auto.
    + now constructor.
Qed.

(** X15. Reading stops at the first end marker. When [get_quiz_input]
    returns, the input consumed is a run of lines none of which is an end
    marker, followed by one end marker; the text returned is that run joined
    by newlines, and the lines after the marker are left unread. It fails
    with the end of the input exactly when no line is an end marker. An end
    marker is a line whose stripped, lowercased form is "done". *)
Theorem get_quiz_input_spec (stdin : list string) :
  (forall line,
     is_done line = (PyStr.lower (PyStr.strip line) =? "done")%string)
  /\ match get_quiz_input stdin with
     | Some (text, rest) =>
         exists pre d,
           stdin = (pre ++ d :: rest)%list
           /\ Forall (fun l => is_done l = false) pre
           /\ is_done d = true
           /\ text = PyStr.join PyText.newline pre
     | None => Forall (fun l => is_done l = false) stdin
     end.
Proof.
  split; [apply is_done_spec|].
  unfold get_quiz_input.
  pose proof (read_quiz_lines_spec stdin []) as H.
  destruct (read_quiz_lines stdin []) as [[lines rest]|]; [|exact H].
  destruct H as (pre & d & H1 & H2 & H3 & H4).
  exists pre, d. subst. now repeat split.
Qed.

(** ** From the keyboard to the questions *)

Lemma read_quiz_lines_run (pre : list string) (d : string)
    (rest : list string) :
  Forall (fun l => is_done l = false) pre -> is_done d = true ->
  forall acc,
  read_quiz_lines (pre ++ d :: rest) acc = Some ((acc ++ pre)%list, rest).
Proof.
  intros Hpre Hd. induction Hpre as [|l pre Hl _ IH]; intro acc; simpl.
  - now rewrite Hd, app_nil_r.
  - rewrite Hl, IH, <- app_assoc. reflexivity.
Qed.

(** Joining lines by newlines and splitting them again loses at most one
    empty line at the end. *)
Lemma splitlines_join_general (ls : list string) :
  Forall (fun l => has_linebreak l = false) ls ->
  PyText.splitlines (PyStr.join PyText.newline ls) = ls
  \/ exists ls',
       ls = (ls' ++ [""])%list
       /\ PyText.splitlines (PyStr.join PyText.newline ls) = ls'.
Proof.
  unfold PyText.splitlines.
  induction 1 as [|l ls Hl _ IH]; [now left|].
  destruct ls as [|l2 ls].
  - simpl PyStr.join.
    assert (E : PyText.splitlines_from "" l
                = if PyStr.truthy l then [l] else []).
    { rewrite <- (str_app_nil_r l) at 1.
      now rewrite splitlines_from_app_clean by exact Hl. }
    rewrite E. destruct l; simpl; [right; now exists [] | now left].
  - change (PyStr.join PyText.newline (l :: l2 :: ls))
      with (l ++ PyText.newline ++ PyStr.join PyText.newline (l2 :: ls)).
    rewrite splitlines_from_app_clean by exact Hl.
    rewrite splitlines_from_newline. simpl append.
    destruct IH as [IH | (ls' & E & IH)]; rewrite IH.
    + now left.
    + right. exists (l :: ls'). rewrite E. now split.
Qed.

(** The parser sees in the joined text the blocks of the lines. *)
Lemma quiz_blocks_joined (ls : list string) :
  Forall (fun l => has_linebreak l = false) ls ->
  quiz_blocks (PyStr.join PyText.newline ls) = quiz_blocks_of ls.
Proof.
  intro H. unfold quiz_blocks.
  destruct (splitlines_join_general ls H) as [E | (ls' & E1 & E2)].
  - now rewrite E.
  - rewrite E2, E1, quiz_blocks_of_empty_line.
    change (quiz_blocks_of []) with (@nil (list string)).
    now rewrite app_nil_r.
Qed.

Lemma question_lines_clean (q : Question) :
  clean_question q ->
  Forall (fun l => l <> "" /\ PyStr.strip l = l) (question_lines q)
  /\ Forall (fun l => has_linebreak l = false) (question_lines q)
  /\ questions_step [] (question_lines q) = [q].
Proof.
  intro Hq. unfold clean_question in Hq.
  destruct q as [qq qa qb qc qd qans]. simpl in Hq.
  repeat match goal with
         | H : Forall _ (_ :: _) |- _ =>
             let H1 := fresh "Hc" in
             let H2 := fresh "Hr" in
             inversion H as [|? ? H1 H2]; subst; clear H
         end.
  destruct (answer_line_clean qans ltac:(assumption))
    as ((Ha1 & Ha2) & Ha3 & Ha4).
  unfold question_lines. cbn [question opt_a opt_b opt_c opt_d answer].
  repeat match goal with
         | H : clean_line _ |- _ => destruct H as (? & ? & ?)
         end.
  split; [|split].
  - repeat (constructor; [split; assumption|]). constructor.
  - repeat (constructor; [assumption|]). constructor.
  - unfold questions_step. cbn [List.length].
    change (Z.of_nat 6 <? 6) with false. cbv iota.
    cbn [app]. now rewrite Ha4.
Qed.

Lemma typed_lines_blocks (qs : list Question) :
  Forall clean_question qs ->
  Forall (fun l => has_linebreak l = false) (typed_lines qs)
  /\ fold_left questions_step (quiz_blocks_of (typed_lines qs)) [] = qs.
Proof.
  induction 1 as [|q qs Hq _ [IH1 IH2]]; [split; [constructor | reflexivity]|].
  destruct (question_lines_clean q Hq) as (Hs & Hl & Hstep).
  unfold typed_lines. cbn [flat_map]. fold (typed_lines qs).
  split.
  - rewrite <- app_assoc. apply Forall_app. split; [exact Hl|].
    constructor; [reflexivity | exact IH1].
  - rewrite <- app_assoc. cbn [app].
    assert (Hb : quiz_blocks_of (question_lines q) = [question_lines q]).
    { unfold quiz_blocks_of. rewrite block_fold_clean by exact Hs.
      reflexivity. }
    rewrite quiz_blocks_of_empty_line, fold_left_app, Hb.
    cbn [fold_left]. rewrite Hstep.
    rewrite questions_fold_acc, IH2. reflexivity.
Qed.

(** X16. From the keyboard to the questions. When clean questions are typed
    in the format of the docstring, each followed by an empty line, then
    DONE, and none of the typed lines is itself an end marker,
    [get_quiz_input] returns a text that [parse_quiz_text] turns into
    exactly these questions, in order; what follows DONE stays unread. *)
Theorem typed_questions_parsed (qs : list Question) (rest : list string) :
  Forall clean_question qs ->
  Forall (fun l => is_done l = false) (typed_lines qs) ->
  exists text : string,
    get_quiz_input (typed_lines qs ++ "DONE" :: rest) = Some (text, rest)
    /\ parse_quiz_text text = qs.
Proof.
  intros Hq Hnd. destruct (typed_lines_blocks qs Hq) as [Hl Hp].
  exists (PyStr.join PyText.newline (typed_lines qs)). split.
  - unfold get_quiz_input.
    now rewrite (read_quiz_lines_run (typed_lines qs) "DONE" rest Hnd eq_refl).
  - unfold parse_quiz_text. now rewrite quiz_blocks_joined.
Qed.

Lemma typed_questions_parsed_witness :
  Forall clean_question [france_question]
  /\ Forall (fun l => is_done l = false) (typed_lines [france_question])
  /\ exists text : string,
       get_quiz_input (typed_lines [france_question] ++ "DONE" :: ["x"])
       = Some (text, ["x"])
       /\ parse_quiz_text text = [france_question].
Proof.
  assert (Hq : Forall clean_question [france_question]).
  { constructor; [|constructor].
    unfold clean_question, france_question. simpl.
    repeat (constructor; [split; [discriminate | split; reflexivity]|]).
    constructor. }
  assert (Hd : Forall (fun l => is_done l = false)
                 (typed_lines [france_question])).
  { repeat (constructor; [reflexivity|]). constructor. }
  split; [exact Hq|]. split; [exact Hd|].
  apply (typed_questions_parsed [france_question] ["x"] Hq Hd).
Defined.

(* ================================================================== *)
(** * Part V: fading, the clip of a question, the final video *)
(* ================================================================== *)

Lemma fade_pixel_zero (f : Q) (ic p : QRGB) :
  (f == 0)%Q -> qrgb_eq (fade_pixel f ic p) ic.
Proof.
  intro H. destruct ic as [[ir ig] ib], p as [[r g] b].
  unfold qrgb_eq, fade_pixel. rewrite H. repeat split; ring.
Qed.

(** X17. Fade-in: the two ends. From time [duration] on the frame of the
    clip is returned unchanged. At [t = 0], with a positive duration, the
    frame has the shape of the clip's frame and every pixel is the initial
    colour: the weight [t / duration] is 0, and the mix
    [0 * pixel + (1 - 0) * initial_color] is the initial colour itself, with
    nothing to round. The frames are colour frames (the clip is not a
    mask). *)
Theorem FadeIn_filter_spec (duration : Q) (initial_color : QRGB)
    (get_frame : Q -> Array2 QRGB) (t : Q) :
  let out := FadeIn_filter duration initial_color get_frame t in
  ((duration <= t)%Q -> out = Some (get_frame t))
  /\ ((0 < duration)%Q -> (t == 0)%Q ->
      exists frame,
        out = Some frame
        /\ forall i j : nat,
             match pixel_at (get_frame t) i j with
             | Some p =>
                 exists p',
                   pixel_at frame i j = Some p'
                   /\ qrgb_eq p' initial_color
             | None => pixel_at frame i j = None
             end).
Proof.
  intro out. unfold out, FadeIn_filter. split.
  - intro Hle. apply Qle_bool_iff in Hle. now rewrite Hle.
  - intros Hd Ht.
    destruct (Qle_bool duration t) eqn:Ele.
    { apply Qle_bool_iff in Ele. lra. }
    destruct (Qeq_bool duration 0) eqn:Eeq.
    { apply Qeq_bool_iff in Eeq. lra. }
    eexists. split; [reflexivity|].
    intros i j. rewrite pixel_at_map2d.
    destruct (pixel_at (get_frame t) i j) as [p|]; [|reflexivity].
    eexists. split; [reflexivity|].
    apply fade_pixel_zero. rewrite Ht. unfold Qdiv. ring.
Qed.

(** The first frame of a one-second fade from black. *)
Lemma FadeIn_filter_spec_witness :
  (0 < 1)%Q /\ (0 == 0)%Q
  /\ exists frame,
       FadeIn_filter 1 (0, 0, 0)%Q (fun _ => [[(200, 100, 50)%Q]]) 0
       = Some frame
       /\ exists p, pixel_at frame 0 0 = Some p /\ qrgb_eq p (0, 0, 0)%Q.
Proof.
  assert (H1 : (0 < 1)%Q) by reflexivity.
  assert (H2 : (0 == 0)%Q) by reflexivity.
  split; [exact H1|]. split; [exact H2|].
  destruct (FadeIn_filter_spec 1 (0, 0, 0)%Q (fun _ => [[(200, 100, 50)%Q]])
              0) as (_ & H).
  destruct (H H1 H2) as (frame & Hf & Hp).
  exists frame. split; [exact Hf|]. exact (Hp 0%nat 0%nat).
Defined.

(** ** Concatenation, continued *)

Section ClipFactsMore.

Variable Frame : Type.
Implicit Types (clips : list (Clip Frame)) (c : Clip Frame) (s t : Q).

Local Open Scope Q_scope.

(** After the last end nothing plays. *)
Lemma playing_after clips s t (k0 : nat) :
  Forall (fun c => 0 <= clip_duration c) clips ->
  s <= t -> end_time s clips <= t ->
  playing_from k0 (laid_out s clips) t = [].
Proof.
  intro H. revert s k0.
  induction H as [|c clips Hc Hrest IH]; intros s k0 Hs Ht; simpl;
    [reflexivity|].
  simpl in Ht.
  pose proof (end_time_le Frame clips (s + clip_duration c) Hrest) as Hle.
  assert (E : is_playing (with_start c s) t = false)
    by (apply is_playing_false; simpl; lra).
  rewrite E. apply IH; lra.
Qed.

Lemma concatenate_ok clips (timeline : Composite Frame) :
  concatenate_videoclips clips = Ok timeline ->
  layers timeline = laid_out 0 clips
  /\ comp_duration timeline = end_time 0 clips.
Proof.
  unfold concatenate_videoclips. rewrite concatenate_fold.
  destruct clips as [|c0 rest]; [discriminate|].
  intro H. inversion H. now split.
Qed.

Lemma laid_out_app (xs ys : list (Clip Frame)) s :
  laid_out s (xs ++ ys)
  = (laid_out s xs ++ laid_out (end_time s xs) ys)%list.
Proof.
  revert s. induction xs as [|x xs IH]; intro s; simpl; [reflexivity|].
  now rewrite IH.
Qed.

Lemma end_time_app (xs ys : list (Clip Frame)) s :
  end_time s (xs ++ ys) = end_time (end_time s xs) ys.
Proof.
  revert s. induction xs as [|x xs IH]; intro s; simpl; [reflexivity|].
  apply IH.
Qed.

(** Laying the same clips out from another start shifts every start by the
    difference and changes nothing else. *)
Lemma laid_out_shift (ys : list (Clip Frame)) :
  forall s s' : Q,
  Forall2 (fun l l' =>
             clip_start l == clip_start l' + (s - s')
             /\ clip_duration l = clip_duration l'
             /\ clip_size l = clip_size l'
             /\ get_frame l = get_frame l')
          (laid_out s ys) (laid_out s' ys).
Proof.
  induction ys as [|y ys IH]; intros s s'; simpl; constructor.
  - simpl. repeat split; lra.
  - eapply Forall2_impl; [|apply (IH (s + clip_duration y)
                                     (s' + clip_duration y))].
    intros l l' (H1 & H2 & H3 & H4). repeat split; try assumption.
    rewrite H1. lra.
Qed.

End ClipFactsMore.

(** X18. Nothing plays outside the timeline. When no clip has a negative
    duration, the concatenated timeline plays no layer before time 0 and
    none at or after its total duration. *)
Theorem concatenation_outside (Frame : Type) (clips : list (Clip Frame))
    (timeline : Composite Frame) (t : Q) :
  Forall (fun c => (0 <= clip_duration c)%Q) clips ->
  concatenate_videoclips clips = Ok timeline ->
  (t < 0)%Q \/ (comp_duration timeline <= t)%Q ->
  playing timeline t = [] /\ sampled_frames timeline t = [].
Proof.
  intros Hpos Hok Ht.
  destruct (concatenate_ok Frame clips timeline Hok) as [Hl Hd].
  assert (Hp : playing timeline t = []).
  { unfold playing. rewrite Hl. destruct Ht as [Ht|Ht].
    - now apply playing_before.
    - rewrite Hd in Ht.
      pose proof (end_time_le Frame clips 0 Hpos).
      apply playing_after; [exact Hpos | lra | exact Ht]. }
  split; [exact Hp|]. unfold sampled_frames. now rewrite Hp.
Qed.

Lemma concatenation_outside_witness :
  Forall (fun c => (0 <= clip_duration c)%Q) [probe_clip 13; probe_clip 13]
  /\ concatenate_videoclips [probe_clip 13; probe_clip 13]
     = Ok (mkComposite [with_start (probe_clip 13) 0;
                        with_start (probe_clip 13) (0 + 13)]
             (1280, 720) (0 + 13 + 13))
  /\ ((-1 # 1) < 0 \/ 0 + 13 + 13 <= (-1 # 1))%Q
  /\ playing (mkComposite [with_start (probe_clip 13) 0;
                           with_start (probe_clip 13) (0 + 13)]
                (1280, 720) (0 + 13 + 13)) (-1 # 1) = [].
Proof.
  assert (H1 : Forall (fun c => (0 <= clip_duration c)%Q)
                 [probe_clip 13; probe_clip 13]).
  { repeat constructor; discriminate. }
  assert (H3 : ((-1 # 1) < 0 \/ 0 + 13 + 13 <= (-1 # 1))%Q)
    by (left; reflexivity).
  split; [exact H1|]. split; [reflexivity|]. split; [exact H3|].
  apply (concatenation_outside Q [probe_clip 13; probe_clip 13] _ (-1 # 1)
           H1 eq_refl H3).
Defined.

(** X19. Concatenation composes. For clips whose durations are whole
    numbers of seconds (Python [int]s, which add exactly): the timeline of
    two lists of clips put together has the total duration of the two
    timelines, in the exact times and in the numbers of the loop; its first
    layers are the layers of the first timeline, and its remaining layers
    are the layers of the second timeline, each started later by the
    duration of the first timeline and otherwise unchanged. *)
Theorem concatenation_app (Frame : Type) (xs ys : list (Clip Frame))
    (xsec ysec : list Z) (tx ty : Composite Frame) :
  whole_seconds xs xsec ->
  whole_seconds ys ysec ->
  concatenate_videoclips xs = Ok tx ->
  concatenate_videoclips ys = Ok ty ->
  exists txy : Composite Frame,
    concatenate_videoclips (xs ++ ys) = Ok txy
    /\ whole_seconds (xs ++ ys) (xsec ++ ysec)
    /\ fst (concatenate_times (map PyInt (xsec ++ ysec)))
       = py_add (fst (concatenate_times (map PyInt xsec)))
                (fst (concatenate_times (map PyInt ysec)))
    /\ (comp_duration txy == comp_duration tx + comp_duration ty)%Q
    /\ firstn (List.length xs) (layers txy) = layers tx
    /\ Forall2 (fun l l' =>
                  (clip_start l == comp_duration tx + clip_start l')%Q
                  /\ clip_duration l = clip_duration l'
                  /\ clip_size l = clip_size l'
                  /\ get_frame l = get_frame l')
               (skipn (List.length xs) (layers txy)) (layers ty).
Proof.
  intros Hwx Hwy Hx Hy.
  destruct (concatenate_ok Frame xs tx Hx) as [Hlx Hdx].
  destruct (concatenate_ok Frame ys ty Hy) as [Hly Hdy].
  destruct xs as [|x0 xs']; [discriminate|].
  set (xs := x0 :: xs') in *.
  exists (mkComposite (laid_out 0 (xs ++ ys)) (clip_size x0)
            (end_time 0 (xs ++ ys))).
  split.
  { unfold concatenate_videoclips. rewrite concatenate_fold. reflexivity. }
  split; [now apply Forall2_app|]. split.
  { unfold concatenate_times. rewrite !concatenate_times_fold.
    cbn [fst]. rewrite !py_sum_from_ints. cbn [py_add]. f_equal.
    rewrite fold_right_app.
    clear. induction xsec as [|z zs IH]; simpl; [reflexivity | lia]. }
  cbn [layers comp_duration].
  rewrite Hlx, Hly, Hdx, Hdy, laid_out_app, end_time_app.
  assert (Hlen : List.length (laid_out 0 xs) = List.length xs)
    by apply length_laid_out.
  split; [|split].
  - rewrite (end_time_sum Frame ys (end_time 0 xs)).
    rewrite (end_time_sum Frame ys 0). lra.
  - rewrite <- Hlen, firstn_app, firstn_all, Nat.sub_diag. cbn [firstn].
    now rewrite app_nil_r.
  - rewrite <- Hlen, skipn_app, skipn_all, Nat.sub_diag. cbn [skipn app].
    eapply Forall2_impl; [|apply (laid_out_shift Frame ys (end_time 0 xs) 0)].
    intros l l' (H1 & H2 & H3 & H4). repeat split; try assumption.
    rewrite H1. lra.
Qed.

Lemma concatenation_app_witness :
  whole_seconds [probe_clip 13] [13]
  /\ whole_seconds [probe_clip 5] [5]
  /\ exists tx ty txy : Composite Q,
       concatenate_videoclips [probe_clip 13] = Ok tx
       /\ concatenate_videoclips [probe_clip 5] = Ok ty
       /\ concatenate_videoclips ([probe_clip 13] ++ [probe_clip 5]) = Ok txy
       /\ (comp_duration txy == 18)%Q.
Proof.
  assert (H13 : whole_seconds [probe_clip 13] [13]) by (repeat constructor).
  assert (H5 : whole_seconds [probe_clip 5] [5]) by (repeat constructor).
  split; [exact H13|]. split; [exact H5|].
  eexists. eexists.
  destruct (concatenation_app Q [probe_clip 13] [probe_clip 5] [13] [5] _ _
              H13 H5 eq_refl eq_refl) as (txy & H1 & _ & _ & H2 & _).
  exists txy. split; [reflexivity|]. split; [reflexivity|].
  split; [exact H1|]. rewrite H2. reflexivity.
Defined.

(** ** The clip of one question *)

Section QuizClipFacts.

Variable getbbox : Font -> string -> BBox.
Variable rgb2hsv : RGB -> HSV.
Variable rasterize : Picture -> Array2 QRGB.
Variable timer_get_frame : Q -> Array2 RGB.
Variable timer_size : Z * Z.
Variable resized : Array2 RGBA -> Array2 RGBA.
Variable cfg : Config.
Variable q : Question.

Local Abbreviation the_clip :=
  (make_quiz_clip getbbox rgb2hsv rasterize timer_get_frame timer_size
     resized cfg q).
Local Abbreviation base :=
  (base_clip getbbox rasterize cfg q).
Local Abbreviation timer :=
  (timer_clip rgb2hsv timer_get_frame timer_size resized).
Local Abbreviation blink := (blink_clip getbbox cfg q).

Local Open Scope Q_scope.

Lemma base_playing (t : Q) :
  is_playing base t = (Qle_bool 0 t && negb (Qle_bool 13 t))%bool.
Proof.
  destruct (is_playing base t) eqn:E.
  - apply is_playing_spec in E. simpl in E. symmetry.
    apply andb_true_iff. split; [apply Qle_bool_iff; lra|].
    apply negb_true_iff. destruct (Qle_bool 13 t) eqn:E'; [|reflexivity].
    apply Qle_bool_iff in E'. lra.
  - apply is_playing_false in E. simpl in E. symmetry.
    apply andb_false_iff. destruct E as [E|E].
    + left. destruct (Qle_bool 0 t) eqn:E'; [|reflexivity].
      apply Qle_bool_iff in E'. lra.
    + right. apply negb_false_iff. apply Qle_bool_iff. lra.
Qed.

Lemma timer_playing (t : Q) :
  is_playing timer t = (Qle_bool 0 t && negb (Qle_bool (1156 # 100) t))%bool.
Proof.
  destruct (is_playing timer t) eqn:E.
  - apply is_playing_spec in E. simpl in E. symmetry.
    apply andb_true_iff. split; [apply Qle_bool_iff; lra|].
    apply negb_true_iff.
    destruct (Qle_bool (1156 # 100) t) eqn:E'; [|reflexivity].
    apply Qle_bool_iff in E'. lra.
  - apply is_playing_false in E. simpl in E. symmetry.
    apply andb_false_iff. destruct E as [E|E].
    + left. destruct (Qle_bool 0 t) eqn:E'; [|reflexivity].
      apply Qle_bool_iff in E'. lra.
    + right. apply negb_false_iff. apply Qle_bool_iff. lra.
Qed.

Lemma blink_playing (t : Q) :
  is_playing blink t = (Qle_bool 10 t && negb (Qle_bool 13 t))%bool.
Proof.
  destruct (is_playing blink t) eqn:E.
  - apply is_playing_spec in E. simpl in E. symmetry.
    apply andb_true_iff. split; [apply Qle_bool_iff; lra|].
    apply negb_true_iff. destruct (Qle_bool 13 t) eqn:E'; [|reflexivity].
    apply Qle_bool_iff in E'. change (inject_Z blink_duration) with (3 # 1) in E. lra.
  - apply is_playing_false in E. simpl in E. symmetry.
    apply andb_false_iff. destruct E as [E|E].
    + left. destruct (Qle_bool 10 t) eqn:E'; [|reflexivity].
      apply Qle_bool_iff in E'. lra.
    + right. apply negb_false_iff. apply Qle_bool_iff.
      change (inject_Z blink_duration) with (3 # 1) in E. lra.
Qed.

Lemma quiz_clip_sampled (t : Q) :
  sampled_frames the_clip t
  = ((if is_playing base t then [get_frame base (t - 0)] else [])
     ++ (if is_playing timer t then [get_frame timer (t - 0)] else [])
     ++ (if is_playing blink t then [get_frame blink (t - 10)] else []))%list.
Proof.
  unfold sampled_frames, playing, make_quiz_clip.
  cbn [layers playing_from].
  change (clip_start base) with 0.
  change (clip_start timer) with 0.
  change (clip_start blink) with 10.
  destruct (is_playing base t), (is_playing timer t), (is_playing blink t);
    reflexivity.
Qed.

End QuizClipFacts.

(** X20. The timeline of one question. At a time [t] with [0 <= t < 13]
    the clip of a question shows the background (faded in during the first
    second), above it the keyed timer as long as [t < 11.56], and above
    both the blinking overlay from [t = 10] on, sampled at [t - 10]: the
    correct answer blinks from second 10 to second 13. Outside
    [0 <= t < 13] no layer plays. While it plays, the overlay of a resolved
    answer shows the highlight iff [floor ((t - 10) * 24) mod 8 < 4]. *)
Theorem quiz_clip_timeline (getbbox : Font -> string -> BBox)
    (rgb2hsv : RGB -> HSV) (rasterize : Picture -> Array2 QRGB)
    (timer_get_frame : Q -> Array2 RGB) (timer_size : Z * Z)
    (resized : Array2 RGBA -> Array2 RGBA) (cfg : Config) (q : Question)
    (t : Q) :
  let clip := make_quiz_clip getbbox rgb2hsv rasterize timer_get_frame
                timer_size resized cfg q in
  let background :=
    rasterize (background_picture getbbox cfg (question q)
                 (opt_a q) (opt_b q) (opt_c q) (opt_d q)) in
  let overlay := fun local =>
    clip_make_blink_frame getbbox cfg (opt_a q) (opt_b q) (opt_c q)
      (opt_d q) (answer q) local in
  ((0 <= t < 13)%Q ->
   sampled_frames clip t
   = (BaseLayer (FadeIn_filter 1 (0, 0, 0)%Q (fun _ => background)
                   (t - 0)%Q)
      :: (if Qle_bool (1156 # 100) t then []
          else [TimerLayer
                  (resized (remove_green rgb2hsv
                              (timer_get_frame (t - 0)%Q)))])
      ++ (if Qle_bool 10 t then [BlinkLayer (overlay (t - 10)%Q)] else []))%list)
  /\ ((t < 0)%Q \/ (13 <= t)%Q -> sampled_frames clip t = [])
  /\ ((10 <= t)%Q ->
      forall box : Region,
        find_answer_box (compute_layout cfg) (answer q) = Some box ->
        overlay (t - 10)%Q
        = Some (if Qfloor ((t - 10) * 24) mod 8 <? 4
                then highlight_picture getbbox cfg (opt_a q) (opt_b q)
                       (opt_c q) (opt_d q) box
                else [])).
Proof.
  intros clip background overlay. unfold clip.
  split; [|split].
  - intros [H0 H13]. rewrite quiz_clip_sampled.
    rewrite base_playing, timer_playing, blink_playing.
    assert (E0 : Qle_bool 0 t = true) by (now apply Qle_bool_iff).
    assert (E13 : Qle_bool 13 t = false).
    { destruct (Qle_bool 13 t) eqn:E; [|reflexivity].
      apply Qle_bool_iff in E. lra. }
    rewrite E0, E13. cbn [andb negb].
    destruct (Qle_bool (1156 # 100) t); rewrite ?andb_true_r;
      destruct (Qle_bool 10 t); reflexivity.
  - intro Hout. rewrite quiz_clip_sampled.
    rewrite base_playing, timer_playing, blink_playing.
    destruct Hout as [Hneg|Hlate].
    + assert (E0 : Qle_bool 0 t = false).
      { destruct (Qle_bool 0 t) eqn:E; [|reflexivity].
        apply Qle_bool_iff in E. lra. }
      assert (E10 : Qle_bool 10 t = false).
      { destruct (Qle_bool 10 t) eqn:E; [|reflexivity].
        apply Qle_bool_iff in E. lra. }
      now rewrite E0, E10.
    + assert (E13 : Qle_bool 13 t = true) by (apply Qle_bool_iff; lra).
      assert (E11 : Qle_bool (1156 # 100) t = true)
        by (apply Qle_bool_iff; lra).
      rewrite E13, E11. cbn [negb]. now rewrite !andb_false_r.
  - intros H10 box Hbox. unfold overlay, clip_make_blink_frame.
    rewrite Hbox, make_blink_frame_index.
    rewrite py_int_floor by (apply Qmult_le_0_compat; [lra | easy]).
    f_equal. rewrite blink_frame_on.
    change (on_frames + off_frames) with 8. change on_frames with 4.
    change (inject_Z fps) with (24 : Q)%Q.
    rewrite Z.mod_mod_divide by (exists 9; reflexivity).
    reflexivity.
Qed.

(** At 10.5 s the three layers play; the overlay is sampled at 0.5 s. *)
Lemma quiz_clip_timeline_witness :
  (0 <= 21 # 2 < 13)%Q
  /\ List.length
       (sampled_frames
          (make_quiz_clip mono_getbbox (fun p => p) (fun _ => [])
             (fun _ => []) (100, 100) (fun f => f) wide_config
             france_question) (21 # 2))
     = 3%nat.
Proof.
  assert (H : (0 <= 21 # 2 < 13)%Q) by (split; [discriminate | reflexivity]).
  split; [exact H|].
  destruct (quiz_clip_timeline mono_getbbox (fun p => p) (fun _ => [])
              (fun _ => []) (100, 100) (fun f => f) wide_config
              france_question (21 # 2)) as (H1 & _).
  rewrite (H1 H). reflexivity.
Defined.

(** ** The final video *)

Lemma sum_durations_uniform (Frame : Type) (clips : list (Clip Frame))
    (d : Q) :
  Forall (fun c => clip_duration c = d) clips ->
  forall k : nat, (k <= List.length clips)%nat ->
  (sum_durations (firstn k clips) == d * inject_Z (Z.of_nat k))%Q.
Proof.
  induction 1 as [|c clips Hc _ IH]; intros k Hk.
  - destruct k; [simpl; ring | simpl in Hk; lia].
  - destruct k as [|k]; [simpl; ring|].
    cbn [firstn sum_durations]. rewrite IH by (simpl in Hk; lia).
    rewrite Hc, Nat2Z.inj_succ. unfold Z.succ. rewrite inject_Z_plus. ring.
Qed.

(** X21. The final video. For at least one question the main block builds
    a timeline whose duration is 13 seconds times the number of questions,
    and during [13 k <= t < 13 k + 13] the final video shows the clip of
    question number k alone, sampled at its own time [t - 13 k]: with the
    timeline of one question, the answer of question k blinks from second
    [13 k + 10] to second [13 k + 13]. *)
Theorem main_video_timeline (getbbox : Font -> string -> BBox)
    (rgb2hsv : RGB -> HSV) (rasterize : Picture -> Array2 QRGB)
    (timer_get_frame : Q -> Array2 RGB) (timer_size : Z * Z)
    (resized : Array2 RGBA -> Array2 RGBA) (cfg : Config)
    (q0 : Question) (qs : list Question) :
  let questions := q0 :: qs in
  let clip_of := fun q =>
    make_quiz_clip getbbox rgb2hsv rasterize timer_get_frame timer_size
      resized cfg q in
  exists timeline : Composite (list QuizLayer),
    main_video getbbox rgb2hsv rasterize timer_get_frame timer_size resized
      cfg questions = Ok timeline
    /\ (comp_duration timeline
        == 13 * inject_Z (Z.of_nat (List.length questions)))%Q
    /\ forall (k : nat) (q : Question) (t : Q),
         nth_error questions k = Some q ->
         (13 * inject_Z (Z.of_nat k) <= t
          < 13 * inject_Z (Z.of_nat k) + 13)%Q ->
         exists local : Q,
           (local == t - 13 * inject_Z (Z.of_nat k))%Q
           /\ sampled_frames timeline t
              = [sampled_frames (clip_of q) local].
Proof.
  intros questions clip_of.
  set (make := fun q => composite_clip (clip_of q)).
  set (clips := map make questions).
  assert (Hdur : Forall (fun c => clip_duration c = 13%Q) clips).
  { unfold clips. apply Forall_map, Forall_forall. intros q _. reflexivity. }
  assert (Hpos : Forall (fun c => (0 <= clip_duration c)%Q) clips).
  { eapply Forall_impl; [|exact Hdur]. intros c Hc. rewrite Hc. discriminate. }
  assert (Hlen : List.length clips = List.length questions)
    by (unfold clips; apply length_map).
  assert (Htot : (end_time 0 clips
                  == 13 * inject_Z (Z.of_nat (List.length questions)))%Q).
  { rewrite end_time_sum, <- Hlen.
    rewrite <- (firstn_all clips) at 1.
    rewrite (sum_durations_uniform _ clips 13 Hdur) by lia. ring. }
  exists (mkComposite (laid_out 0 clips) (clip_size (make q0))
            (end_time 0 clips)).
  split; [|split].
  - unfold main_video, main_final_clip. fold make. fold questions.
    unfold questions at 1. fold questions. fold clips.
    unfold concatenate_videoclips. rewrite concatenate_fold.
    unfold clips at 1, questions at 1. reflexivity.
  - exact Htot.
  - intros k q t Hk Ht. cbn [layers comp_duration].
    assert (Hkc : nth_error clips k = Some (make q))
      by (unfold clips; now apply map_nth_error).
    assert (Hklt : (k < List.length questions)%nat)
      by (apply nth_error_Some; congruence).
    set (start := end_time 0 (firstn k clips)).
    assert (Hstart : (start == 13 * inject_Z (Z.of_nat k))%Q).
    { unfold start. rewrite end_time_sum.
      rewrite (sum_durations_uniform _ clips 13 Hdur) by lia. ring. }
    pose proof (nth_error_laid_out _ clips 0 k (make q) Hkc) as Hlayer.
    fold start in Hlayer.
    assert (Hplays : is_playing (with_start (make q) start) t = true).
    { apply is_playing_spec. simpl. lra. }
    assert (Hin : (0 <= t < end_time 0 clips)%Q).
    { split.
      - assert ((0 <= inject_Z (Z.of_nat k))%Q)
          by (change 0%Q with (inject_Z 0); rewrite <- Zle_Qle; lia).
        lra.
      - rewrite Htot.
        assert ((inject_Z (Z.of_nat k) + 1
                 <= inject_Z (Z.of_nat (List.length questions)))%Q).
        { change 1%Q with (inject_Z 1). rewrite <- inject_Z_plus.
          rewrite <- Zle_Qle. lia. }
        lra. }
    destruct (playing_dispatch _ clips 0 t 0 Hpos Hin)
      as (k' & c' & Hk' & _ & Hplay).
    cbn [Nat.add] in Hplay.
    pose proof (playing_from_complete _ (laid_out 0 clips) t 0 k
                  (with_start (make q) start) Hlayer Hplays) as Hmem.
    rewrite Hplay in Hmem. cbn [Nat.add] in Hmem.
    destruct Hmem as [E|[]]. inversion E; subst k'.
    exists (t - start)%Q. split; [rewrite Hstart; ring|].
    unfold sampled_frames at 1, playing. cbn [layers].
    rewrite Hplay. cbn [flat_map]. rewrite Hlayer. reflexivity.
Qed.
